(** * ivshmem: the KVM inter-VM shared-memory driver and its memory test

    A shallow embedding of [kernel_module/standard/kvm_ivshmem.c] (the
    character-device driver: ioctl, read, write, llseek and the interrupt
    handler) and of [kernel_module/standard/memtest.c] (the user-space
    client/server memory test), with the properties of the written
    specification stated and settled against them.

    Conventions.  C integers are values of [Z] together with the
    conversion that the C type performs ([u32], [u64], [s32], [s64]).
    The C globals of the driver ([kvm_ivshmem_dev], [event_num], [sema],
    [wait_queue]) are the fields of one record, [kstate], which is threaded
    through every driver entry point.  The kernel primitives the driver
    calls ([sema_init], [down_interruptible], [up],
    [wait_event_interruptible], [wake_up_interruptible], [readl], [writel],
    [copy_to_user], [copy_from_user]) are modelled after kernel/locking/
    semaphore.c, include/linux/wait.h and the uaccess contract. *)

From stdpp Require Import base numbers list gmap.

Local Open Scope Z_scope.

(** ** C integer conversions *)

Definition u32 (x : Z) : Z := x mod 2 ^ 32.
Definition u64 (x : Z) : Z := x mod 2 ^ 64.

Definition s32 (x : Z) : Z :=
  let y := x mod 2 ^ 32 in if y <? 2 ^ 31 then y else y - 2 ^ 32.

Definition s64 (x : Z) : Z :=
  let y := x mod 2 ^ 64 in if y <? 2 ^ 63 then y else y - 2 ^ 64.

(** ** Constants of the kernel ABI *)

Definition EINTR : Z := 4.
Definition EFAULT : Z := 14.
Definition ERESTARTSYS : Z := 512.

Definition SEEK_SET : Z := 0.
Definition SEEK_CUR : Z := 1.
Definition SEEK_END : Z := 2.

Inductive irqreturn_t := IRQ_NONE | IRQ_HANDLED.

(** ** Register offsets (the anonymous enum of kvm_ivshmem.c) *)

Definition IntrMask : Z := 0x00.
Definition IntrStatus : Z := 0x04.
Definition IVPosition : Z := 0x08.
Definition Doorbell : Z := 0x0c.

(** ** [enum ivshmem_ioctl] *)

Inductive ivshmem_ioctl :=
| set_sema | down_sema | empty | wait_event | wait_event_irq
| read_ivposn | read_livelist | sema_irq.

Definition ioctl_code (c : ivshmem_ioctl) : Z :=
  match c with
  | set_sema => 0 | down_sema => 1 | empty => 2 | wait_event => 3
  | wait_event_irq => 4 | read_ivposn => 5 | read_livelist => 6
  | sema_irq => 7
  end.

(** The enumerator a [cmd] value selects in [switch (cmd)], if any. *)
Definition ioctl_of_cmd (cmd : Z) : option ivshmem_ioctl :=
  if cmd =? 0 then Some set_sema
  else if cmd =? 1 then Some down_sema
  else if cmd =? 2 then Some empty
  else if cmd =? 3 then Some wait_event
  else if cmd =? 4 then Some wait_event_irq
  else if cmd =? 5 then Some read_ivposn
  else if cmd =? 6 then Some read_livelist
  else if cmd =? 7 then Some sema_irq
  else None.

(** ** Tasks, and the kernel's wait primitives *)

(** A task (thread of a user process) is named by a number. *)
Definition tid := nat.

(** [struct semaphore]: [count] is an [unsigned int]; [wait_list] holds the
    tasks sleeping in [down], oldest first. *)
Record semaphore := { count : Z; wait_list : list tid }.

(** [sema_init(sem, val)] with [int val]. *)
Definition sema_init (val : Z) : semaphore :=
  {| count := u32 val; wait_list := [] |}.

(** [down_interruptible], called with no signal pending: takes the
    semaphore when [count > 0] and returns 0 at once; otherwise the caller
    is queued and sleeps ([None]). *)
Definition down_interruptible (t : tid) (sem : semaphore)
  : option Z * semaphore :=
  if 0 <? count sem
  then (Some 0, {| count := count sem - 1; wait_list := wait_list sem |})
  else (None, {| count := count sem; wait_list := wait_list sem ++ [t] |}).

(** A signal reaches task [t] asleep in [down_interruptible]: the task
    leaves the wait list and the call returns [-EINTR]; [count] is not
    touched. *)
Definition down_interruptible_signal (t : tid) (sem : semaphore)
  : Z * semaphore :=
  (- EINTR,
   {| count := count sem;
      wait_list := filter (fun t' => t' ≠ t) (wait_list sem) |}).

(** [up]: with no sleeper, [count++]; with sleepers, the oldest one is
    taken off the list and woken, and its [down] returns 0 (the unit is
    handed to it, [count] stays). *)
Definition up (sem : semaphore) : semaphore * option tid :=
  match wait_list sem with
  | [] => ({| count := u32 (count sem + 1); wait_list := [] |}, None)
  | t :: rest => ({| count := count sem; wait_list := rest |}, Some t)
  end.

(** [wait_event_interruptible(wq, condition)]: returns 0 at once when the
    condition holds; otherwise [-ERESTARTSYS] when a signal is pending;
    otherwise the caller is queued on [wq] and sleeps ([None]).  The same
    test is made again each time the sleeper is woken. *)
Definition wait_event_interruptible
    (t : tid) (condition signal_pending : bool) (wq : list tid)
  : option Z * list tid :=
  if condition then (Some 0, filter (fun t' => t' ≠ t) wq)
  else if signal_pending
       then (Some (- ERESTARTSYS), filter (fun t' => t' ≠ t) wq)
       else (None, filter (fun t' => t' ≠ t) wq ++ [t]).

(** [wake_up_interruptible(wq)]: every (non-exclusive) sleeper is taken
    off the queue and made runnable. *)
Definition wake_up_interruptible (wq : list tid) : list tid * list tid :=
  ([], wq).

(** ** The device and the driver's global state *)

(** [struct kvm_ivshmem_device]; pointers are addresses, with 0 for NULL.
    [ioaddr_size] and the other sizes are [unsigned int]. *)
Record kvm_ivshmem_device := {
  regs : Z;
  base_addr : Z;
  regaddr : Z;
  reg_size : Z;
  ioaddr : Z;
  ioaddr_size : Z;
  irq : Z;
  nvectors : Z;
  enabled : bool
}.

(** The file-scope variables of kvm_ivshmem.c, the device memory they
    point into, and the address space of the calling process.
    - [mmio]: the 32-bit device registers, by kernel address;
    - [mmio_writes]: every [writel] the device has received, newest first
      (a write to Doorbell is what notifies the peer);
    - [shmem]: the bytes behind [base_addr], by kernel address;
    - [umem]: the bytes of user memory, by user address; an address that
      is not in the map faults. *)
Record kstate := {
  kvm_ivshmem_dev : kvm_ivshmem_device;
  event_num : Z;
  sema : semaphore;
  wait_queue : list tid;
  mmio : gmap Z Z;
  mmio_writes : list (Z * Z);
  shmem : gmap Z Z;
  umem : gmap Z Z
}.

Definition set_event_num (v : Z) (s : kstate) : kstate :=
  {| kvm_ivshmem_dev := kvm_ivshmem_dev s; event_num := v; sema := sema s;
     wait_queue := wait_queue s; mmio := mmio s;
     mmio_writes := mmio_writes s; shmem := shmem s; umem := umem s |}.

Definition set_sema_var (sem : semaphore) (s : kstate) : kstate :=
  {| kvm_ivshmem_dev := kvm_ivshmem_dev s; event_num := event_num s;
     sema := sem; wait_queue := wait_queue s; mmio := mmio s;
     mmio_writes := mmio_writes s; shmem := shmem s; umem := umem s |}.

Definition set_wait_queue (wq : list tid) (s : kstate) : kstate :=
  {| kvm_ivshmem_dev := kvm_ivshmem_dev s; event_num := event_num s;
     sema := sema s; wait_queue := wq; mmio := mmio s;
     mmio_writes := mmio_writes s; shmem := shmem s; umem := umem s |}.

Definition set_shmem (m : gmap Z Z) (s : kstate) : kstate :=
  {| kvm_ivshmem_dev := kvm_ivshmem_dev s; event_num := event_num s;
     sema := sema s; wait_queue := wait_queue s; mmio := mmio s;
     mmio_writes := mmio_writes s; shmem := m; umem := umem s |}.

Definition set_umem (m : gmap Z Z) (s : kstate) : kstate :=
  {| kvm_ivshmem_dev := kvm_ivshmem_dev s; event_num := event_num s;
     sema := sema s; wait_queue := wait_queue s; mmio := mmio s;
     mmio_writes := mmio_writes s; shmem := shmem s; umem := m |}.

(** [readl(addr)] and [writel(val, addr)]. *)
Definition readl (addr : Z) (s : kstate) : Z :=
  default 0 (mmio s !! addr).

Definition writel (val addr : Z) (s : kstate) : kstate :=
  {| kvm_ivshmem_dev := kvm_ivshmem_dev s; event_num := event_num s;
     sema := sema s; wait_queue := wait_queue s;
     mmio := <[addr := u32 val]> (mmio s);
     mmio_writes := (addr, u32 val) :: mmio_writes s;
     shmem := shmem s; umem := umem s |}.

(** ** User access *)

(** The [n] bytes at [addr], [addr + 1], ... of a memory. *)
Fixpoint load_bytes (m : gmap Z Z) (addr : Z) (n : nat) : list Z :=
  match n with
  | O => []
  | S n' => default 0 (m !! addr) :: load_bytes m (addr + 1) n'
  end.

Fixpoint store_bytes (m : gmap Z Z) (addr : Z) (bs : list Z) : gmap Z Z :=
  match bs with
  | [] => m
  | b :: bs' => store_bytes (<[addr := b]> m) (addr + 1) bs'
  end.

(** [copy_to_user(to, from, n)]: stores the bytes [src] at user address
    [to] up to the first address that faults; returns the number of bytes
    that could not be copied (0 on success). *)
Fixpoint copy_to_user (to : Z) (src : list Z) (um : gmap Z Z)
  : Z * gmap Z Z :=
  match src with
  | [] => (0, um)
  | b :: src' =>
      match um !! to with
      | None => (Z.of_nat (length src), um)
      | Some _ => copy_to_user (to + 1) src' (<[to := b]> um)
      end
  end.

(** [copy_from_user(to, from, n)]: reads [n] bytes at user address [from]
    up to the first address that faults; returns the number of bytes that
    could not be copied together with the [n] bytes that land in the
    kernel buffer (the part that could not be copied is zeroed). *)
Fixpoint copy_from_user (from : Z) (n : nat) (um : gmap Z Z)
  : Z * list Z :=
  match n with
  | O => (0, [])
  | S n' =>
      match um !! from with
      | None => (Z.of_nat n, replicate n 0)
      | Some b =>
          let '(r, bs) := copy_from_user (from + 1) n' um in (r, b :: bs)
      end
  end.

(** The four bytes of a [uint32_t], little endian. *)
Definition le32 (v : Z) : list Z :=
  [v mod 256; (v / 2 ^ 8) mod 256; (v / 2 ^ 16) mod 256; (v / 2 ^ 24) mod 256].

(** ** [kvm_ivshmem_ioctl] *)

(** The two places where the ioctl can sleep: line 136
    ([down_interruptible]) and line 147 ([wait_event_interruptible]). *)
Inductive ioctl_pc := PcDownSema | PcWaitEvent.

(** What a call into the ioctl does before it returns or goes to sleep. *)
Inductive ioctl_result :=
| Returned (rv : Z) (s : kstate)
| Sleeping (pc : ioctl_pc) (s : kstate).

(** [msg = ((arg & 0xff) << 8) + (cmd & 0xff)], stored in a [uint32_t]. *)
Definition doorbell_msg (cmd arg : Z) : Z :=
  u32 (Z.shiftl (Z.land arg 0xff) 8 + Z.land cmd 0xff).

(** The rest of [case down_sema] once [down_interruptible] has returned
    [rv]: the value is stored in [rv], "waking" is logged, and the function
    falls to its [return 0]. *)
Definition ioctl_after_down (rv : Z) (s : kstate) : ioctl_result :=
  Returned 0 s.

(** The rest of [case wait_event] once [wait_event_interruptible] has
    returned (its value is dropped): [event_num = 0; break;], then
    [return 0]. *)
Definition ioctl_after_wait_event (rv : Z) (s : kstate) : ioctl_result :=
  Returned 0 (set_event_num 0 s).

(** [cmd] is an [unsigned int], [arg] an [unsigned long]; [t] is the
    calling task, which has no signal pending when it makes the call. *)
Definition kvm_ivshmem_ioctl (t : tid) (cmd arg : Z) (s : kstate)
  : ioctl_result :=
  match ioctl_of_cmd cmd with
  | Some set_sema =>
      Returned 0 (set_sema_var (sema_init (s32 arg)) s)
  | Some down_sema =>
      match down_interruptible t (sema s) with
      | (Some rv, sem') => ioctl_after_down rv (set_sema_var sem' s)
      | (None, sem') => Sleeping PcDownSema (set_sema_var sem' s)
      end
  | Some empty =>
      let msg := doorbell_msg cmd arg in
      Returned 0 (writel msg (regs (kvm_ivshmem_dev s) + Doorbell) s)
  | Some wait_event =>
      match wait_event_interruptible
              t (event_num s =? 1) false (wait_queue s) with
      | (Some rv, wq') => ioctl_after_wait_event rv (set_wait_queue wq' s)
      | (None, wq') => Sleeping PcWaitEvent (set_wait_queue wq' s)
      end
  | Some wait_event_irq =>
      let msg := doorbell_msg cmd arg in
      Returned 0 (writel msg (regs (kvm_ivshmem_dev s) + Doorbell) s)
  | Some read_ivposn =>
      let msg := readl (regs (kvm_ivshmem_dev s) + IVPosition) s in
      let '(rv, um') := copy_to_user arg (le32 msg) (umem s) in
      Returned 0 (set_umem um' s)
  | Some sema_irq =>
      let msg := doorbell_msg cmd arg in
      Returned 0 (writel msg (regs (kvm_ivshmem_dev s) + Doorbell) s)
  | Some read_livelist | None =>
      Returned 0 s
  end.

(** A task asleep at [pc] runs again.  [by_signal] tells whether it was
    woken by a signal or by the interrupt handler.
    - asleep in [down_interruptible]: a signal makes the call return
      [-EINTR]; after [up] handed it the semaphore the call returns 0;
    - asleep in [wait_event_interruptible]: the condition is tested again,
      and the task may go back to sleep. *)
Definition kvm_ivshmem_ioctl_resume
    (t : tid) (pc : ioctl_pc) (by_signal : bool) (s : kstate)
  : ioctl_result :=
  match pc with
  | PcDownSema =>
      if by_signal
      then let '(rv, sem') := down_interruptible_signal t (sema s) in
           ioctl_after_down rv (set_sema_var sem' s)
      else ioctl_after_down 0 s
  | PcWaitEvent =>
      match wait_event_interruptible
              t (event_num s =? 1) by_signal (wait_queue s) with
      | (Some rv, wq') => ioctl_after_wait_event rv (set_wait_queue wq' s)
      | (None, wq') => Sleeping PcWaitEvent (set_wait_queue wq' s)
      end
  end.

(** ** [kvm_ivshmem_interrupt] *)

(** Returns the handler's result, the new state, the task whose [down]
    was completed by [up] (if any) and the tasks woken from [wait_queue]. *)
Definition kvm_ivshmem_interrupt
    (irqn : Z) (dev_instance : option kvm_ivshmem_device) (s : kstate)
  : irqreturn_t * kstate * option tid * list tid :=
  match dev_instance with
  | None => (IRQ_NONE, s, None, [])
  | Some dev =>
      let status := readl (regs dev + IntrStatus) s in
      if (status =? 0) || (status =? 0xFFFFFFFF)
      then (IRQ_NONE, s, None, [])
      else if status =? ioctl_code sema_irq then
        let '(sem', released) := up (sema s) in
        (IRQ_HANDLED, set_sema_var sem' s, released, [])
      else if status =? ioctl_code wait_event_irq then
        let s1 := set_event_num 1 s in
        let '(wq', woken) := wake_up_interruptible (wait_queue s1) in
        (IRQ_HANDLED, set_wait_queue wq' s1, None, woken)
      else (IRQ_HANDLED, s, None, [])
  end.

(** ** [kvm_ivshmem_read], [kvm_ivshmem_write], [kvm_ivshmem_lseek] *)

(** [len] is a [size_t], [poffset] the [loff_t] that [*poffset] holds.
    Returns the [ssize_t] result, the new [*poffset] and the new state. *)
Definition kvm_ivshmem_read (buffer len poffset : Z) (s : kstate)
  : Z * Z * kstate :=
  let dev := kvm_ivshmem_dev s in
  let offset := u64 poffset in
  if base_addr dev =? 0 then (0, poffset, s)
  else
    let len :=
      if len >? u64 (ioaddr_size dev - offset)
      then u64 (ioaddr_size dev - offset) else len in
    if len =? 0 then (0, poffset, s)
    else
      let '(uncopied, um') :=
        copy_to_user buffer
          (load_bytes (shmem s) (u64 (base_addr dev + offset)) (Z.to_nat len))
          (umem s) in
      let bytes_read := s32 uncopied in
      if bytes_read >? 0 then (- EFAULT, poffset, set_umem um' s)
      else (s64 len, s64 (poffset + len), set_umem um' s).

Definition kvm_ivshmem_write (buffer len poffset : Z) (s : kstate)
  : Z * Z * kstate :=
  let dev := kvm_ivshmem_dev s in
  let offset := u64 poffset in
  if base_addr dev =? 0 then (0, poffset, s)
  else
    let len :=
      if len >? u64 (ioaddr_size dev - offset)
      then u64 (ioaddr_size dev - offset) else len in
    if len =? 0 then (0, poffset, s)
    else
      let '(uncopied, bs) := copy_from_user buffer (Z.to_nat len) (umem s) in
      let s' :=
        set_shmem (store_bytes (shmem s) (u64 (base_addr dev + offset)) bs) s in
      let bytes_written := s32 uncopied in
      if bytes_written >? 0 then (- EFAULT, poffset, s')
      else (s64 len, s64 (poffset + len), s').

(** [struct file], as far as the driver uses it. *)
Record file := { f_pos : Z }.

(** The statements under [case SEEK_SET:], which [case SEEK_CUR:] falls
    into. *)
Definition lseek_set (offset : Z) (s : kstate) : Z * file :=
  let retval := offset in
  let offset :=
    if offset >? ioaddr_size (kvm_ivshmem_dev s)
    then ioaddr_size (kvm_ivshmem_dev s) else offset in
  (retval, {| f_pos := offset |}).

(** Returns the [loff_t] result and the file with its new position. *)
Definition kvm_ivshmem_lseek (filp : file) (offset origin : Z) (s : kstate)
  : Z * file :=
  if origin =? SEEK_CUR then lseek_set (s64 (offset + f_pos filp)) s
  else if origin =? SEEK_SET then lseek_set offset s
  else (-1, filp).

(** * memtest.c *)

Definition TEST_LOOPS : nat := 500.

(** The control block at the start of the shared window (all [int]). *)
Record vm_control_t := {
  iv_server : Z;
  iv_client : Z;
  ready : Z;
  start : Z;
  data : Z;
  done : Z;
  shutdown : Z
}.

(** One line of "memtest error" output: the index [n], the value found in
    [test_pmem[n]] and the value expected, [n ^ data]. *)
Record memtest_error := { err_index : Z; err_found : Z; err_expected : Z }.

(** The globals of memtest.c that [memtest] uses.  [test_pmem] maps a slot
    index to the 32 bits stored there; [test_mem_size] is a [long];
    [read_counter] and [write_counter] are the function's statics;
    [errors] is what the function has printed, newest first. *)
Record mstate := {
  vm_control : vm_control_t;
  test_pmem : gmap Z Z;
  test_mem_size : Z;
  read_counter : Z;
  write_counter : Z;
  errors : list memtest_error
}.

Definition slot (m : mstate) (n : Z) : Z := u32 (default 0 (test_pmem m !! n)).

Definition set_shutdown (v : Z) (c : vm_control_t) : vm_control_t :=
  {| iv_server := iv_server c; iv_client := iv_client c; ready := ready c;
     start := start c; data := data c; done := done c; shutdown := v |}.

(** The body of the [if] at line 235: print, [vm_control->shutdown = 1]. *)
Definition report_mismatch (n d : Z) (m : mstate) : mstate :=
  {| vm_control := set_shutdown 1 (vm_control m);
     test_pmem := test_pmem m; test_mem_size := test_mem_size m;
     read_counter := read_counter m; write_counter := write_counter m;
     errors := {| err_index := n; err_found := slot m n;
                  err_expected := Z.lxor n d |} :: errors m |}.

Definition count_read (m : mstate) : mstate :=
  {| vm_control := vm_control m; test_pmem := test_pmem m;
     test_mem_size := test_mem_size m;
     read_counter := s64 (read_counter m + 1);
     write_counter := write_counter m; errors := errors m |}.

Definition write_slot (n v : Z) (m : mstate) : mstate :=
  {| vm_control := vm_control m; test_pmem := <[n := v]> (test_pmem m);
     test_mem_size := test_mem_size m; read_counter := read_counter m;
     write_counter := s64 (write_counter m + 1); errors := errors m |}.

(** How a loop of [memtest] ends: it ran to its end, or left through
    [goto exit]. *)
Inductive loop_exit := Completed | Aborted.

(** The inner loop of the verify branch,
    [for (unsigned int n = ...; n < test_mem_size; n++)], from [n] on.
    [fuel] bounds the number of tests of the loop condition; [None] means
    the bound was reached. *)
Fixpoint verify_from (fuel : nat) (n d : Z) (m : mstate)
  : option (loop_exit * mstate) :=
  match fuel with
  | O => None
  | S fuel' =>
      if n <? test_mem_size m then
        if negb (slot m n =? Z.lxor n d)
        then Some (Aborted, report_mismatch n d m)
        else verify_from fuel' (u32 (n + 1)) d (count_read m)
      else Some (Completed, m)
  end.

(** The inner loop of the write branch, [for (int n = ...)]; [n++] past
    [INT_MAX] is undefined and gives [None]. *)
Fixpoint write_from (fuel : nat) (n d : Z) (m : mstate) : option mstate :=
  match fuel with
  | O => None
  | S fuel' =>
      if n <? test_mem_size m then
        if n + 1 <? 2 ^ 31
        then write_from fuel' (n + 1) d (write_slot n (Z.lxor (u32 n) d) m)
        else None
      else Some m
  end.

(** As many tests of the condition as an inner loop over [test_mem_size]
    slots makes when its counter does not wrap. *)
Definition pass_fuel (m : mstate) : nat := S (Z.to_nat (test_mem_size m)).

(** The outer loops, [for (int i = 0; i < TEST_LOOPS; i++)]. *)
Fixpoint verify_loops (loops : nat) (d : Z) (m : mstate)
  : option (loop_exit * mstate) :=
  match loops with
  | O => Some (Completed, m)
  | S loops' =>
      match verify_from (pass_fuel m) 0 d m with
      | Some (Completed, m') => verify_loops loops' d m'
      | r => r
      end
  end.

Fixpoint write_loops (loops : nat) (d : Z) (m : mstate) : option mstate :=
  match loops with
  | O => Some m
  | S loops' =>
      match write_from (pass_fuel m) 0 d m with
      | Some m' => write_loops loops' d m'
      | None => None
      end
  end.

(** [memtest(data, verify)]: the value returned and the state left; [None]
    when an inner loop does not come to an end (its counter wraps before
    it reaches [test_mem_size]).  The timing report printed at [exit:]
    changes nothing that is modelled. *)
Definition memtest (d : Z) (verify : Z) (m : mstate) : option (Z * mstate) :=
  let d := u32 d in
  if verify =? 0 then
    match write_loops TEST_LOOPS d m with
    | Some m' => Some (0, m')
    | None => None
    end
  else
    match verify_loops TEST_LOOPS d m with
    | Some (Completed, m') => Some (0, m')
    | Some (Aborted, m') => Some (1, m')
    | None => None
    end.

(** The condition of the [do ... while] of [proc_client] and
    [proc_server]: another round is made while [shutdown] is 0. *)
Definition next_round (m : mstate) : bool := shutdown (vm_control m) =? 0.

(** [test_mem_size] as [main] computes it from [pmem_size]:
    [(pmem_size - sizeof vm_control[0]) / sizeof(int)], then
    [&= ~(sizeof(int) - 1)], in [unsigned long] arithmetic. *)
Definition main_test_mem_size (pmem_size : Z) : Z :=
  let q := u64 (pmem_size - 28) / 4 in
  s64 (Z.land q (u64 (Z.lnot (4 - 1)))).

(** [lseek(2)] on the device file as the process sees it: the driver's
    [llseek] result, with a negative error value turned into -1 (and
    [errno]) by the system-call return convention. *)
Definition lseek (filp : file) (offset whence : Z) (s : kstate) : Z * file :=
  let '(res, filp') := kvm_ivshmem_lseek filp offset whence s in
  (if (-4096 <? res) && (res <? 0) then -1 else res, filp').

(** [get_pmem_size()]: [res] is an [int]. *)
Definition get_pmem_size (filp : file) (s : kstate) : Z * file :=
  let '(r, filp1) := lseek filp 0 SEEK_END s in
  let res := s32 r in
  if res <? 0 then (res, filp1)
  else let '(_, filp2) := lseek filp1 0 SEEK_SET s in (res, filp2).

(** * The driver, its tasks and the device as a transition system *)

(** What can happen: a task enters the ioctl; the device sets its status
    register and raises the interrupt; a signal is sent to a task; a task
    woken from [wait_queue] gets the processor. *)
Inductive event :=
| EvIoctl (t : tid) (cmd arg : Z)
| EvIrq (status : Z)
| EvSignal (t : tid)
| EvSched (t : tid).

(** A finished ioctl call: the task, the command, whether the task was
    sent a signal while it slept in the call, and the value the ioctl
    returned to the process. *)
Record completion := {
  c_task : tid;
  c_cmd : option ivshmem_ioctl;
  c_signal : bool;
  c_ret : Z
}.

(** [woken]: the tasks woken from [wait_queue] that have not yet tested
    their condition again.  [returns]: finished calls, newest first. *)
Record system := {
  kern : kstate;
  woken : list tid;
  returns : list completion
}.

Definition boot (s : kstate) : system :=
  {| kern := s; woken := []; returns := [] |}.

(** The device latches [status] into its IntrStatus register. *)
Definition latch_status (status : Z) (s : kstate) : kstate :=
  {| kvm_ivshmem_dev := kvm_ivshmem_dev s; event_num := event_num s;
     sema := sema s; wait_queue := wait_queue s;
     mmio := <[regs (kvm_ivshmem_dev s) + IntrStatus := u32 status]> (mmio s);
     mmio_writes := mmio_writes s; shmem := shmem s; umem := umem s |}.

(** Task [t] is inside the ioctl (asleep, or woken and not yet run). *)
Definition in_ioctl (t : tid) (sys : system) : bool :=
  bool_decide (t ∈ wait_list (sema (kern sys)))
  || bool_decide (t ∈ wait_queue (kern sys))
  || bool_decide (t ∈ woken sys).

(** Records how a (resumed) call went on. *)
Definition settle (t : tid) (c : option ivshmem_ioctl) (by_signal : bool)
    (r : ioctl_result) (w : list tid) (done : list completion) : system :=
  match r with
  | Returned rv s =>
      {| kern := s; woken := w;
         returns := {| c_task := t; c_cmd := c; c_signal := by_signal;
                       c_ret := rv |} :: done |}
  | Sleeping _ s => {| kern := s; woken := w; returns := done |}
  end.

Definition step (e : event) (sys : system) : system :=
  match e with
  | EvIoctl t cmd arg =>
      settle t (ioctl_of_cmd cmd) false
        (kvm_ivshmem_ioctl t cmd arg (kern sys)) (woken sys) (returns sys)
  | EvIrq status =>
      let s0 := latch_status status (kern sys) in
      let '(_, s1, released, w) :=
        kvm_ivshmem_interrupt (irq (kvm_ivshmem_dev s0))
          (Some (kvm_ivshmem_dev s0)) s0 in
      match released with
      | Some t =>
          settle t (Some down_sema) false
            (kvm_ivshmem_ioctl_resume t PcDownSema false s1)
            (woken sys ++ w) (returns sys)
      | None =>
          {| kern := s1; woken := woken sys ++ w; returns := returns sys |}
      end
  | EvSignal t =>
      if bool_decide (t ∈ wait_list (sema (kern sys))) then
        settle t (Some down_sema) true
          (kvm_ivshmem_ioctl_resume t PcDownSema true (kern sys))
          (woken sys) (returns sys)
      else if bool_decide (t ∈ wait_queue (kern sys))
              || bool_decide (t ∈ woken sys) then
        settle t (Some wait_event) true
          (kvm_ivshmem_ioctl_resume t PcWaitEvent true (kern sys))
          (filter (fun t' => t' ≠ t) (woken sys)) (returns sys)
      else sys
  | EvSched t =>
      if bool_decide (t ∈ woken sys) then
        settle t (Some wait_event) false
          (kvm_ivshmem_ioctl_resume t PcWaitEvent false (kern sys))
          (filter (fun t' => t' ≠ t) (woken sys)) (returns sys)
      else sys
  end.

Fixpoint run (tr : list event) (sys : system) : system :=
  match tr with
  | [] => sys
  | e :: tr' => run tr' (step e sys)
  end.

(** A task that is inside the ioctl cannot enter it again. *)
Definition can_happen (e : event) (sys : system) : bool :=
  match e with
  | EvIoctl t _ _ => negb (in_ioctl t sys)
  | _ => true
  end.

Fixpoint feasible (tr : list event) (sys : system) : bool :=
  match tr with
  | [] => true
  | e :: tr' => can_happen e sys && feasible tr' (step e sys)
  end.

(** The finished [down_sema] calls that took the semaphore. *)
Definition down_completed (c : completion) : bool :=
  match c_cmd c with
  | Some down_sema => negb (c_signal c)
  | _ => false
  end.

Definition completed_downs (sys : system) : Z :=
  Z.of_nat (length (filter (fun c => down_completed c = true) (returns sys))).

(** Events on the semaphore channel: a delivery of the [sema_irq] status,
    or a [down_sema] call. *)
Definition is_delivery (e : event) : bool :=
  match e with
  | EvIrq status => u32 status =? ioctl_code sema_irq
  | _ => false
  end.

Definition is_down_call (e : event) : bool :=
  match e with
  | EvIoctl _ cmd _ => cmd =? ioctl_code down_sema
  | _ => false
  end.

Definition deliveries (tr : list event) : Z :=
  Z.of_nat (length (filter (fun e => is_delivery e = true) tr)).

Definition down_calls (tr : list event) : Z :=
  Z.of_nat (length (filter (fun e => is_down_call e = true) tr)).

Definition sema_channel (tr : list event) : Prop :=
  Forall (fun e => is_delivery e = true ∨ is_down_call e = true) tr.

(** * The rest of the driver *)

(** ** The stream interface of the device file *)

Definition EINVAL : Z := 22.

(** The calls a process makes on the open device file.  [read(2)] and
    [write(2)] hand the driver the file position [f_pos] and store the
    position it leaves; the kernel refuses them with [-EINVAL] before the
    driver is called when the position is negative.  Requests of fewer
    than 2^31 bytes reach the driver unchanged. *)
Inductive file_op :=
| OpRead (buffer len : Z)
| OpWrite (buffer len : Z)
| OpSeek (offset whence : Z).

Definition do_op (op : file_op) (st : file * kstate) : Z * (file * kstate) :=
  let '(filp, s) := st in
  match op with
  | OpRead buffer len =>
      if f_pos filp <? 0 then (- EINVAL, st)
      else let '(ret, pos, s') := kvm_ivshmem_read buffer len (f_pos filp) s in
           (ret, ({| f_pos := pos |}, s'))
  | OpWrite buffer len =>
      if f_pos filp <? 0 then (- EINVAL, st)
      else let '(ret, pos, s') := kvm_ivshmem_write buffer len (f_pos filp) s in
           (ret, ({| f_pos := pos |}, s'))
  | OpSeek offset whence =>
      let '(ret, filp') := lseek filp offset whence s in (ret, (filp', s))
  end.

Fixpoint do_ops (ops : list file_op) (st : file * kstate) : file * kstate :=
  match ops with
  | [] => st
  | op :: ops' => do_ops ops' (do_op op st).2
  end.

(** The size of a request is below 2^31. *)
Definition small_request (op : file_op) : Prop :=
  match op with
  | OpRead _ len | OpWrite _ len => 0 ≤ len < 2 ^ 31
  | OpSeek _ _ => True
  end.

(** ** [kvm_ivshmem_mmap] *)






(** ** Attaching and detaching the device, loading and unloading the module *)

Definition EBUSY : Z := 16.
Definition ENOSPC : Z := 28.
Definition VECTORS_COUNT : Z := 1.

(** The kernel calls of the set-up and tear-down paths that acquire or
    release something.  A call that acquires is recorded only when it
    succeeds. *)
Inductive kernel_call :=
| pci_enable_device
| pci_disable_device
| pci_request_regions
| pci_release_regions
| pci_iomap (bar addr : Z)
| pci_iounmap (addr : Z)
| kmalloc_msix_entries
| kmalloc_msix_names
| pci_alloc_irq_vectors
| pci_free_irq_vectors
| request_irq (n : Z)
| disable_irq (n : Z)
| free_irq (n : Z)
| pci_set_master
| misc_register
| misc_deregister
| pci_register_driver
| pci_unregister_driver.

(** What the PCI core answers for the device [pdev]: the results of
    [pci_enable_device] and [pci_request_regions], the resources of each
    BAR, the address [pci_iomap] returns for each BAR (0 for NULL), the
    result of [pci_alloc_irq_vectors], the interrupt number of each
    vector, the result of [request_irq] for each interrupt number, and
    [pdev->irq].  [kmalloc] is taken to succeed. *)
Record pci_dev := {
  enable_device_result : Z;
  request_regions_result : Z;
  resource_start : Z → Z;
  resource_len : Z → Z;
  iomap_result : Z → Z;
  alloc_irq_vectors_result : Z;
  irq_vector : Z → Z;
  request_irq_result : Z → Z;
  pdev_irq : Z
}.

Definition set_dev (d : kvm_ivshmem_device) (s : kstate) : kstate :=
  {| kvm_ivshmem_dev := d; event_num := event_num s; sema := sema s;
     wait_queue := wait_queue s; mmio := mmio s;
     mmio_writes := mmio_writes s; shmem := shmem s; umem := umem s |}.

(** The second loop of [request_msix_vectors], from vector [i] on, with
    [todo] vectors to go: [Some err] when it returns [err] from inside the
    loop, [None] when the loop ends. *)
Fixpoint msix_loop (pdev : pci_dev) (todo : nat) (i : Z)
    (log : list kernel_call) : option Z * list kernel_call :=
  match todo with
  | O => (None, log)
  | S todo' =>
      let n := alloc_irq_vectors_result pdev in
      if n <? 0 then (Some n, log)
      else
        let log := log ++ [pci_alloc_irq_vectors] in
        let n := irq_vector pdev i in
        let err := request_irq_result pdev n in
        if negb (err =? 0) then (Some (- ENOSPC), log)
        else msix_loop pdev todo' (i + 1) (log ++ [request_irq n])
  end.

Definition request_msix_vectors
    (pdev : pci_dev) (ivs_info : kvm_ivshmem_device) (nvectors : Z)
  : Z * kvm_ivshmem_device * list kernel_call :=
  let ivs_info :=
    {| regs := regs ivs_info; base_addr := base_addr ivs_info;
       regaddr := regaddr ivs_info; reg_size := reg_size ivs_info;
       ioaddr := ioaddr ivs_info; ioaddr_size := ioaddr_size ivs_info;
       irq := irq ivs_info; nvectors := nvectors;
       enabled := enabled ivs_info |} in
  match msix_loop pdev (Z.to_nat nvectors) 0
          [kmalloc_msix_entries; kmalloc_msix_names] with
  | (Some err, log) => (err, ivs_info, log)
  | (None, log) => (0, ivs_info, log ++ [pci_set_master])
  end.

(** [kvm_ivshmem_probe_device]: the result, the driver state it leaves and
    the calls it made. *)
Definition kvm_ivshmem_probe_device (pdev : pci_dev) (s : kstate)
  : Z * kstate * list kernel_call :=
  let result := enable_device_result pdev in
  if negb (result =? 0) then (result, s, [])
  else
    let log := [pci_enable_device] in
    let result := request_regions_result pdev in
    if result <? 0 then (- EBUSY, s, log ++ [pci_disable_device])
    else
      let log := log ++ [pci_request_regions] in
      let d := kvm_ivshmem_dev s in
      let d :=
        {| regs := regs d; base_addr := iomap_result pdev 2;
           regaddr := regaddr d; reg_size := reg_size d;
           ioaddr := u32 (resource_start pdev 2);
           ioaddr_size := u32 (resource_len pdev 2);
           irq := irq d; nvectors := nvectors d; enabled := enabled d |} in
      if base_addr d =? 0
      then (- EBUSY, set_dev d s,
            log ++ [pci_release_regions; pci_disable_device])
      else
        let log := log ++ [pci_iomap 2 (base_addr d)] in
        let d :=
          {| regs := iomap_result pdev 0; base_addr := base_addr d;
             regaddr := u32 (resource_start pdev 0);
             reg_size := u32 (resource_len pdev 0);
             ioaddr := ioaddr d; ioaddr_size := ioaddr_size d;
             irq := irq d; nvectors := nvectors d; enabled := enabled d |} in
        if regs d =? 0
        then (- EBUSY, set_dev d s,
              log ++ [pci_iounmap (base_addr d); pci_release_regions;
                      pci_disable_device])
        else
          let log := log ++ [pci_iomap 0 (regs d)] in
          let s := set_event_num 0
                     (set_wait_queue [] (set_sema_var (sema_init 0) (set_dev d s))) in
          let '(err, d, mlog) := request_msix_vectors pdev d VECTORS_COUNT in
          let s := set_dev d s in
          let log := log ++ mlog in
          let log :=
            if negb (err =? 0)
            then if negb (request_irq_result pdev (pdev_irq pdev) =? 0)
                 then log
                 else log ++ [request_irq (pdev_irq pdev)]
            else log in
          (0, writel 0xffffffff (regs d + IntrMask) s, log).

(** The loop of [kvm_ivshmem_remove_device] over the vectors. *)
Fixpoint remove_irqs (pdev : pci_dev) (todo : nat) (i : Z)
  : list kernel_call :=
  match todo with
  | O => []
  | S todo' =>
      let n := irq_vector pdev i in
      disable_irq n :: free_irq n :: remove_irqs pdev todo' (i + 1)
  end.

(** [kvm_ivshmem_remove_device]: no variable of the driver is assigned. *)
Definition kvm_ivshmem_remove_device (pdev : pci_dev) (s : kstate)
  : kstate * list kernel_call :=
  (s,
   remove_irqs pdev (Z.to_nat VECTORS_COUNT) 0
   ++ [pci_free_irq_vectors;
       pci_iounmap (regs (kvm_ivshmem_dev s));
       pci_iounmap (base_addr (kvm_ivshmem_dev s));
       pci_release_regions; pci_disable_device]).

(** [kvm_ivshmem_init_module], given the results of [misc_register] and
    [pci_register_driver], and [kvm_ivshmem_cleanup_module]. *)
Definition kvm_ivshmem_init_module
    (misc_register_result pci_register_driver_result : Z) (s : kstate)
  : Z * kstate * list kernel_call :=
  let err := misc_register_result in
  if err <? 0 then (err, s, [])
  else
    let d := kvm_ivshmem_dev s in
    let s :=
      set_dev {| regs := regs d; base_addr := base_addr d;
                 regaddr := regaddr d; reg_size := reg_size d;
                 ioaddr := ioaddr d; ioaddr_size := ioaddr_size d;
                 irq := irq d; nvectors := nvectors d; enabled := false |} s in
    let err := pci_register_driver_result in
    if err <? 0 then (err, s, [misc_register; misc_deregister])
    else (0, s, [misc_register; pci_register_driver]).

Definition kvm_ivshmem_cleanup_module : list kernel_call :=
  [pci_unregister_driver; misc_deregister].

(** *** What is held after a sequence of calls *)

(** [releases c a]: the call [c] gives back what the call [a] acquired. *)
Definition releases (c a : kernel_call) : bool :=
  match c, a with
  | pci_disable_device, pci_enable_device => true
  | pci_release_regions, pci_request_regions => true
  | pci_iounmap x, pci_iomap _ y => x =? y
  | pci_free_irq_vectors, pci_alloc_irq_vectors => true
  | free_irq n, request_irq m => n =? m
  | misc_deregister, misc_register => true
  | pci_unregister_driver, pci_register_driver => true
  | _, _ => false
  end.

Definition acquires (c : kernel_call) : bool :=
  match c with
  | pci_enable_device | pci_request_regions | pci_iomap _ _
  | kmalloc_msix_entries | kmalloc_msix_names | pci_alloc_irq_vectors
  | request_irq _ | misc_register | pci_register_driver => true
  | _ => false
  end.

Definition gives_back (c : kernel_call) : bool :=
  match c with
  | pci_disable_device | pci_release_regions | pci_iounmap _
  | pci_free_irq_vectors | free_irq _ | misc_deregister
  | pci_unregister_driver => true
  | _ => false
  end.

(** Takes the first element that [p] accepts out of a list, if there is
    one. *)
Fixpoint take_out {A : Type} (p : A → bool) (l : list A) : option (list A) :=
  match l with
  | [] => None
  | x :: l' =>
      if p x then Some l'
      else match take_out p l' with
           | Some r => Some (x :: r)
           | None => None
           end
  end.

(** The books after one more call: what is held, and the releases that
    found nothing to release. *)
Definition account (books : list kernel_call * list kernel_call)
    (c : kernel_call) : list kernel_call * list kernel_call :=
  let '(held, stray) := books in
  if acquires c then (held ++ [c], stray)
  else if gives_back c then
    match take_out (releases c) held with
    | Some held' => (held', stray)
    | None => (held, stray ++ [c])
    end
  else books.

Definition books_of (log : list kernel_call)
  : list kernel_call * list kernel_call :=
  fold_left account log ([], []).

(** * The rest of memtest.c *)

(** ** The ioctl numbers memtest.c uses *)

Definition IOCTL_WAIT_IRQ : Z := 3.
Definition IOCTL_READ_IV_POSN : Z := 5.
Definition IOCTL_DOORBELL : Z := 8.

(** ** [main], [proc_server] and [proc_client] of memtest.c *)

(** How [main] ends: at one of its error exits, or after running one of
    the two roles. *)
Inductive main_exit :=
| ExitOpenFailed
| ExitNoSharedMemory
| ExitMmapNull
| ExitIoctlFailed
| ExitRan (server : bool).

(** [is_server()] returns 0 in its first statement. *)
Definition is_server : Z := 0.

(** [main], on the device file of this driver: [pmem_fd] is what [open]
    returned, [mmap_result] what [mmap] returns, [vm_id_addr] the address
    of [vm_id]; [t] is the task.  The role that runs is reported, not
    run. *)
Definition main (t : tid) (argc pmem_fd mmap_result vm_id_addr : Z)
    (filp : file) (s : kstate) : main_exit :=
  if pmem_fd <? 0 then ExitOpenFailed
  else
    let '(size, filp') := get_pmem_size filp s in
    let pmem_size := size in
    if pmem_size <=? 0 then ExitNoSharedMemory
    else if mmap_result =? 0 then ExitMmapNull
    else
      match kvm_ivshmem_ioctl t IOCTL_READ_IV_POSN vm_id_addr s with
      | Returned res _ =>
          if res <? 0 then ExitIoctlFailed
          else ExitRan (negb (is_server =? 0) || (argc >? 1))
      | Sleeping _ _ => ExitIoctlFailed
      end.

(** [vm_id = vm_id << 16;] in [main] ([vm_id] is an [unsigned int]). *)
Definition main_vm_id (vm_id : Z) : Z := u32 (Z.shiftl vm_id 16).

Definition set_iv_server (v : Z) (c : vm_control_t) : vm_control_t :=
  {| iv_server := v; iv_client := iv_client c; ready := ready c;
     start := start c; data := data c; done := done c;
     shutdown := shutdown c |}.

Definition set_iv_client (v : Z) (c : vm_control_t) : vm_control_t :=
  {| iv_server := iv_server c; iv_client := v; ready := ready c;
     start := start c; data := data c; done := done c;
     shutdown := shutdown c |}.

(** The statements of [proc_server] before its loop:
    [vm_control->iv_server = vm_id << 16; vm_control->shutdown = 0;]. *)
Definition proc_server_init (vm_id : Z) (c : vm_control_t) : vm_control_t :=
  set_shutdown 0 (set_iv_server (s32 (u32 (Z.shiftl vm_id 16))) c).

(** The statement of [proc_client] before its first wait:
    [vm_control->iv_client = vm_id << 16;]. *)
Definition proc_client_init (vm_id : Z) (c : vm_control_t) : vm_control_t :=
  set_iv_client (s32 (u32 (Z.shiftl vm_id 16))) c.

(** * Sample states and the vocabulary of the statements *)

(** The message as the specification words it: [(peer_id << 16) | opcode]. *)
Definition spec_doorbell_msg (peer_id opcode : Z) : Z :=
  Z.lor (Z.shiftl peer_id 16) opcode.

Definition is_ring_op (c : ivshmem_ioctl) : Prop :=
  c = empty ∨ c = sema_irq ∨ c = wait_event_irq.

(** A device attached by [kvm_ivshmem_probe_device]: registers and a
    4096-byte window mapped, semaphore at 0, no event, nobody waiting. *)
Definition attached : kstate :=
  {| kvm_ivshmem_dev :=
       {| regs := 0x1000; base_addr := 0x100000; regaddr := 0xfebf0000;
          reg_size := 256; ioaddr := 0xfe000000; ioaddr_size := 4096;
          irq := 11; nvectors := 1; enabled := false |};
     event_num := 0;
     sema := sema_init 0;
     wait_queue := [];
     mmio := ∅;
     mmio_writes := [];
     shmem := ∅;
     umem := ∅ |}.

(** A device whose window could not be mapped. *)
Definition unmapped : kstate :=
  {| kvm_ivshmem_dev :=
       {| regs := 0; base_addr := 0; regaddr := 0; reg_size := 0;
          ioaddr := 0xfe000000; ioaddr_size := 4096;
          irq := 0; nvectors := 0; enabled := false |};
     event_num := 0;
     sema := sema_init 0;
     wait_queue := [];
     mmio := ∅;
     mmio_writes := [];
     shmem := ∅;
     umem := ∅ |}.

(** The [n] user addresses from [a] on are accessible. *)
Definition user_ok (um : gmap Z Z) (a : Z) (n : nat) : Prop :=
  ∀ i : Z, 0 ≤ i < Z.of_nat n → is_Some (um !! (a + i)).

(** The attached device with sixteen accessible bytes of user memory at
    0x7000 (all 0x11), and bytes 0xAA in the kernel memory that follows the
    4096-byte window. *)
Definition attached_with_buffer : kstate :=
  set_umem (store_bytes ∅ 0x7000 (replicate 16 0x11))
    (set_shmem (store_bytes ∅ (0x100000 + 4096) (replicate 32 0xAA)) attached).

(** The semaphore count and the number of tasks asleep in [down]. *)
Definition tokens (sys : system) : Z := count (sema (kern sys)).
Definition sleepers (sys : system) : Z :=
  Z.of_nat (length (wait_list (sema (kern sys)))).

(** Slot [n] holds the pattern of seed [d]. *)
Definition slot_ok (d : Z) (m : mstate) (n : Z) : Prop :=
  slot m n = Z.lxor n d.

(** [m'] differs from [m] in the counters only. *)
Definition counters_only (m m' : mstate) : Prop :=
  vm_control m' = vm_control m ∧ test_pmem m' = test_pmem m
  ∧ test_mem_size m' = test_mem_size m ∧ errors m' = errors m.

(** [m'] is [m] after a mismatch with seed [d] at [n] was reported. *)
Definition reported (d n : Z) (m m' : mstate) : Prop :=
  vm_control m' = set_shutdown 1 (vm_control m)
  ∧ test_pmem m' = test_pmem m
  ∧ test_mem_size m' = test_mem_size m
  ∧ errors m'
    = {| err_index := n; err_found := slot m n; err_expected := Z.lxor n d |}
        :: errors m.

(** Four slots written by the server for seed 42, and the same with slot 2
    overwritten. *)
Definition four_slots : mstate :=
  {| vm_control :=
       {| iv_server := 0; iv_client := 0; ready := 0; start := 0; data := 42;
          done := 0; shutdown := 0 |};
     test_pmem :=
       list_to_map [(0, Z.lxor 0 42); (1, Z.lxor 1 42); (2, Z.lxor 2 42);
                    (3, Z.lxor 3 42)];
     test_mem_size := 4;
     read_counter := 0;
     write_counter := 0;
     errors := [] |}.

Definition four_slots_corrupted : mstate :=
  {| vm_control := vm_control four_slots;
     test_pmem := <[2 := 0xdead]> (test_pmem four_slots);
     test_mem_size := 4;
     read_counter := 0;
     write_counter := 0;
     errors := [] |}.

(** What a call of [memtest] shows: the value returned, the shutdown flag,
    the indices of the error lines and the read counter. *)
Definition memtest_outcome (r : option (Z * mstate))
  : option (Z * Z * list Z * Z) :=
  match r with
  | Some (rv, m) =>
      Some (rv, shutdown (vm_control m), map err_index (errors m),
            read_counter m)
  | None => None
  end.

(** The state a call into the ioctl leaves, whether it returned or sleeps. *)
Definition result_state (r : ioctl_result) : kstate :=
  match r with
  | Returned _ s => s
  | Sleeping _ s => s
  end.

(** The [uint32_t] that four bytes hold, little endian. *)
Definition le32_value (bs : list Z) : Z :=
  match bs with
  | [b0; b1; b2; b3] => b0 + 2 ^ 8 * b1 + 2 ^ 16 * b2 + 2 ^ 24 * b3
  | _ => 0
  end.

(** The record of a [down_sema] or [wait_event] call of task [t] that
    returned 0 without a signal. *)
Definition finished (c : ivshmem_ioctl) (t : tid) : completion :=
  {| c_task := t; c_cmd := Some c; c_signal := false; c_ret := 0 |}.

(** A call of [set_sema]. *)
Definition is_set_sema (e : event) : bool :=
  match e with
  | EvIoctl _ cmd _ => cmd =? ioctl_code set_sema
  | _ => false
  end.

(** The attached device as peer 5, with the sixteen accessible bytes of
    user memory at 0x7000. *)
Definition attached_peer_5 : kstate :=
  {| kvm_ivshmem_dev := kvm_ivshmem_dev attached;
     event_num := 0;
     sema := sema_init 0;
     wait_queue := [];
     mmio := {[ regs (kvm_ivshmem_dev attached) + IVPosition := 5 ]};
     mmio_writes := [];
     shmem := ∅;
     umem := umem attached_with_buffer |}.

(** A device whose register BAR cannot be mapped. *)
Definition pdev_without_registers : pci_dev :=
  {| enable_device_result := 0;
     request_regions_result := 0;
     resource_start := λ bar, if bar =? 2 then 0xfe000000 else 0xfebf0000;
     resource_len := λ bar, if bar =? 2 then 4096 else 256;
     iomap_result := λ bar, if bar =? 2 then 0x100000 else 0;
     alloc_irq_vectors_result := 1;
     irq_vector := λ _, 24;
     request_irq_result := λ _, 0;
     pdev_irq := 11 |}.

(** A device that attaches with one MSI-X vector. *)
Definition pdev_msix : pci_dev :=
  {| enable_device_result := 0;
     request_regions_result := 0;
     resource_start := λ bar, if bar =? 2 then 0xfe000000 else 0xfebf0000;
     resource_len := λ bar, if bar =? 2 then 4096 else 256;
     iomap_result := λ bar, if bar =? 2 then 0x100000 else 0x1000;
     alloc_irq_vectors_result := 1;
     irq_vector := λ _, 24;
     request_irq_result := λ _, 0;
     pdev_irq := 11 |}.

(** [m'] is [m] after writes of the pattern of seed [d] to the slots from
    [lo] up to [test_mem_size]. *)
Definition pattern_written (d lo : Z) (m m' : mstate) : Prop :=
  (∀ k, lo ≤ k < test_mem_size m →
     test_pmem m' !! k = Some (Z.lxor (u32 k) d))
  ∧ (∀ k, k < lo ∨ test_mem_size m ≤ k → test_pmem m' !! k = test_pmem m !! k)
  ∧ vm_control m' = vm_control m ∧ test_mem_size m' = test_mem_size m
  ∧ errors m' = errors m ∧ read_counter m' = read_counter m.

(** * Properties *)

(** ** Machine arithmetic *)

Lemma land_255 (a : Z) : Z.land a 0xff = a mod 256.
Proof. change 0xff with (Z.ones 8). rewrite Z.land_ones by lia. reflexivity. Qed.

Lemma u32_small (x : Z) : 0 ≤ x < 2 ^ 32 → u32 x = x.
Proof. intros H. unfold u32. apply Z.mod_small. exact H. Qed.

Lemma u64_small (x : Z) : 0 ≤ x < 2 ^ 64 → u64 x = x.
Proof. intros H. unfold u64. apply Z.mod_small. exact H. Qed.

Lemma s64_small (x : Z) : 0 ≤ x < 2 ^ 63 → s64 x = x.
Proof.
  intros H. unfold s64. rewrite Z.mod_small by lia.
  destruct (Z.ltb_spec x (2 ^ 63)); lia.
Qed.

(** The sum the driver forms has no carry: it is the bitwise or. *)
Lemma shl8_add_is_lor (x c : Z) :
  0 ≤ x → 0 ≤ c < 256 → Z.shiftl x 8 + c = Z.lor (Z.shiftl x 8) c.
Proof.
  intros Hx Hc.
  assert (Hland : Z.land (Z.shiftl x 8) c = 0).
  { apply Z.bits_inj'; intros n Hn. rewrite Z.land_spec, Z.bits_0.
    destruct (Z.lt_ge_cases n 8) as [Hlt | Hge].
    - rewrite Z.shiftl_spec_low by lia. reflexivity.
    - assert (Z.testbit c n = false) as ->; [| apply andb_false_r].
      destruct (Z.eq_dec c 0) as [-> | Hc0]; [apply Z.bits_0 |].
      apply Z.bits_above_log2; [lia |].
      assert (Z.log2 c < 8) by (apply Z.log2_lt_pow2; lia). lia. }
  rewrite <- Z.lxor_lor by exact Hland.
  apply Z.add_nocarry_lxor. exact Hland.
Qed.

Lemma doorbell_msg_value (cmd arg : Z) :
  0 ≤ cmd < 256 →
  doorbell_msg cmd arg = (arg mod 256) * 256 + cmd.
Proof.
  intros Hc. unfold doorbell_msg. rewrite !land_255.
  rewrite Z.shiftl_mul_pow2 by lia. rewrite (Z.mod_small cmd) by lia.
  pose proof (Z.mod_pos_bound arg 256 ltac:(lia)).
  apply u32_small. lia.
Qed.

(** ** C1: the doorbell message *)

(** C1, as amended: each of the three ring commands returns 0 after exactly
    one [writel] to the Doorbell register, of the value
    [((arg & 0xff) << 8) | cmd]: the operation code in bits 0-7, the low
    eight bits of the target peer in bits 8-15, and nothing above. *)
Theorem ring_writes_doorbell_msg (t : tid) (c : ivshmem_ioctl) (arg : Z) (s : kstate) :
  is_ring_op c →
  ∃ s' msg,
    kvm_ivshmem_ioctl t (ioctl_code c) arg s = Returned 0 s'
    ∧ mmio_writes s' = (regs (kvm_ivshmem_dev s) + Doorbell, msg) :: mmio_writes s
    ∧ readl (regs (kvm_ivshmem_dev s) + Doorbell) s' = msg
    ∧ msg = Z.lor (Z.shiftl (Z.land arg 0xff) 8) (ioctl_code c)
    ∧ Z.land msg 0xff = ioctl_code c
    ∧ Z.land (Z.shiftr msg 8) 0xff = Z.land arg 0xff
    ∧ Z.shiftr msg 16 = 0
    ∧ sema s' = sema s ∧ event_num s' = event_num s ∧ wait_queue s' = wait_queue s.
Proof.
  intros Hc.
  assert (Hcode : 0 ≤ ioctl_code c < 256) by (destruct c; simpl; lia).
  pose proof (Z.mod_pos_bound arg 256 ltac:(lia)) as Hx.
  pose proof (doorbell_msg_value (ioctl_code c) arg Hcode) as Hv.
  exists (writel (doorbell_msg (ioctl_code c) arg)
            (regs (kvm_ivshmem_dev s) + Doorbell) s),
         (doorbell_msg (ioctl_code c) arg).
  assert (Hu : u32 (doorbell_msg (ioctl_code c) arg) = doorbell_msg (ioctl_code c) arg)
    by (apply u32_small; lia).
  split; [destruct Hc as [-> | [-> | ->]]; reflexivity |].
  split; [simpl; rewrite Hu; reflexivity |].
  split; [unfold readl; simpl; rewrite lookup_insert_eq; simpl; exact Hu |].
  split.
  { rewrite <- shl8_add_is_lor; [| rewrite land_255; lia | lia].
    unfold doorbell_msg. rewrite (land_255 (ioctl_code c)).
    rewrite (Z.mod_small (ioctl_code c)) by lia.
    apply u32_small. rewrite land_255, Z.shiftl_mul_pow2 by lia. lia. }
  split.
  { rewrite land_255, Hv. rewrite Z.add_comm, Z.mod_add by lia.
    apply Z.mod_small; lia. }
  split.
  { rewrite !land_255, Z.shiftr_div_pow2, Hv by lia.
    change (2 ^ 8) with 256. rewrite Z.div_add_l by lia.
    rewrite (Z.div_small (ioctl_code c)) by lia. rewrite Z.add_0_r.
    apply Z.mod_mod; lia. }
  split.
  { rewrite Z.shiftr_div_pow2, Hv by lia. apply Z.div_small. lia. }
  repeat split.
Qed.

Lemma ring_writes_doorbell_msg_witness :
  is_ring_op empty
  ∧ ∃ s' msg,
      kvm_ivshmem_ioctl 1%nat (ioctl_code empty) 0x0203 attached = Returned 0 s'
      ∧ mmio_writes s' = [(0x100c, msg)] ∧ msg = 0x0302.
Proof.
  split; [left; reflexivity |].
  destruct (ring_writes_doorbell_msg 1%nat empty 0x0203 attached)
    as (s' & msg & H1 & H2 & _ & H4 & _); [left; reflexivity |].
  exists s', msg. split; [exact H1 |]. split; [exact H2 | exact H4].
Defined.

(** C1, as stated, fails: ringing peer 1 with [empty] writes 0x102 to the
    Doorbell register, and [(1 << 16) | 2] is 0x10002. *)
Lemma ring_msg_is_not_peer_shl_16 :
  ¬ (∀ (t : tid) (c : ivshmem_ioctl) (target_peer : Z) (s : kstate),
       is_ring_op c → 0 ≤ target_peer < 2 ^ 16 →
       ∃ s', kvm_ivshmem_ioctl t (ioctl_code c) target_peer s = Returned 0 s'
             ∧ head (mmio_writes s')
               = Some (regs (kvm_ivshmem_dev s) + Doorbell,
                       spec_doorbell_msg target_peer (ioctl_code c))).
Proof.
  intros H.
  destruct (H 1%nat empty 1 attached) as (s' & Hret & Hw);
    [left; reflexivity | lia |].
  vm_compute in Hret. injection Hret as <-. vm_compute in Hw. discriminate Hw.
Qed.

(** ** C6 and C2: the interrupt handler *)

(** C6: when the status register reads 0 or 0xFFFFFFFF the handler returns
    [IRQ_NONE], wakes nobody and leaves the whole driver state, so the
    semaphore count and the event flag, as it was. *)
Theorem spurious_irq_not_handled
    (irqn : Z) (dev : kvm_ivshmem_device) (s : kstate) :
  readl (regs dev + IntrStatus) s = 0
  ∨ readl (regs dev + IntrStatus) s = 0xFFFFFFFF →
  ∃ s', kvm_ivshmem_interrupt irqn (Some dev) s = (IRQ_NONE, s', None, [])
        ∧ s' = s
        ∧ count (sema s') = count (sema s)
        ∧ event_num s' = event_num s.
Proof.
  intros H. exists s. unfold kvm_ivshmem_interrupt.
  destruct H as [-> | ->]; repeat split.
Qed.

Lemma spurious_irq_not_handled_witness :
  let s := latch_status 0xFFFFFFFF attached in
  readl (regs (kvm_ivshmem_dev s) + IntrStatus) s = 0xFFFFFFFF
  ∧ kvm_ivshmem_interrupt 11 (Some (kvm_ivshmem_dev s)) s
    = (IRQ_NONE, s, None, []).
Proof.
  split; [reflexivity |].
  destruct (spurious_irq_not_handled 11
              (kvm_ivshmem_dev (latch_status 0xFFFFFFFF attached))
              (latch_status 0xFFFFFFFF attached))
    as (s' & H & -> & _); [right; reflexivity | exact H].
Defined.

(** C2, as amended: for a status that is neither 0 nor 0xFFFFFFFF the
    handler returns [IRQ_HANDLED], and what it does is chosen by the whole
    32-bit status value: status 7 ([sema_irq]) does [up(&sema)], which
    increments the count when no [down] caller sleeps and otherwise
    releases the oldest sleeper; status 4 ([wait_event_irq]) sets
    [event_num] to 1 and wakes every task on [wait_queue]; any other status
    changes nothing. *)
Theorem irq_dispatch_by_status
    (irqn : Z) (dev : kvm_ivshmem_device) (s : kstate) :
  let status := readl (regs dev + IntrStatus) s in
  status ≠ 0 → status ≠ 0xFFFFFFFF →
  ∃ s' released w,
    kvm_ivshmem_interrupt irqn (Some dev) s = (IRQ_HANDLED, s', released, w)
    ∧ (status = ioctl_code sema_irq →
         s' = set_sema_var (up (sema s)).1 s
         ∧ released = (up (sema s)).2 ∧ w = []
         ∧ (wait_list (sema s) = [] →
              count (sema s') = u32 (count (sema s) + 1) ∧ released = None)
         ∧ (∀ t rest, wait_list (sema s) = t :: rest →
              released = Some t ∧ wait_list (sema s') = rest
              ∧ count (sema s') = count (sema s)))
    ∧ (status = ioctl_code wait_event_irq →
         s' = set_wait_queue [] (set_event_num 1 s)
         ∧ event_num s' = 1 ∧ w = wait_queue s ∧ released = None)
    ∧ (status ≠ ioctl_code sema_irq → status ≠ ioctl_code wait_event_irq →
         s' = s ∧ released = None ∧ w = []).
Proof.
  intros status H0 H1. unfold kvm_ivshmem_interrupt. fold status.
  destruct (Z.eqb_spec status 0) as [? | _]; [contradiction |].
  destruct (Z.eqb_spec status 0xFFFFFFFF) as [? | _]; [contradiction |].
  simpl orb. cbv iota.
  destruct (Z.eqb_spec status (ioctl_code sema_irq)) as [E7 | N7].
  - destruct (up (sema s)) as [sem' released] eqn:Hup.
    exists (set_sema_var sem' s), released, []. split; [reflexivity |].
    split; [| split].
    + intros _. unfold up in Hup.
      destruct (wait_list (sema s)) as [| t0 rest0] eqn:Hwl;
        injection Hup as <- <-; simpl.
      * split; [reflexivity |]. split; [reflexivity |].
        split; [reflexivity |].
        split; [intros _; split; reflexivity | intros t rest Hd; discriminate Hd].
      * split; [reflexivity |]. split; [reflexivity |].
        split; [reflexivity |].
        split; [intros Hd; discriminate Hd |].
        intros t rest Hd. injection Hd as <- <-. repeat split.
    + intros E4. rewrite E7 in E4. discriminate E4.
    + intros N. contradiction.
  - destruct (Z.eqb_spec status (ioctl_code wait_event_irq)) as [E4 | N4].
    + exists (set_wait_queue [] (set_event_num 1 s)), None, (wait_queue s).
      split; [reflexivity |]. split; [intros E; contradiction |].
      split; [intros _; repeat split | intros _ N; contradiction].
    + exists s, None, []. split; [reflexivity |].
      split; [intros E; contradiction |].
      split; [intros E; contradiction | intros _ _; repeat split].
Qed.

Lemma irq_dispatch_by_status_witness :
  let s := latch_status 7 attached in
  readl (regs (kvm_ivshmem_dev s) + IntrStatus) s ≠ 0
  ∧ readl (regs (kvm_ivshmem_dev s) + IntrStatus) s ≠ 0xFFFFFFFF
  ∧ ∃ s', kvm_ivshmem_interrupt 11 (Some (kvm_ivshmem_dev s)) s
          = (IRQ_HANDLED, s', None, [])
          ∧ count (sema s') = 1.
Proof.
  set (s0 := latch_status 7 attached). cbv zeta.
  assert (N0 : readl (regs (kvm_ivshmem_dev s0) + IntrStatus) s0 ≠ 0)
    by (vm_compute; discriminate).
  assert (N1 : readl (regs (kvm_ivshmem_dev s0) + IntrStatus) s0 ≠ 0xFFFFFFFF)
    by (vm_compute; discriminate).
  split; [exact N0 |]. split; [exact N1 |].
  destruct (irq_dispatch_by_status 11 (kvm_ivshmem_dev s0) s0 N0 N1)
    as (s' & released & w & H & H7 & _).
  destruct H7 as (_ & _ & -> & Hc & _); [reflexivity |].
  destruct (Hc eq_refl) as [Hcount ->].
  exists s'. split; [exact H | exact Hcount].
Defined.

(** C2, as stated, fails: the status value 0x107 carries the operation code
    7 ([sema_irq]) in its lower eight bits and is neither 0 nor 0xFFFFFFFF,
    yet the handler does not increment the semaphore count. *)
Lemma irq_dispatch_ignores_low_byte :
  ¬ (∀ (irqn : Z) (dev : kvm_ivshmem_device) (s : kstate),
       let status := readl (regs dev + IntrStatus) s in
       status ≠ 0 → status ≠ 0xFFFFFFFF →
       Z.land status 0xff = ioctl_code sema_irq →
       wait_list (sema s) = [] →
       count (sema (kvm_ivshmem_interrupt irqn (Some dev) s).1.1.2)
       = u32 (count (sema s) + 1)).
Proof.
  intros H.
  specialize (H 11 (kvm_ivshmem_dev attached) (latch_status 0x107 attached)).
  vm_compute in H.
  specialize (H ltac:(discriminate) ltac:(discriminate) eq_refl eq_refl).
  discriminate H.
Qed.

(** ** C10: seeking *)

(** C10: an origin other than [SEEK_SET] and [SEEK_CUR] selects no case of
    the switch: the result is -1 and [f_pos] keeps its value.  [SEEK_END]
    is such an origin. *)
Theorem lseek_other_origin
    (filp : file) (offset origin : Z) (s : kstate) :
  origin ≠ SEEK_SET → origin ≠ SEEK_CUR →
  kvm_ivshmem_lseek filp offset origin s = (-1, filp)
  ∧ kvm_ivshmem_lseek filp offset SEEK_END s = (-1, filp).
Proof.
  intros Hset Hcur. unfold kvm_ivshmem_lseek.
  destruct (Z.eqb_spec origin SEEK_CUR) as [? | _]; [contradiction |].
  destruct (Z.eqb_spec origin SEEK_SET) as [? | _]; [contradiction |].
  split; reflexivity.
Qed.

Lemma lseek_other_origin_witness :
  SEEK_END ≠ SEEK_SET ∧ SEEK_END ≠ SEEK_CUR
  ∧ kvm_ivshmem_lseek {| f_pos := 100 |} 0 SEEK_END attached
    = (-1, {| f_pos := 100 |}).
Proof.
  assert (H0 : SEEK_END ≠ SEEK_SET) by discriminate.
  assert (H1 : SEEK_END ≠ SEEK_CUR) by discriminate.
  split; [exact H0 |]. split; [exact H1 |].
  exact (proj1 (lseek_other_origin {| f_pos := 100 |} 0 SEEK_END attached H0 H1)).
Defined.

(** [SEEK_SET], for comparison: the result is the requested position, and
    [f_pos] is that position clamped to the window size from above only. *)
Lemma lseek_set_clamps (filp : file) (offset : Z) (s : kstate) :
  kvm_ivshmem_lseek filp offset SEEK_SET s
  = (offset, {| f_pos := Z.min offset (ioaddr_size (kvm_ivshmem_dev s)) |}).
Proof.
  unfold kvm_ivshmem_lseek, lseek_set. simpl.
  destruct (Z.gtb_spec offset (ioaddr_size (kvm_ivshmem_dev s)));
    do 2 f_equal; lia.
Qed.

(** So the size query of memtest.c, [lseek(fd, 0, SEEK_END)], fails on
    this driver: [get_pmem_size] returns -1 whatever the window size. *)
Lemma get_pmem_size_fails (filp : file) (s : kstate) :
  get_pmem_size filp s = (-1, filp).
Proof. reflexivity. Qed.

(** ** C5: reading and writing without a mapped window *)

(** C5, as amended: with [base_addr] NULL both [read] and [write] return 0,
    the value of a successful transfer of no bytes; nothing is copied, and
    the position and the driver state are unchanged. *)
Theorem unmapped_read_write_return_0
    (buffer len poffset : Z) (s : kstate) :
  base_addr (kvm_ivshmem_dev s) = 0 →
  kvm_ivshmem_read buffer len poffset s = (0, poffset, s)
  ∧ kvm_ivshmem_write buffer len poffset s = (0, poffset, s)
  ∧ kvm_ivshmem_read buffer len poffset s = kvm_ivshmem_read buffer 0 poffset s
  ∧ kvm_ivshmem_write buffer len poffset s = kvm_ivshmem_write buffer 0 poffset s.
Proof.
  intros H. unfold kvm_ivshmem_read, kvm_ivshmem_write. rewrite H.
  repeat split.
Qed.

Lemma unmapped_read_write_return_0_witness :
  base_addr (kvm_ivshmem_dev unmapped) = 0
  ∧ kvm_ivshmem_read 0x7000 16 0 unmapped = (0, 0, unmapped)
  ∧ kvm_ivshmem_write 0x7000 16 0 unmapped = (0, 0, unmapped).
Proof.
  split; [reflexivity |].
  destruct (unmapped_read_write_return_0 0x7000 16 0 unmapped eq_refl)
    as (Hr & Hw & _).
  split; [exact Hr | exact Hw].
Defined.

(** C5, as stated, fails: a read on the unmapped device returns 0, which is
    not an error value (errors are negative) and is what a read of no bytes
    on a mapped window returns. *)
Lemma unmapped_read_is_not_an_error :
  ¬ (∀ (buffer len poffset : Z) (s : kstate),
       base_addr (kvm_ivshmem_dev s) = 0 →
       (kvm_ivshmem_read buffer len poffset s).1.1 < 0
       ∧ (kvm_ivshmem_write buffer len poffset s).1.1 < 0).
Proof.
  intros H. destruct (H 0x7000 16 0 unmapped eq_refl) as [Hr _].
  vm_compute in Hr. discriminate Hr.
Qed.

(** ** C4: the bounds of [read] and [write] *)

Lemma user_ok_head (um : gmap Z Z) (a : Z) (n : nat) :
  user_ok um a (S n) → is_Some (um !! a).
Proof.
  intros H. specialize (H 0 ltac:(lia)). rewrite Z.add_0_r in H. exact H.
Qed.

Lemma user_ok_tail (um : gmap Z Z) (a b : Z) (n : nat) :
  user_ok um a (S n) → user_ok (<[a := b]> um) (a + 1) n.
Proof.
  intros H i Hi. rewrite lookup_insert_ne by lia.
  replace (a + 1 + i) with (a + (i + 1)) by lia. apply H. lia.
Qed.

Lemma store_bytes_below (bs : list Z) (m : gmap Z Z) (a a' : Z) :
  a' < a → store_bytes m a bs !! a' = m !! a'.
Proof.
  revert m a. induction bs as [| b bs IH]; intros m a Hlt; simpl.
  - reflexivity.
  - rewrite IH by lia. apply lookup_insert_ne. lia.
Qed.

Lemma load_store_bytes (bs : list Z) (m : gmap Z Z) (a : Z) :
  load_bytes (store_bytes m a bs) a (length bs) = bs.
Proof.
  revert m a. induction bs as [| b bs IH]; intros m a; simpl.
  - reflexivity.
  - rewrite store_bytes_below by lia. rewrite lookup_insert_eq. simpl.
    f_equal. apply IH.
Qed.

Lemma length_load_bytes (m : gmap Z Z) (a : Z) (n : nat) :
  length (load_bytes m a n) = n.
Proof. revert a. induction n as [| n IH]; intros a; simpl; [| rewrite IH]; reflexivity. Qed.

Lemma copy_to_user_ok (src : list Z) (to : Z) (um : gmap Z Z) :
  user_ok um to (length src) →
  copy_to_user to src um = (0, store_bytes um to src).
Proof.
  revert to um. induction src as [| b src IH]; intros to um Hok; simpl.
  - reflexivity.
  - destruct (user_ok_head _ _ _ Hok) as [v ->].
    apply IH. apply user_ok_tail. exact Hok.
Qed.

Lemma copy_from_user_ok (n : nat) (from : Z) (um : gmap Z Z) :
  user_ok um from n →
  ∃ bs, copy_from_user from n um = (0, bs) ∧ length bs = n
        ∧ ∀ i : nat, (i < n)%nat → bs !! i = um !! (from + Z.of_nat i).
Proof.
  revert from. induction n as [| n IH]; intros from Hok; simpl.
  - exists []. repeat split. intros i Hi. lia.
  - destruct (user_ok_head _ _ _ Hok) as [v Hv]. rewrite Hv.
    destruct (IH (from + 1)) as (bs & -> & Hlen & Hbs).
    { intros i Hi. replace (from + 1 + i) with (from + (i + 1)) by lia.
      apply Hok. lia. }
    exists (v :: bs). split; [reflexivity |]. split; [simpl; lia |].
    intros [| i] Hi; simpl.
    + rewrite Z.add_0_r. symmetry. exact Hv.
    + rewrite Hbs by lia. f_equal. lia.
Qed.

(** Inside the window the claim of C4 holds.  For a mapped window of size
    [S], a position [0 <= poffset <= S] and an accessible user buffer,
    [read] transfers [min len (S - poffset)] bytes, the bytes of the
    window from [poffset] on, and advances the position by as much; at
    [poffset = S] that is no byte at all. *)
Lemma read_within_window (buffer len poffset : Z) (s : kstate) :
  let dev := kvm_ivshmem_dev s in
  let n := Z.min len (ioaddr_size dev - poffset) in
  base_addr dev ≠ 0 →
  0 ≤ ioaddr_size dev < 2 ^ 32 →
  0 ≤ poffset ≤ ioaddr_size dev →
  0 ≤ len < 2 ^ 63 →
  user_ok (umem s) buffer (Z.to_nat n) →
  ∃ s', kvm_ivshmem_read buffer len poffset s = (n, poffset + n, s')
        ∧ load_bytes (umem s') buffer (Z.to_nat n)
          = load_bytes (shmem s) (u64 (base_addr dev + poffset)) (Z.to_nat n)
        ∧ shmem s' = shmem s.
Proof.
  intros dev n Hbase HS Hoff Hlen Hok. unfold kvm_ivshmem_read. fold dev.
  destruct (Z.eqb_spec (base_addr dev) 0) as [? | _]; [contradiction |].
  rewrite (u64_small poffset) by lia.
  rewrite (u64_small (ioaddr_size dev - poffset)) by lia.
  assert (Hn : (if len >? ioaddr_size dev - poffset
                then ioaddr_size dev - poffset else len) = n).
  { unfold n. destruct (Z.gtb_spec len (ioaddr_size dev - poffset)); lia. }
  rewrite Hn.
  destruct (Z.eqb_spec n 0) as [E0 | N0].
  - exists s. rewrite E0, Z.add_0_r. repeat split.
  - rewrite copy_to_user_ok by (rewrite length_load_bytes; exact Hok).
    change (s32 0 >? 0) with false. cbv iota.
    rewrite s64_small by lia. rewrite s64_small by lia.
    eexists. split; [reflexivity |]. split; [| reflexivity]. simpl.
    set (bs := load_bytes (shmem s) (u64 (base_addr dev + poffset)) (Z.to_nat n)).
    rewrite <- (length_load_bytes (shmem s) (u64 (base_addr dev + poffset))
                  (Z.to_nat n)) at 1.
    apply load_store_bytes.
Qed.

(** The same for [write]: [min len (S - poffset)] bytes of the user buffer
    are stored into the window at [poffset]. *)
Lemma write_within_window (buffer len poffset : Z) (s : kstate) :
  let dev := kvm_ivshmem_dev s in
  let n := Z.min len (ioaddr_size dev - poffset) in
  base_addr dev ≠ 0 →
  0 ≤ ioaddr_size dev < 2 ^ 32 →
  0 ≤ poffset ≤ ioaddr_size dev →
  0 ≤ len < 2 ^ 63 →
  user_ok (umem s) buffer (Z.to_nat n) →
  ∃ s', kvm_ivshmem_write buffer len poffset s = (n, poffset + n, s')
        ∧ (∀ i : nat, (i < Z.to_nat n)%nat →
             load_bytes (shmem s') (u64 (base_addr dev + poffset)) (Z.to_nat n) !! i
             = umem s !! (buffer + Z.of_nat i))
        ∧ umem s' = umem s.
Proof.
  intros dev n Hbase HS Hoff Hlen Hok. unfold kvm_ivshmem_write. fold dev.
  destruct (Z.eqb_spec (base_addr dev) 0) as [? | _]; [contradiction |].
  rewrite (u64_small poffset) by lia.
  rewrite (u64_small (ioaddr_size dev - poffset)) by lia.
  assert (Hn : (if len >? ioaddr_size dev - poffset
                then ioaddr_size dev - poffset else len) = n).
  { unfold n. destruct (Z.gtb_spec len (ioaddr_size dev - poffset)); lia. }
  rewrite Hn.
  destruct (Z.eqb_spec n 0) as [E0 | N0].
  - exists s. rewrite E0, Z.add_0_r. repeat split. intros i Hi. simpl in Hi. lia.
  - destruct (copy_from_user_ok _ _ _ Hok) as (bs & -> & Hlb & Hbs).
    change (s32 0 >? 0) with false. cbv iota.
    rewrite s64_small by lia. rewrite s64_small by lia.
    eexists. split; [reflexivity |]. split; [| reflexivity]. simpl.
    intros i Hi. rewrite <- Hlb at 1. rewrite load_store_bytes.
    apply Hbs. exact Hi.
Qed.

(** C4 at a position past the end of the window ([poffset = 4097] on a
    window of 4096 bytes, as [pread] and [pwrite] can pass it):
    [ioaddr_size - offset] wraps around, [len] is not reduced, and the
    sixteen bytes are copied from, and to, the memory behind the window;
    both calls return 16, not 0. *)
Theorem read_write_past_window_end :
  let s := attached_with_buffer in
  u64 (ioaddr_size (kvm_ivshmem_dev s) - u64 4097) = 2 ^ 64 - 1
  ∧ (kvm_ivshmem_read 0x7000 16 4097 s).1 = (16, 4113)
  ∧ load_bytes (umem (kvm_ivshmem_read 0x7000 16 4097 s).2) 0x7000 16
    = replicate 16 0xAA
  ∧ (kvm_ivshmem_write 0x7000 16 4097 s).1 = (16, 4113)
  ∧ load_bytes (shmem (kvm_ivshmem_write 0x7000 16 4097 s).2)
      (0x100000 + 4097) 16
    = replicate 16 0x11.
Proof. vm_compute. repeat split. Qed.

(** ** C8 and C3: waiting, and waits cut short by a signal *)

Lemma readl_latched (status : Z) (s : kstate) :
  readl (regs (kvm_ivshmem_dev (latch_status status s)) + IntrStatus)
    (latch_status status s) = u32 status.
Proof. unfold readl. simpl. rewrite lookup_insert_eq. reflexivity. Qed.

(** What the interrupt does to the system, by the status latched. *)
Lemma step_irq_event (status : Z) (sys : system) :
  u32 status = ioctl_code wait_event_irq →
  step (EvIrq status) sys
  = {| kern := set_wait_queue [] (set_event_num 1 (latch_status status (kern sys)));
       woken := woken sys ++ wait_queue (kern sys);
       returns := returns sys |}.
Proof.
  intros Hst. unfold step. cbv zeta. unfold kvm_ivshmem_interrupt.
  rewrite readl_latched, Hst. reflexivity.
Qed.

Lemma step_irq_sema (status : Z) (sys : system) :
  u32 status = ioctl_code sema_irq →
  step (EvIrq status) sys
  = match wait_list (sema (kern sys)) with
    | [] =>
        {| kern := set_sema_var
                     {| count := u32 (count (sema (kern sys)) + 1);
                        wait_list := [] |}
                     (latch_status status (kern sys));
           woken := woken sys ++ [];
           returns := returns sys |}
    | t :: rest =>
        {| kern := set_sema_var
                     {| count := count (sema (kern sys)); wait_list := rest |}
                     (latch_status status (kern sys));
           woken := woken sys ++ [];
           returns := {| c_task := t; c_cmd := Some down_sema;
                         c_signal := false; c_ret := 0 |} :: returns sys |}
    end.
Proof.
  intros Hst. unfold step. cbv zeta. unfold kvm_ivshmem_interrupt.
  rewrite readl_latched, Hst. simpl. unfold up. simpl.
  destruct (wait_list (sema (kern sys))); reflexivity.
Qed.

(** C8: a [wait_event] call that finds [event_num] at 1 does not sleep: it
    returns 0 at once, with the flag cleared and the caller on no queue.
    So when the [wait_event_irq] interrupt comes before the call, the call
    returns at once. *)
Theorem wait_event_after_signal_returns_at_once
    (t : tid) (arg : Z) (s : kstate) :
  event_num s = 1 →
  (∃ s', kvm_ivshmem_ioctl t (ioctl_code wait_event) arg s = Returned 0 s'
         ∧ event_num s' = 0
         ∧ (t ∉ wait_queue s')
         ∧ sema s' = sema s)
  ∧ (∀ (sys : system) (status : Z),
       u32 status = ioctl_code wait_event_irq →
       let sys' :=
         run [EvIrq status; EvIoctl t (ioctl_code wait_event) arg] sys in
       returns sys'
       = {| c_task := t; c_cmd := Some wait_event; c_signal := false;
            c_ret := 0 |} :: returns sys
       ∧ event_num (kern sys') = 0
       ∧ t ∉ wait_queue (kern sys')).
Proof.
  intros Hev. split.
  - unfold kvm_ivshmem_ioctl. simpl. unfold wait_event_interruptible.
    rewrite Hev. simpl. eexists. split; [reflexivity |].
    split; [reflexivity |]. split; [| reflexivity].
    simpl. rewrite list_elem_of_filter. intros [Hne _]. apply Hne. reflexivity.
  - intros sys status Hst. unfold run. rewrite step_irq_event by exact Hst.
    simpl. repeat split. apply not_elem_of_nil.
Qed.

Lemma wait_event_after_signal_returns_at_once_witness :
  let s := set_event_num 1 attached in
  event_num s = 1
  ∧ kvm_ivshmem_ioctl 1%nat (ioctl_code wait_event) 0 s = Returned 0 attached.
Proof.
  split; [reflexivity |].
  destruct (wait_event_after_signal_returns_at_once 1%nat 0
              (set_event_num 1 attached) eq_refl) as [(s' & H & _) _].
  rewrite H. vm_compute in H. injection H as <-. reflexivity.
Defined.

(** With no event pending the same call sleeps on [wait_queue]. *)
Lemma wait_event_without_signal_sleeps (t : tid) (arg : Z) (s : kstate) :
  event_num s ≠ 1 →
  ∃ s', kvm_ivshmem_ioctl t (ioctl_code wait_event) arg s
        = Sleeping PcWaitEvent s'
        ∧ t ∈ wait_queue s' ∧ event_num s' = event_num s.
Proof.
  intros Hev. unfold kvm_ivshmem_ioctl. simpl. unfold wait_event_interruptible.
  destruct (Z.eqb_spec (event_num s) 1) as [? | _]; [contradiction |].
  eexists. split; [reflexivity |]. split; [| reflexivity].
  simpl. apply elem_of_app. right. apply list_elem_of_singleton. reflexivity.
Qed.

(** Whatever [down_interruptible] or [wait_event_interruptible] return
    when a signal ends the sleep, the ioctl returns 0. *)
Lemma interrupted_ioctl_returns_0 (t : tid) (s : kstate) :
  (down_interruptible_signal t (sema s)).1 = - EINTR
  ∧ (∃ s', kvm_ivshmem_ioctl_resume t PcDownSema true s = Returned 0 s'
           ∧ count (sema s') = count (sema s) ∧ (t ∉ wait_list (sema s'))
           ∧ event_num s' = event_num s)
  ∧ (event_num s ≠ 1 →
     (wait_event_interruptible t (event_num s =? 1) true (wait_queue s)).1
     = Some (- ERESTARTSYS)
     ∧ ∃ s', kvm_ivshmem_ioctl_resume t PcWaitEvent true s = Returned 0 s'
             ∧ event_num s' = 0 ∧ sema s' = sema s).
Proof.
  split; [reflexivity |]. split.
  - simpl. eexists. split; [reflexivity |]. split; [reflexivity |].
    split; [| reflexivity]. simpl. rewrite list_elem_of_filter.
    intros [Hne _]. apply Hne. reflexivity.
  - intros Hev. unfold kvm_ivshmem_ioctl_resume, wait_event_interruptible.
    destruct (Z.eqb_spec (event_num s) 1) as [? | _]; [contradiction |].
    split; [reflexivity |]. eexists. split; [reflexivity |].
    split; reflexivity.
Qed.

(** C3 on the attached device: task 1 sleeps in [down_sema] (count 0), or
    in [wait_event] (no event), and is sent a signal.
    [down_interruptible] returns [-EINTR] and [wait_event_interruptible]
    [-ERESTARTSYS], the semaphore and the flag are as before the call, but
    the ioctl returns 0 in both cases, as it does after a wake-up.
    Moreover [event_num = 0] (line 149) is executed on the interrupted path
    as well: when the [wait_event_irq] interrupt comes after line 147 has
    returned and before line 149, the flag it set is cleared by the
    interrupted caller. *)
Theorem signal_during_wait_returns_0 :
  let down := [EvIoctl 1%nat (ioctl_code down_sema) 0; EvSignal 1%nat] in
  let wait := [EvIoctl 1%nat (ioctl_code wait_event) 0; EvSignal 1%nat] in
  returns (run (take 1 down) (boot attached)) = []
  ∧ returns (run down (boot attached))
    = [{| c_task := 1%nat; c_cmd := Some down_sema; c_signal := true;
          c_ret := 0 |}]
  ∧ kern (run down (boot attached)) = attached
  ∧ returns (run (take 1 wait) (boot attached)) = []
  ∧ returns (run wait (boot attached))
    = [{| c_task := 1%nat; c_cmd := Some wait_event; c_signal := true;
          c_ret := 0 |}]
  ∧ kern (run wait (boot attached)) = attached
  ∧ (let s1 := kern (run (take 1 wait) (boot attached)) in
     let line147 :=
       wait_event_interruptible 1%nat (event_num s1 =? 1) true (wait_queue s1) in
     let s2 := latch_status (ioctl_code wait_event_irq)
                 (set_wait_queue line147.2 s1) in
     let s3 :=
       (kvm_ivshmem_interrupt 11 (Some (kvm_ivshmem_dev s2)) s2).1.1.2 in
     line147.1 = Some (- ERESTARTSYS)
     ∧ event_num s3 = 1
     ∧ match ioctl_after_wait_event (- ERESTARTSYS) s3 with
       | Returned rv s4 => rv = 0 ∧ event_num s4 = 0
       | Sleeping _ _ => False
       end).
Proof. vm_compute. repeat split. Qed.

(** The event channel end to end on the attached device: task 1 sleeps
    in [wait_event]; the [wait_event_irq] interrupt sets the flag and wakes
    it; when it runs it finds the flag, clears it and returns 0. *)
Lemma wait_event_then_signal :
  let tr := [EvIoctl 1%nat (ioctl_code wait_event) 0;
             EvIrq (ioctl_code wait_event_irq); EvSched 1%nat] in
  feasible tr (boot attached) = true
  ∧ wait_queue (kern (run (take 1 tr) (boot attached))) = [1%nat]
  ∧ event_num (kern (run (take 2 tr) (boot attached))) = 1
  ∧ woken (run (take 2 tr) (boot attached)) = [1%nat]
  ∧ returns (run tr (boot attached))
    = [{| c_task := 1%nat; c_cmd := Some wait_event; c_signal := false;
          c_ret := 0 |}]
  ∧ event_num (kern (run tr (boot attached))) = 0
  ∧ woken (run tr (boot attached)) = [].
Proof. vm_compute. repeat split. Qed.

(** ** C7: deliveries and completed downs *)

Lemma deliveries_cons (e : event) (tr : list event) :
  deliveries (e :: tr) = (if is_delivery e then 1 else 0) + deliveries tr.
Proof.
  unfold deliveries. rewrite filter_cons.
  destruct (is_delivery e); simpl; [| reflexivity].
  destruct (decide (true = true)); [simpl; lia | congruence].
Qed.

Lemma down_calls_cons (e : event) (tr : list event) :
  down_calls (e :: tr) = (if is_down_call e then 1 else 0) + down_calls tr.
Proof.
  unfold down_calls. rewrite filter_cons.
  destruct (is_down_call e); simpl; [| reflexivity].
  destruct (decide (true = true)); [simpl; lia | congruence].
Qed.

Lemma deliveries_nonneg (tr : list event) : 0 ≤ deliveries tr.
Proof. unfold deliveries. lia. Qed.

Lemma completed_downs_cons (c : completion) (sys : system) (s : kstate)
    (w : list tid) :
  completed_downs {| kern := s; woken := w; returns := c :: returns sys |}
  = (if down_completed c then 1 else 0) + completed_downs sys.
Proof.
  unfold completed_downs. simpl. rewrite filter_cons.
  destruct (down_completed c); simpl; [| reflexivity].
  destruct (decide (true = true)); [simpl; lia | congruence].
Qed.

(** One delivery: with nobody asleep the count goes up by one, otherwise
    the oldest sleeper completes its [down]. *)
Lemma step_delivery (status : Z) (sys : system) :
  u32 status = ioctl_code sema_irq →
  (sleepers sys = 0 →
     tokens (step (EvIrq status) sys) = u32 (tokens sys + 1)
     ∧ sleepers (step (EvIrq status) sys) = 0
     ∧ completed_downs (step (EvIrq status) sys) = completed_downs sys)
  ∧ (0 < sleepers sys →
     tokens (step (EvIrq status) sys) = tokens sys
     ∧ sleepers (step (EvIrq status) sys) = sleepers sys - 1
     ∧ completed_downs (step (EvIrq status) sys) = completed_downs sys + 1).
Proof.
  intros Hst. rewrite step_irq_sema by exact Hst.
  unfold tokens, sleepers.
  destruct (wait_list (sema (kern sys))) as [| t rest]; simpl length.
  - split; [intros _ | lia]. repeat split.
  - split; [lia | intros _]. split; [reflexivity |].
    split; [simpl; lia |]. rewrite completed_downs_cons. simpl. lia.
Qed.

Lemma step_down_sema (t : tid) (arg : Z) (sys : system) :
  step (EvIoctl t (ioctl_code down_sema) arg) sys
  = if 0 <? count (sema (kern sys))
    then {| kern := set_sema_var
                      {| count := count (sema (kern sys)) - 1;
                         wait_list := wait_list (sema (kern sys)) |}
                      (kern sys);
            woken := woken sys;
            returns := {| c_task := t; c_cmd := Some down_sema;
                          c_signal := false; c_ret := 0 |} :: returns sys |}
    else {| kern := set_sema_var
                      {| count := count (sema (kern sys));
                         wait_list := wait_list (sema (kern sys)) ++ [t] |}
                      (kern sys);
            woken := woken sys;
            returns := returns sys |}.
Proof.
  unfold step, kvm_ivshmem_ioctl.
  change (ioctl_of_cmd (ioctl_code down_sema)) with (Some down_sema).
  unfold down_interruptible.
  destruct (0 <? count (sema (kern sys))); reflexivity.
Qed.

(** One [down_sema] call: it completes when the count is positive, and
    otherwise joins the sleepers. *)
Lemma step_down_call (t : tid) (arg : Z) (sys : system) :
  let sys' := step (EvIoctl t (ioctl_code down_sema) arg) sys in
  (0 < tokens sys →
     tokens sys' = tokens sys - 1 ∧ sleepers sys' = sleepers sys
     ∧ completed_downs sys' = completed_downs sys + 1)
  ∧ (tokens sys ≤ 0 →
     tokens sys' = tokens sys ∧ sleepers sys' = sleepers sys + 1
     ∧ completed_downs sys' = completed_downs sys).
Proof.
  cbv zeta. rewrite step_down_sema. unfold tokens, sleepers.
  destruct (Z.ltb_spec 0 (count (sema (kern sys)))) as [Hpos | Hzero].
  - split; [intros _ | lia]. split; [reflexivity |].
    split; [reflexivity |]. rewrite completed_downs_cons. simpl. lia.
  - split; [lia | intros _]. split; [reflexivity |].
    split; [simpl; rewrite length_app; simpl; lia | reflexivity].
Qed.

(** The balance of the semaphore channel.  Along any sequence of
    deliveries and [down_sema] calls that does not overflow the 32-bit
    count: every delivery is either still in the count or has completed
    one [down]; every call has completed or is asleep; and nobody sleeps
    while the count is positive. *)
Lemma sema_balance (tr : list event) (sys : system) :
  sema_channel tr →
  0 ≤ tokens sys →
  tokens sys + deliveries tr < 2 ^ 32 →
  (0 < sleepers sys → tokens sys = 0) →
  completed_downs (run tr sys) + tokens (run tr sys)
  = completed_downs sys + tokens sys + deliveries tr
  ∧ completed_downs (run tr sys) + sleepers (run tr sys)
    = completed_downs sys + sleepers sys + down_calls tr
  ∧ 0 ≤ tokens (run tr sys)
  ∧ (0 < sleepers (run tr sys) → tokens (run tr sys) = 0).
Proof.
  revert sys. induction tr as [| e tr IH]; intros sys Hch Hpos Hmax Hinv.
  - simpl. unfold deliveries, down_calls. simpl.
    repeat split; first [lia | exact Hinv].
  - apply Forall_cons in Hch as [He Hch].
    rewrite deliveries_cons in Hmax |- *. rewrite down_calls_cons.
    pose proof (deliveries_nonneg tr) as Hd.
    assert (Hsl : 0 ≤ sleepers sys) by (unfold sleepers; lia).
    simpl run.
    destruct e as [t cmd arg | status | t | t]; simpl in He;
      try (destruct He; discriminate).
    + (* a down_sema call *)
      assert (Hcmd : cmd = ioctl_code down_sema)
        by (destruct He as [He | He]; [discriminate | apply Z.eqb_eq in He; exact He]).
      subst cmd. simpl is_delivery in Hmax |- *. simpl is_down_call.
      cbv iota in Hmax |- *.
      destruct (step_down_call t arg sys) as [Hgo Hsleep].
      destruct (Z.lt_ge_cases 0 (tokens sys)) as [Hlt | Hge].
      * destruct (Hgo Hlt) as (Ht & Hs & Hc).
        destruct (IH (step (EvIoctl t (ioctl_code down_sema) arg) sys))
          as (I1 & I2 & I3 & I4); [exact Hch | lia | lia | lia |].
        repeat split; lia.
      * destruct (Hsleep Hge) as (Ht & Hs & Hc).
        destruct (IH (step (EvIoctl t (ioctl_code down_sema) arg) sys))
          as (I1 & I2 & I3 & I4); [exact Hch | lia | lia | lia |].
        repeat split; lia.
    + (* a delivery *)
      assert (Hst : u32 status = ioctl_code sema_irq)
        by (destruct He as [He | He]; [apply Z.eqb_eq in He; exact He | discriminate]).
      unfold is_delivery, is_down_call in Hmax |- *.
      rewrite (proj2 (Z.eqb_eq _ _) Hst) in Hmax |- *.
      destruct (step_delivery status sys Hst) as [Hnone Hsome].
      destruct (Z.eq_dec (sleepers sys) 0) as [Hz | Hnz].
      * destruct (Hnone Hz) as (Ht & Hs & Hc).
        rewrite u32_small in Ht by lia.
        destruct (IH (step (EvIrq status) sys))
          as (I1 & I2 & I3 & I4); [exact Hch | lia | lia | lia |].
        repeat split; lia.
      * destruct (Hsome ltac:(lia)) as (Ht & Hs & Hc).
        destruct (IH (step (EvIrq status) sys))
          as (I1 & I2 & I3 & I4); [exact Hch | lia | lia | lia |].
        repeat split; lia.
Qed.

Lemma u32_s32 (x : Z) : u32 (s32 x) = u32 x.
Proof.
  unfold u32, s32. destruct (x mod 2 ^ 32 <? 2 ^ 31).
  - apply Z.mod_mod. lia.
  - rewrite Zminus_mod, Z.mod_same, Z.sub_0_r, !Z.mod_mod by lia. reflexivity.
Qed.

(** The two ways a [down_sema] call goes. *)
Lemma ioctl_down_sema_takes (t : tid) (a : Z) (s : kstate) :
  0 < count (sema s) →
  kvm_ivshmem_ioctl t (ioctl_code down_sema) a s
  = Returned 0
      (set_sema_var {| count := count (sema s) - 1;
                       wait_list := wait_list (sema s) |} s).
Proof.
  intros H. unfold kvm_ivshmem_ioctl.
  change (ioctl_of_cmd (ioctl_code down_sema)) with (Some down_sema).
  unfold down_interruptible.
  destruct (Z.ltb_spec 0 (count (sema s))); [reflexivity | lia].
Qed.

Lemma ioctl_down_sema_sleeps (t : tid) (a : Z) (s : kstate) :
  count (sema s) ≤ 0 →
  kvm_ivshmem_ioctl t (ioctl_code down_sema) a s
  = Sleeping PcDownSema
      (set_sema_var {| count := count (sema s);
                       wait_list := wait_list (sema s) ++ [t] |} s).
Proof.
  intros H. unfold kvm_ivshmem_ioctl.
  change (ioctl_of_cmd (ioctl_code down_sema)) with (Some down_sema).
  unfold down_interruptible.
  destruct (Z.ltb_spec 0 (count (sema s))); [lia | reflexivity].
Qed.

(** The state [set_sema] leaves: the count is the argument, nobody sleeps. *)
Lemma step_set_sema (t : tid) (c : Z) (sys : system) :
  step (EvIoctl t (ioctl_code set_sema) c) sys
  = {| kern := set_sema_var {| count := u32 c; wait_list := [] |} (kern sys);
       woken := woken sys;
       returns := {| c_task := t; c_cmd := Some set_sema; c_signal := false;
                     c_ret := 0 |} :: returns sys |}.
Proof.
  unfold step, kvm_ivshmem_ioctl.
  change (ioctl_of_cmd (ioctl_code set_sema)) with (Some set_sema).
  unfold sema_init, settle. rewrite u32_s32. reflexivity.
Qed.

(** C7: after [set_sema] with count [c] ([arm(c)]), along every sequence
    of [sema_irq] deliveries and [down_sema] calls that keeps the count
    below 2^32, the number of [down] calls that have completed is
    [min (c + deliveries) calls]; armed with 0 and with at least as many
    calls as deliveries, it is the number of deliveries.  And after
    [arm(0)] and two deliveries in a row, two [down_sema] calls return at
    once and a third one sleeps. *)
Theorem deliveries_match_completed_downs
    (t0 : tid) (c : Z) (tr : list event) (s0 : kstate) :
  sema_channel tr →
  0 ≤ c →
  c + deliveries tr < 2 ^ 32 →
  let sys := run (EvIoctl t0 (ioctl_code set_sema) c :: tr) (boot s0) in
  completed_downs sys = Z.min (c + deliveries tr) (down_calls tr)
  ∧ (c = 0 → deliveries tr ≤ down_calls tr →
     completed_downs sys = deliveries tr)
  ∧ (∀ (t : tid) (a : Z),
       let s :=
         kern (run [EvIoctl t0 (ioctl_code set_sema) 0;
                    EvIrq (ioctl_code sema_irq); EvIrq (ioctl_code sema_irq)]
                 (boot s0)) in
       ∃ s1 s2 s3,
         kvm_ivshmem_ioctl t (ioctl_code down_sema) a s = Returned 0 s1
         ∧ kvm_ivshmem_ioctl t (ioctl_code down_sema) a s1 = Returned 0 s2
         ∧ kvm_ivshmem_ioctl t (ioctl_code down_sema) a s2
           = Sleeping PcDownSema s3
         ∧ wait_list (sema s3) = [t] ∧ count (sema s3) = 0).
Proof.
  intros Hch Hc Hmax sys.
  assert (Hbal :
    completed_downs sys + tokens sys = c + deliveries tr
    ∧ completed_downs sys + sleepers sys = down_calls tr
    ∧ 0 ≤ tokens sys
    ∧ (0 < sleepers sys → tokens sys = 0)).
  { unfold sys. cbn [run]. rewrite step_set_sema.
    pose proof (deliveries_nonneg tr) as Hd.
    match goal with |- context [run tr ?x] => set (armed := x) end.
    assert (Ht : tokens armed = c) by (apply u32_small; lia).
    assert (Hs : sleepers armed = 0) by reflexivity.
    assert (Hz : completed_downs armed = 0) by reflexivity.
    destruct (sema_balance tr armed) as (I1 & I2 & I3 & I4);
      [exact Hch | lia | lia | lia |].
    repeat split; first [lia | exact I4]. }
  destruct Hbal as (B1 & B2 & B3 & B4).
  assert (Hsl : 0 ≤ sleepers sys) by (unfold sleepers; lia).
  assert (Hmin : completed_downs sys = Z.min (c + deliveries tr) (down_calls tr)).
  { destruct (Z.eq_dec (sleepers sys) 0) as [Hz | Hnz].
    - lia.
    - specialize (B4 ltac:(lia)). lia. }
  split; [exact Hmin |]. split; [intros -> Hle; lia |].
  intros t a. cbv zeta. cbn [run].
  rewrite step_set_sema.
  rewrite step_irq_sema by reflexivity. cbn [kern sema set_sema_var wait_list count].
  rewrite step_irq_sema by reflexivity. cbn [kern sema set_sema_var wait_list count].
  match goal with |- context [kvm_ivshmem_ioctl t _ a ?x] => set (s := x) end.
  assert (Hs : sema s = {| count := 2; wait_list := [] |}) by reflexivity.
  clearbody s.
  set (s1 := set_sema_var {| count := count (sema s) - 1;
                             wait_list := wait_list (sema s) |} s).
  set (s2 := set_sema_var {| count := count (sema s1) - 1;
                             wait_list := wait_list (sema s1) |} s1).
  exists s1, s2,
    (set_sema_var {| count := count (sema s2);
                     wait_list := wait_list (sema s2) ++ [t] |} s2).
  split; [apply ioctl_down_sema_takes; rewrite Hs; simpl; lia |].
  split; [apply ioctl_down_sema_takes; simpl; rewrite Hs; simpl; lia |].
  split; [apply ioctl_down_sema_sleeps; simpl; rewrite Hs; simpl; lia |].
  simpl. rewrite Hs. split; reflexivity.
Qed.

Lemma deliveries_match_completed_downs_witness :
  let tr := [EvIrq 7; EvIoctl 1%nat 1 0; EvIoctl 2%nat 1 0; EvIrq 7] in
  sema_channel tr ∧ 0 ≤ 0 ∧ 0 + deliveries tr < 2 ^ 32
  ∧ completed_downs (run (EvIoctl 0%nat 0 0 :: tr) (boot attached)) = 2
  ∧ feasible (EvIoctl 0%nat 0 0 :: tr) (boot attached) = true.
Proof.
  set (tr := [EvIrq 7; EvIoctl 1%nat 1 0; EvIoctl 2%nat 1 0; EvIrq 7]).
  cbv zeta.
  assert (Hch : sema_channel tr).
  { unfold tr.
    repeat (constructor; [first [left; reflexivity | right; reflexivity] |]).
    constructor. }
  assert (Hc : 0 ≤ 0) by lia.
  assert (Hmax : 0 + deliveries tr < 2 ^ 32) by (vm_compute; reflexivity).
  split; [exact Hch |]. split; [exact Hc |]. split; [exact Hmax |].
  split; [| vm_compute; reflexivity].
  exact (proj1 (deliveries_match_completed_downs 0%nat 0 tr attached
                  Hch Hc Hmax)).
Defined.

(** The bound on the count is needed: armed with 2^32 - 1, one more
    delivery wraps the 32-bit count to 0, and the next [down_sema] call
    sleeps. *)
Lemma sema_count_wraps :
  let sys :=
    run [EvIoctl 0%nat (ioctl_code set_sema) (2 ^ 32 - 1);
         EvIrq (ioctl_code sema_irq);
         EvIoctl 1%nat (ioctl_code down_sema) 0] (boot attached) in
  tokens sys = 0 ∧ wait_list (sema (kern sys)) = [1%nat]
  ∧ completed_downs sys = 0.
Proof. vm_compute. repeat split. Qed.

(** ** C9: the verify pass of [memtest] *)

Section Verify.

Variable d : Z.

Lemma counters_only_refl (m : mstate) : counters_only m m.
Proof. repeat split. Qed.

Lemma counters_only_slot (m m' : mstate) (n : Z) :
  counters_only m m' → slot m' n = slot m n.
Proof. intros (_ & Hp & _). unfold slot. rewrite Hp. reflexivity. Qed.

Lemma counters_only_count_read (m m' : mstate) :
  counters_only m m' → counters_only m (count_read m').
Proof. intros (H1 & H2 & H3 & H4). repeat split; assumption. Qed.

Lemma reported_after (n : Z) (m m' : mstate) :
  counters_only m m' → reported d n m (report_mismatch n d m').
Proof.
  intros H. pose proof (counters_only_slot m m' n H) as Hs.
  destruct H as (H1 & H2 & H3 & H4).
  unfold reported, report_mismatch. simpl. rewrite H1, H4, Hs.
  repeat split; assumption.
Qed.

(** One pass from slot [n] on, in a window of fewer than 2^32 slots:
    it stops at the first slot from [n] on that does not hold the
    pattern, or completes when there is none. *)
Lemma verify_from_spec (fuel : nat) (n : Z) (m0 m : mstate) :
  counters_only m0 m →
  test_mem_size m0 < 2 ^ 32 →
  0 ≤ n →
  (Z.to_nat (test_mem_size m0 - n) < fuel)%nat →
  (∃ n0 m',
      verify_from fuel n d m = Some (Aborted, m')
      ∧ n ≤ n0 < test_mem_size m0
      ∧ ¬ slot_ok d m0 n0
      ∧ (∀ k, n ≤ k < n0 → slot_ok d m0 k)
      ∧ reported d n0 m0 m')
  ∨ (∃ m',
      verify_from fuel n d m = Some (Completed, m')
      ∧ (∀ k, n ≤ k < test_mem_size m0 → slot_ok d m0 k)
      ∧ counters_only m0 m').
Proof.
  revert n m. induction fuel as [| fuel IH]; intros n m Hm Hsize Hn Hfuel.
  - lia.
  - pose proof Hm as (_ & _ & Hts & _). simpl. rewrite Hts.
    destruct (Z.ltb_spec n (test_mem_size m0)) as [Hlt | Hge].
    + rewrite (counters_only_slot m0 m n Hm).
      destruct (Z.eqb_spec (slot m0 n) (Z.lxor n d)) as [Heq | Hne]; simpl.
      * rewrite u32_small by lia.
        destruct (IH (n + 1) (count_read m)) as
          [(n0 & m' & Hrun & Hrange & Hbad & Hgood & Hrep)
          | (m' & Hrun & Hgood & Hsame)];
          [apply counters_only_count_read; exact Hm | exact Hsize | lia | lia | |].
        -- left. exists n0, m'. split; [exact Hrun |]. split; [lia |].
           split; [exact Hbad |]. split; [| exact Hrep].
           intros k Hk. destruct (Z.eq_dec k n) as [-> | Hkn];
             [exact Heq | apply Hgood; lia].
        -- right. exists m'. split; [exact Hrun |]. split; [| exact Hsame].
           intros k Hk. destruct (Z.eq_dec k n) as [-> | Hkn];
             [exact Heq | apply Hgood; lia].
      * left. exists n, (report_mismatch n d m). split; [reflexivity |].
        split; [lia |]. split; [exact Hne |].
        split; [intros k Hk; lia | apply reported_after; exact Hm].
    + right. exists m. split; [reflexivity |].
      split; [intros k Hk; lia | exact Hm].
Qed.

(** All the passes: the first pass decides. *)
Lemma verify_loops_all_ok (loops : nat) (m0 m : mstate) :
  counters_only m0 m →
  0 ≤ test_mem_size m0 < 2 ^ 32 →
  (∀ k, 0 ≤ k < test_mem_size m0 → slot_ok d m0 k) →
  ∃ m', verify_loops loops d m = Some (Completed, m') ∧ counters_only m0 m'.
Proof.
  revert m. induction loops as [| loops IH]; intros m Hm Hsize Hall;
    cbn [verify_loops].
  - exists m. split; [reflexivity | exact Hm].
  - pose proof Hm as (_ & _ & Hts & _).
    destruct (verify_from_spec (pass_fuel m) 0 m0 m) as
      [(n0 & m' & Hrun & Hrange & Hbad & _) | (m' & Hrun & _ & Hsame)];
      [exact Hm | lia | lia | unfold pass_fuel; rewrite Hts; lia | |].
    + exfalso. apply Hbad. apply Hall. lia.
    + rewrite Hrun. apply IH; [exact Hsame | exact Hsize | exact Hall].
Qed.

Lemma verify_loops_mismatch (loops : nat) (m : mstate) :
  0 ≤ test_mem_size m < 2 ^ 32 →
  (∃ n, 0 ≤ n < test_mem_size m ∧ ¬ slot_ok d m n) →
  ∃ n0 m',
    verify_loops (S loops) d m = Some (Aborted, m')
    ∧ 0 ≤ n0 < test_mem_size m
    ∧ ¬ slot_ok d m n0
    ∧ (∀ k, 0 ≤ k < n0 → slot_ok d m k)
    ∧ reported d n0 m m'.
Proof.
  intros Hsize (n & Hn & Hbad). cbn [verify_loops].
  destruct (verify_from_spec (pass_fuel m) 0 m m) as
    [(n0 & m' & Hrun & Hrange & Hbad0 & Hgood & Hrep) | (m' & _ & Hall & _)];
    [apply counters_only_refl | lia | lia | unfold pass_fuel; lia | |].
  - rewrite Hrun. exists n0, m'. split; [reflexivity |]. split; [lia |].
    split; [exact Hbad0 |].
    split; [intros k Hk; apply Hgood; lia | exact Hrep].
  - exfalso. apply Hbad. apply Hall. exact Hn.
Qed.

End Verify.

(** C9: the verify pass of the client, [memtest(data, 1)], over a window
    of fewer than 2^32 slots.  If some slot differs from [index ^ data],
    the call returns 1, its error line names the first such index, and
    [vm_control->shutdown] is 1 afterwards, so that the client's loop ends.
    If every slot holds [index ^ data], the call returns 0, prints no error
    line and leaves [vm_control], and so the shutdown flag, as it was. *)
Theorem memtest_verify_pass (seed : Z) (m : mstate) :
  0 ≤ test_mem_size m < 2 ^ 32 →
  ((∃ n, 0 ≤ n < test_mem_size m ∧ slot m n ≠ Z.lxor n (u32 seed)) →
   ∃ n0 m',
     memtest seed 1 m = Some (1, m')
     ∧ 0 ≤ n0 < test_mem_size m
     ∧ slot m n0 ≠ Z.lxor n0 (u32 seed)
     ∧ (∀ k, 0 ≤ k < n0 → slot m k = Z.lxor k (u32 seed))
     ∧ errors m'
       = {| err_index := n0; err_found := slot m n0;
            err_expected := Z.lxor n0 (u32 seed) |} :: errors m
     ∧ shutdown (vm_control m') = 1
     ∧ next_round m' = false)
  ∧ ((∀ n, 0 ≤ n < test_mem_size m → slot m n = Z.lxor n (u32 seed)) →
     ∃ m',
       memtest seed 1 m = Some (0, m')
       ∧ vm_control m' = vm_control m
       ∧ shutdown (vm_control m') = shutdown (vm_control m)
       ∧ errors m' = errors m
       ∧ test_pmem m' = test_pmem m).
Proof.
  intros Hsize. unfold memtest. change (1 =? 0) with false. cbv iota. split.
  - intros Hbad. change TEST_LOOPS with (S 499).
    destruct (verify_loops_mismatch (u32 seed) 499 m Hsize Hbad)
      as (n0 & m' & Hrun & Hrange & Hbad0 & Hgood & Hc & _ & _ & He).
    rewrite Hrun. exists n0, m'. split; [reflexivity |].
    split; [exact Hrange |]. split; [exact Hbad0 |]. split; [exact Hgood |].
    split; [exact He |]. unfold next_round. rewrite Hc. split; reflexivity.
  - intros Hall.
    destruct (verify_loops_all_ok (u32 seed) TEST_LOOPS m m
                (counters_only_refl m) Hsize Hall)
      as (m' & Hrun & Hc & Hp & _ & He).
    rewrite Hrun. exists m'. split; [reflexivity |]. split; [exact Hc |].
    split; [rewrite Hc; reflexivity |]. split; [exact He | exact Hp].
Qed.

Lemma memtest_verify_pass_witness :
  0 ≤ test_mem_size four_slots_corrupted < 2 ^ 32
  ∧ ∃ n0 m',
      memtest 42 1 four_slots_corrupted = Some (1, m')
      ∧ n0 = 2
      ∧ errors m'
        = [{| err_index := n0; err_found := 0xdead; err_expected := 40 |}]
      ∧ shutdown (vm_control m') = 1.
Proof.
  assert (Hsize : 0 ≤ test_mem_size four_slots_corrupted < 2 ^ 32)
    by (change (test_mem_size four_slots_corrupted) with 4; lia).
  split; [exact Hsize |].
  destruct (proj1 (memtest_verify_pass 42 four_slots_corrupted Hsize))
    as (n0 & m' & Hrun & Hrange & Hbad & Hgood & He & Hs & _).
  { exists 2. split; [change (test_mem_size four_slots_corrupted) with 4; lia |].
    vm_compute. discriminate. }
  assert (Hn0 : n0 = 2).
  { change (test_mem_size four_slots_corrupted) with 4 in Hrange.
    assert (Hcases : n0 = 0 ∨ n0 = 1 ∨ n0 = 2 ∨ n0 = 3) by lia.
    destruct Hcases as [-> | [-> | [-> | ->]]].
    - exfalso. apply Hbad. vm_compute. reflexivity.
    - exfalso. apply Hbad. vm_compute. reflexivity.
    - reflexivity.
    - exfalso. specialize (Hgood 2 ltac:(lia)). vm_compute in Hgood.
      discriminate Hgood. }
  exists n0, m'. split; [exact Hrun |]. split; [exact Hn0 |].
  split; [| exact Hs]. rewrite He, Hn0. vm_compute. reflexivity.
Defined.

(** The two end-to-end runs of the specification, by evaluation: with the
    four slots intact the verify pass returns 0 and [shutdown] stays 0;
    with slot 2 overwritten it returns 1, reports index 2 and sets
    [shutdown]. *)
Lemma memtest_four_slots :
  memtest_outcome (memtest 42 1 four_slots) = Some (0, 0, [], 2000)
  ∧ memtest_outcome (memtest 42 1 four_slots_corrupted) = Some (1, 1, [2], 2).
Proof. split; vm_compute; reflexivity. Qed.

(** The write pass of the server produces the pattern the verify pass
    accepts. *)
Lemma memtest_write_then_verify :
  match memtest 42 0 four_slots_corrupted with
  | Some (rv, m1) =>
      rv = 0 ∧ test_pmem m1 = test_pmem four_slots
      ∧ memtest_outcome (memtest 42 1 m1) = Some (0, 0, [], 2000)
  | None => False
  end.
Proof. vm_compute. repeat split. Qed.

(** [main] gives [memtest] a window of fewer than 2^32 slots whenever the
    size it got from [get_pmem_size] (an [int]) covers the control block. *)
Lemma main_test_mem_size_bound (pmem_size : Z) :
  28 ≤ pmem_size < 2 ^ 31 →
  0 ≤ main_test_mem_size pmem_size < 2 ^ 32.
Proof.
  intros H. unfold main_test_mem_size.
  rewrite (u64_small (pmem_size - 28)) by lia.
  assert (Hq : 0 ≤ (pmem_size - 28) / 4 < 2 ^ 29).
  { split; [apply Z.div_pos; lia | apply Z.div_lt_upper_bound; lia]. }
  set (q := (pmem_size - 28) / 4) in *.
  assert (Hland : 0 ≤ Z.land q (u64 (Z.lnot (4 - 1))) ≤ q).
  { split; [apply Z.land_nonneg; lia |].
    pose proof (Z.sub_nocarry_ldiff q (Z.land q (u64 (Z.lnot (4 - 1))))) as Hsub.
    assert (Hld : Z.ldiff (Z.land q (u64 (Z.lnot (4 - 1)))) q = 0).
    { apply Z.bits_inj'. intros n Hn.
      rewrite Z.ldiff_spec, Z.land_spec, Z.bits_0.
      destruct (Z.testbit q n); simpl; [apply andb_false_r | reflexivity]. }
    specialize (Hsub Hld).
    pose proof (Z.ldiff_nonneg q (Z.land q (u64 (Z.lnot (4 - 1))))) as Hnn.
    assert (0 ≤ Z.ldiff q (Z.land q (u64 (Z.lnot (4 - 1))))) by (apply Hnn; lia).
    lia. }
  rewrite s64_small by lia. lia.
Qed.
(** * Further properties of the driver *)

(** ** The ioctl as a whole *)

(** X1: the ioctl never reports an error.  Whatever the command, the
    argument and the state, a call that returns returns 0, and so does a
    call that slept and was woken or interrupted: neither an unknown
    command, nor a faulting user pointer in [read_ivposn], nor a signal
    shows in the result. *)
Theorem ioctl_result_is_always_0
    (t : tid) (cmd arg : Z) (pc : ioctl_pc) (by_signal : bool) (s : kstate) :
  match kvm_ivshmem_ioctl t cmd arg s with
  | Returned rv _ => rv = 0
  | Sleeping _ _ => True
  end
  ∧ match kvm_ivshmem_ioctl_resume t pc by_signal s with
    | Returned rv _ => rv = 0
    | Sleeping _ _ => True
    end.
Proof.
  split.
  - unfold kvm_ivshmem_ioctl.
    destruct (ioctl_of_cmd cmd) as [[] |]; try exact eq_refl.
    + destruct (down_interruptible t (sema s)) as [[rv |] sem']; exact eq_refl || exact I.
    + destruct (wait_event_interruptible t (event_num s =? 1) false (wait_queue s))
        as [[rv |] wq']; exact eq_refl || exact I.
    + destruct (copy_to_user arg _ (umem s)) as [rv um']. exact eq_refl.
  - unfold kvm_ivshmem_ioctl_resume. destruct pc.
    + destruct by_signal; exact eq_refl.
    + destruct (wait_event_interruptible t (event_num s =? 1) by_signal (wait_queue s))
        as [[rv |] wq']; exact eq_refl || exact I.
Qed.

Lemma ioctl_of_cmd_code (cmd : Z) (c : ivshmem_ioctl) :
  ioctl_of_cmd cmd = Some c → cmd = ioctl_code c.
Proof.
  unfold ioctl_of_cmd.
  repeat match goal with
         | |- context [?a =? ?b] => destruct (Z.eqb_spec a b)
         end; intros H; try discriminate H; injection H as <-; assumption.
Qed.

(** X2: only the three ring commands write to the device.  Any other
    command leaves every device register and the record of register writes
    as they were; and a command the switch has no case for, such as the
    [IOCTL_DOORBELL] (8) of memtest.c or [read_livelist], returns 0 having
    changed nothing at all. *)
Theorem ioctl_writes_registers_only_to_ring
    (t : tid) (cmd arg : Z) (s : kstate) :
  cmd ≠ ioctl_code empty → cmd ≠ ioctl_code wait_event_irq →
  cmd ≠ ioctl_code sema_irq →
  mmio (result_state (kvm_ivshmem_ioctl t cmd arg s)) = mmio s
  ∧ mmio_writes (result_state (kvm_ivshmem_ioctl t cmd arg s)) = mmio_writes s
  ∧ ((cmd < 0 ∨ 7 < cmd ∨ cmd = ioctl_code read_livelist) →
     kvm_ivshmem_ioctl t cmd arg s = Returned 0 s)
  ∧ kvm_ivshmem_ioctl t IOCTL_DOORBELL arg s = Returned 0 s.
Proof.
  intros N2 N4 N7. unfold kvm_ivshmem_ioctl.
  destruct (ioctl_of_cmd cmd) as [c |] eqn:Hc.
  - apply ioctl_of_cmd_code in Hc. subst cmd.
    destruct c; try contradiction; cbv zeta;
      repeat match goal with
             | |- context [down_interruptible ?a ?b] =>
                 unfold down_interruptible; destruct (0 <? count (sema s))
             | |- context [wait_event_interruptible ?a ?b ?c ?d] =>
                 unfold wait_event_interruptible; destruct (event_num s =? 1)
             | |- context [copy_to_user ?a ?b ?c] =>
                 destruct (copy_to_user a b c) as [rv um']
             end; simpl;
      (split; [reflexivity |]); (split; [reflexivity |]);
      (split; [| reflexivity]); intros [H | [H | H]];
      first [reflexivity | simpl in H; lia | discriminate H].
  - simpl. repeat split.
Qed.

Lemma ioctl_writes_registers_only_to_ring_witness :
  IOCTL_DOORBELL ≠ ioctl_code empty
  ∧ IOCTL_DOORBELL ≠ ioctl_code wait_event_irq
  ∧ IOCTL_DOORBELL ≠ ioctl_code sema_irq
  ∧ mmio_writes (result_state (kvm_ivshmem_ioctl 1%nat IOCTL_DOORBELL 0 attached))
    = [].
Proof.
  assert (N2 : IOCTL_DOORBELL ≠ ioctl_code empty) by discriminate.
  assert (N4 : IOCTL_DOORBELL ≠ ioctl_code wait_event_irq) by discriminate.
  assert (N7 : IOCTL_DOORBELL ≠ ioctl_code sema_irq) by discriminate.
  split; [exact N2 |]. split; [exact N4 |]. split; [exact N7 |].
  exact (proj1 (proj2 (ioctl_writes_registers_only_to_ring
                         1%nat IOCTL_DOORBELL 0 attached N2 N4 N7))).
Defined.

Lemma le32_roundtrip (v : Z) : le32_value (le32 v) = u32 v.
Proof.
  unfold le32_value, le32, u32.
  change (2 ^ 32) with (2 ^ 8 * (2 ^ 8 * (2 ^ 8 * 2 ^ 8))).
  rewrite !Z.rem_mul_r by lia.
  change (2 ^ 16) with (2 ^ 8 * 2 ^ 8). change (2 ^ 24) with (2 ^ 8 * (2 ^ 8 * 2 ^ 8)).
  rewrite <- !Z.div_div by lia. change 256 with (2 ^ 8). lia.
Qed.

(** X3: [read_ivposn] hands the peer identity to the process.  When the
    four bytes at the user address [arg] are accessible, the call returns 0
    and these bytes hold, little endian, the value of the IVPosition
    register; nothing else of the driver state changes. *)
Theorem read_ivposn_copies_register (t : tid) (arg : Z) (s : kstate) :
  user_ok (umem s) arg 4 →
  ∃ s',
    kvm_ivshmem_ioctl t (ioctl_code read_ivposn) arg s = Returned 0 s'
    ∧ le32_value (load_bytes (umem s') arg 4)
      = u32 (readl (regs (kvm_ivshmem_dev s) + IVPosition) s)
    ∧ sema s' = sema s ∧ event_num s' = event_num s
    ∧ wait_queue s' = wait_queue s ∧ mmio s' = mmio s
    ∧ mmio_writes s' = mmio_writes s ∧ shmem s' = shmem s.
Proof.
  intros Hok. unfold kvm_ivshmem_ioctl.
  change (ioctl_of_cmd (ioctl_code read_ivposn)) with (Some read_ivposn).
  cbv zeta.
  rewrite copy_to_user_ok by exact Hok.
  eexists. split; [reflexivity |]. split; [| repeat split].
  cbn [umem set_umem].
  set (v := readl (regs (kvm_ivshmem_dev s) + IVPosition) s).
  change 4%nat with (length (le32 v)).
  rewrite load_store_bytes. apply le32_roundtrip.
Qed.

Lemma user_buffer_ok (n : nat) :
  (n ≤ 16)%nat → user_ok (umem attached_with_buffer) 0x7000 n.
Proof.
  intros Hn i Hi.
  assert (Hcases : i = 0 ∨ i = 1 ∨ i = 2 ∨ i = 3 ∨ i = 4 ∨ i = 5 ∨ i = 6
                   ∨ i = 7 ∨ i = 8 ∨ i = 9 ∨ i = 10 ∨ i = 11 ∨ i = 12
                   ∨ i = 13 ∨ i = 14 ∨ i = 15) by lia.
  repeat (destruct Hcases as [-> | Hcases]; [vm_compute; eexists; reflexivity |]).
  subst i. vm_compute. eexists. reflexivity.
Qed.

Lemma read_ivposn_copies_register_witness :
  user_ok (umem attached_peer_5) 0x7000 4
  ∧ ∃ s', kvm_ivshmem_ioctl 1%nat IOCTL_READ_IV_POSN 0x7000 attached_peer_5
          = Returned 0 s'
          ∧ le32_value (load_bytes (umem s') 0x7000 4) = 5.
Proof.
  assert (Hok : user_ok (umem attached_peer_5) 0x7000 4)
    by (apply user_buffer_ok; lia).
  split; [exact Hok |].
  destruct (read_ivposn_copies_register 1%nat 0x7000 attached_peer_5 Hok)
    as (s' & Hret & Hval & _).
  exists s'. split; [exact Hret | exact Hval].
Defined.

(** ** The semaphore and the event flag over time *)

(** X4: [set_sema] starts the semaphore afresh.  The count becomes the
    argument (modulo 2^32) and the list of sleepers is emptied, so tasks
    already asleep in [down_sema] are forgotten: the next [sema_irq]
    interrupt raises the count instead of completing one of them. *)
Theorem set_sema_forgets_sleepers (t : tid) (c : Z) (sys : system) :
  let armed := step (EvIoctl t (ioctl_code set_sema) c) sys in
  let sys' := step (EvIrq (ioctl_code sema_irq)) armed in
  tokens armed = u32 c ∧ sleepers armed = 0
  ∧ tokens sys' = u32 (u32 c + 1) ∧ sleepers sys' = 0
  ∧ completed_downs sys' = completed_downs sys.
Proof.
  cbv zeta. rewrite step_set_sema.
  rewrite step_irq_sema by reflexivity.
  cbn [kern sema set_sema_var wait_list count].
  unfold tokens, sleepers.
  cbn [kern sema set_sema_var wait_list count returns length].
  split; [reflexivity |]. split; [reflexivity |]. split; [reflexivity |].
  split; [reflexivity |]. rewrite completed_downs_cons. reflexivity.
Qed.

Lemma filter_ne_absent (t : tid) (l : list tid) :
  t ∉ l → filter (λ t', t' ≠ t) l = l.
Proof.
  intros Hnot. induction l as [| x l IH]; [reflexivity |].
  apply not_elem_of_cons in Hnot as [Hne Hnot].
  rewrite filter_cons. destruct (decide (x ≠ t)) as [_ | Heq].
  - rewrite IH by exact Hnot. reflexivity.
  - exfalso. apply Heq. intros ->. apply Hne. reflexivity.
Qed.

Lemma filter_ne_head (t : tid) (l : list tid) :
  t ∉ l → filter (λ t', t' ≠ t) (t :: l) = l.
Proof.
  intros Hnot. rewrite filter_cons.
  destruct (decide (t ≠ t)) as [Hne | _]; [contradiction |].
  apply filter_ne_absent. exact Hnot.
Qed.

(** What a [wait_event] call does to the system. *)
Lemma step_wait_event (t : tid) (arg : Z) (sys : system) :
  step (EvIoctl t (ioctl_code wait_event) arg) sys
  = if event_num (kern sys) =? 1
    then {| kern := set_event_num 0
                      (set_wait_queue
                         (filter (λ t', t' ≠ t) (wait_queue (kern sys)))
                         (kern sys));
            woken := woken sys;
            returns := finished wait_event t :: returns sys |}
    else {| kern := set_wait_queue
                      (filter (λ t', t' ≠ t) (wait_queue (kern sys)) ++ [t])
                      (kern sys);
            woken := woken sys;
            returns := returns sys |}.
Proof.
  unfold step, kvm_ivshmem_ioctl.
  change (ioctl_of_cmd (ioctl_code wait_event)) with (Some wait_event).
  unfold wait_event_interruptible.
  destruct (event_num (kern sys) =? 1); reflexivity.
Qed.

(** What happens when a task woken from [wait_queue] runs. *)
Lemma step_sched (t : tid) (sys : system) :
  t ∈ woken sys →
  step (EvSched t) sys
  = if event_num (kern sys) =? 1
    then {| kern := set_event_num 0
                      (set_wait_queue
                         (filter (λ t', t' ≠ t) (wait_queue (kern sys)))
                         (kern sys));
            woken := filter (λ t', t' ≠ t) (woken sys);
            returns := finished wait_event t :: returns sys |}
    else {| kern := set_wait_queue
                      (filter (λ t', t' ≠ t) (wait_queue (kern sys)) ++ [t])
                      (kern sys);
            woken := filter (λ t', t' ≠ t) (woken sys);
            returns := returns sys |}.
Proof.
  intros Hin. unfold step. rewrite bool_decide_eq_true_2 by exact Hin.
  unfold kvm_ivshmem_ioctl_resume, wait_event_interruptible.
  destruct (event_num (kern sys) =? 1); reflexivity.
Qed.

(** Any number of [wait_event_irq] interrupts in a row leave the flag at
    1, the wait queue empty and the finished calls as they were. *)
Lemma run_event_irqs (n : nat) (sys : system) :
  let sys' := run (replicate (S n) (EvIrq (ioctl_code wait_event_irq))) sys in
  event_num (kern sys') = 1 ∧ wait_queue (kern sys') = []
  ∧ returns sys' = returns sys ∧ sema (kern sys') = sema (kern sys).
Proof.
  cbv zeta. revert sys. induction n as [| n IH]; intros sys.
  - cbn [replicate run]. rewrite step_irq_event by reflexivity.
    repeat split.
  - change (replicate (S (S n)) ?e) with (e :: replicate (S n) e).
    cbn [run]. destruct (IH (step (EvIrq (ioctl_code wait_event_irq)) sys))
      as (H1 & H2 & H3 & H4).
    rewrite H1, H2, H3, H4. rewrite step_irq_event by reflexivity.
    repeat split.
Qed.

(** X5: the event flag does not count.  However many [wait_event_irq]
    interrupts arrive before the next [wait_event] call, that one call
    returns at once and consumes them all: a second [wait_event] call
    sleeps. *)
Theorem event_deliveries_coalesce
    (n : nat) (t t' : tid) (a a' : Z) (sys : system) :
  let sys' :=
    run (replicate (S n) (EvIrq (ioctl_code wait_event_irq))
         ++ [EvIoctl t (ioctl_code wait_event) a;
             EvIoctl t' (ioctl_code wait_event) a']) sys in
  returns sys' = finished wait_event t :: returns sys
  ∧ wait_queue (kern sys') = [t']
  ∧ event_num (kern sys') = 0.
Proof.
  cbv zeta.
  assert (Hrun : ∀ tr1 tr2 x, run (tr1 ++ tr2) x = run tr2 (run tr1 x)).
  { induction tr1 as [| e tr1 IH]; intros tr2 x; [reflexivity | apply IH]. }
  rewrite Hrun.
  destruct (run_event_irqs n sys) as (H1 & H2 & H3 & _).
  set (sys1 := run (replicate (S n) (EvIrq (ioctl_code wait_event_irq))) sys) in *.
  cbn [run]. rewrite (step_wait_event t a sys1), H1.
  change (1 =? 1) with true. cbv iota.
  rewrite step_wait_event. cbn [kern event_num set_event_num set_wait_queue wait_queue returns].
  change (0 =? 1) with false. cbv iota. cbn [kern event_num set_event_num set_wait_queue wait_queue returns].
  rewrite H2, H3. repeat split.
Qed.

Lemma run_app (tr1 tr2 : list event) (sys : system) :
  run (tr1 ++ tr2) sys = run tr2 (run tr1 sys).
Proof. revert sys. induction tr1 as [| e tr1 IH]; intros sys; [reflexivity | apply IH]. Qed.

(** Woken tasks that find no event go back to sleep, in the order in
    which they run. *)
Lemma run_sched_no_event (ts : list tid) (sys : system) :
  event_num (kern sys) ≠ 1 →
  woken sys = ts → NoDup ts →
  (∀ t, t ∈ ts → t ∉ wait_queue (kern sys)) →
  let sys' := run (map EvSched ts) sys in
  woken sys' = [] ∧ wait_queue (kern sys') = wait_queue (kern sys) ++ ts
  ∧ returns sys' = returns sys ∧ event_num (kern sys') = event_num (kern sys)
  ∧ sema (kern sys') = sema (kern sys).
Proof.
  cbv zeta. revert sys.
  induction ts as [| t ts IH]; intros sys Hev Hw Hnd Hwq.
  - cbn [map run]. rewrite app_nil_r. repeat split. exact Hw.
  - cbn [map run]. apply NoDup_cons in Hnd as [Hnot Hnd].
    assert (Hstep : step (EvSched t) sys
                    = {| kern := set_wait_queue (wait_queue (kern sys) ++ [t]) (kern sys);
                         woken := ts; returns := returns sys |}).
    { rewrite step_sched by (rewrite Hw; apply list_elem_of_here).
      destruct (Z.eqb_spec (event_num (kern sys)) 1) as [? | _]; [contradiction |].
      rewrite Hw, filter_ne_head by exact Hnot.
      rewrite filter_ne_absent by (apply Hwq; apply list_elem_of_here).
      reflexivity. }
    rewrite Hstep.
    destruct (IH {| kern := set_wait_queue (wait_queue (kern sys) ++ [t]) (kern sys);
                    woken := ts; returns := returns sys |})
      as (H1 & H2 & H3 & H4 & H5); [exact Hev | reflexivity | exact Hnd | |].
    { intros t' Hin. cbn [kern wait_queue set_wait_queue].
      rewrite elem_of_app, list_elem_of_singleton. intros [Hq | ->].
      - apply (Hwq t'); [apply list_elem_of_further; exact Hin | exact Hq].
      - apply Hnot. exact Hin. }
    rewrite H1, H2, H3, H4, H5. cbn [kern wait_queue set_wait_queue returns].
    rewrite <- app_assoc. repeat split.
Qed.

(** X6: one event serves one waiter.  With the tasks [t :: ts] asleep in
    [wait_event], one [wait_event_irq] interrupt wakes all of them; when
    they then run in turn, the first finds the flag, clears it and returns
    0, and each of the others finds it cleared and goes back to sleep. *)
Theorem one_event_releases_one_waiter (t : tid) (ts : list tid) (sys : system) :
  wait_queue (kern sys) = t :: ts → NoDup (t :: ts) → woken sys = [] →
  let sys1 := step (EvIrq (ioctl_code wait_event_irq)) sys in
  let sys' := run (map EvSched (t :: ts)) sys1 in
  woken sys1 = t :: ts ∧ wait_queue (kern sys1) = [] ∧ event_num (kern sys1) = 1
  ∧ returns sys' = finished wait_event t :: returns sys
  ∧ wait_queue (kern sys') = ts ∧ woken sys' = []
  ∧ event_num (kern sys') = 0.
Proof.
  intros Hwq Hnd Hw. cbv zeta.
  rewrite step_irq_event by reflexivity. rewrite Hwq, Hw.
  cbn [app woken kern wait_queue set_wait_queue event_num set_event_num].
  split; [reflexivity |]. split; [reflexivity |]. split; [reflexivity |].
  apply NoDup_cons in Hnd as [Hnot Hnd].
  cbn [map run]. rewrite step_sched by apply list_elem_of_here.
  cbn [woken kern wait_queue set_wait_queue event_num set_event_num returns].
  change (1 =? 1) with true. cbv iota.
  rewrite filter_ne_head by exact Hnot.
  match goal with |- context [run _ ?x] => set (sys2 := x) end.
  destruct (run_sched_no_event ts sys2) as (H1 & H2 & H3 & H4 & _);
    [discriminate | reflexivity | exact Hnd | intros t' _; apply not_elem_of_nil |].
  rewrite H1, H2, H3, H4. repeat split.
Qed.

Lemma one_event_releases_one_waiter_witness :
  let sys :=
    run [EvIoctl 1%nat (ioctl_code wait_event) 0;
         EvIoctl 2%nat (ioctl_code wait_event) 0] (boot attached) in
  wait_queue (kern sys) = [1%nat; 2%nat] ∧ NoDup [1%nat; 2%nat]
  ∧ woken sys = []
  ∧ returns (run (EvIrq (ioctl_code wait_event_irq)
                  :: map EvSched [1%nat; 2%nat]) sys)
    = [finished wait_event 1%nat]
  ∧ wait_queue (kern (run (EvIrq (ioctl_code wait_event_irq)
                           :: map EvSched [1%nat; 2%nat]) sys))
    = [2%nat].
Proof.
  set (sys := run [EvIoctl 1%nat (ioctl_code wait_event) 0;
                   EvIoctl 2%nat (ioctl_code wait_event) 0] (boot attached)).
  cbv zeta.
  assert (Hwq : wait_queue (kern sys) = [1%nat; 2%nat]) by reflexivity.
  assert (Hnd : NoDup [1%nat; 2%nat]).
  { apply NoDup_cons. split; [| apply NoDup_singleton].
    rewrite list_elem_of_singleton. discriminate. }
  assert (Hw : woken sys = []) by reflexivity.
  split; [exact Hwq |]. split; [exact Hnd |]. split; [exact Hw |].
  destruct (one_event_releases_one_waiter 1%nat [2%nat] sys Hwq Hnd Hw)
    as (_ & _ & _ & Hret & Hq & _).
  split; [exact Hret | exact Hq].
Defined.

(** X8: the semaphore is first in, first out.  With the tasks [ts] asleep
    in [down_sema], [k] [sema_irq] interrupts complete the [down] of the
    [k] oldest sleepers, oldest first, and leave the others asleep and the
    count untouched. *)
Theorem sema_releases_oldest_first (k : nat) (ts : list tid) (sys : system) :
  wait_list (sema (kern sys)) = ts → (k ≤ length ts)%nat →
  let sys' := run (replicate k (EvIrq (ioctl_code sema_irq))) sys in
  returns sys' = reverse (map (finished down_sema) (take k ts)) ++ returns sys
  ∧ wait_list (sema (kern sys')) = drop k ts
  ∧ tokens sys' = tokens sys.
Proof.
  cbv zeta. revert ts sys. induction k as [| k IH]; intros ts sys Hts Hk.
  - cbn [replicate run take drop map]. rewrite Hts. repeat split.
  - destruct ts as [| t ts]; [simpl in Hk; lia |].
    cbn [replicate run]. rewrite step_irq_sema by reflexivity. rewrite Hts.
    match goal with |- context [run _ ?x] => set (sys1 := x) end.
    destruct (IH ts sys1) as (H1 & H2 & H3); [reflexivity | simpl in Hk; lia |].
    rewrite H1, H2, H3. cbn [take drop map]. rewrite reverse_cons, <- app_assoc.
    repeat split.
Qed.

Lemma sema_releases_oldest_first_witness :
  let sys :=
    run [EvIoctl 1%nat (ioctl_code down_sema) 0;
         EvIoctl 2%nat (ioctl_code down_sema) 0;
         EvIoctl 3%nat (ioctl_code down_sema) 0] (boot attached) in
  wait_list (sema (kern sys)) = [1%nat; 2%nat; 3%nat] ∧ (2 ≤ 3)%nat
  ∧ returns (run (replicate 2 (EvIrq (ioctl_code sema_irq))) sys)
    = [finished down_sema 2%nat; finished down_sema 1%nat]
  ∧ wait_list (sema (kern (run (replicate 2 (EvIrq (ioctl_code sema_irq))) sys)))
    = [3%nat].
Proof.
  set (sys := run [EvIoctl 1%nat (ioctl_code down_sema) 0;
                   EvIoctl 2%nat (ioctl_code down_sema) 0;
                   EvIoctl 3%nat (ioctl_code down_sema) 0] (boot attached)).
  cbv zeta.
  assert (Hts : wait_list (sema (kern sys)) = [1%nat; 2%nat; 3%nat]) by reflexivity.
  assert (Hk : (2 ≤ length [1%nat; 2%nat; 3%nat])%nat) by (simpl; lia).
  split; [exact Hts |]. split; [lia |].
  destruct (sema_releases_oldest_first 2 [1%nat; 2%nat; 3%nat] sys Hts Hk)
    as (Hret & Hwl & _).
  split; [exact Hret | exact Hwl].
Defined.

Lemma completed_downs_settle (t : tid) (c : option ivshmem_ioctl)
    (by_signal : bool) (r : ioctl_result) (w : list tid) (sys : system) :
  completed_downs (settle t c by_signal r w (returns sys))
  = match r with
    | Returned _ _ =>
        (if down_completed {| c_task := t; c_cmd := c; c_signal := by_signal;
                              c_ret := 0 |} then 1 else 0)
        + completed_downs sys
    | Sleeping _ _ => completed_downs sys
    end.
Proof.
  destruct r as [rv s | pc s]; [| reflexivity].
  unfold settle. rewrite completed_downs_cons. reflexivity.
Qed.

Lemma tokens_settle (t : tid) (c : option ivshmem_ioctl)
    (by_signal : bool) (r : ioctl_result) (w : list tid) (done : list completion) :
  tokens (settle t c by_signal r w done) = count (sema (result_state r)).
Proof. destruct r; reflexivity. Qed.

(** A call other than [set_sema] and [down_sema] leaves the semaphore
    alone. *)
Lemma ioctl_other_keeps_sema (t : tid) (cmd arg : Z) (s : kstate) :
  cmd ≠ ioctl_code set_sema → cmd ≠ ioctl_code down_sema →
  sema (result_state (kvm_ivshmem_ioctl t cmd arg s)) = sema s.
Proof.
  intros N0 N1. unfold kvm_ivshmem_ioctl.
  destruct (ioctl_of_cmd cmd) as [c |] eqn:Hc; [| reflexivity].
  apply ioctl_of_cmd_code in Hc. subst cmd.
  destruct c; try contradiction; try reflexivity.
  - unfold wait_event_interruptible. destruct (event_num s =? 1); reflexivity.
  - cbv zeta. destruct (copy_to_user arg _ (umem s)) as [rv um']. reflexivity.
Qed.

Lemma resume_wait_keeps_sema (t : tid) (by_signal : bool) (s : kstate) :
  sema (result_state (kvm_ivshmem_ioctl_resume t PcWaitEvent by_signal s))
  = sema s.
Proof.
  unfold kvm_ivshmem_ioctl_resume, wait_event_interruptible.
  destruct (event_num s =? 1); [reflexivity |].
  destruct by_signal; reflexivity.
Qed.

(** One event, other than a [set_sema] call: the sum of the completed
    downs and the count goes up by one on a delivery and is unchanged
    otherwise. *)
Lemma step_keeps_balance (e : event) (sys : system) :
  is_set_sema e = false →
  0 ≤ tokens sys →
  tokens sys + (if is_delivery e then 1 else 0) < 2 ^ 32 →
  completed_downs (step e sys) + tokens (step e sys)
  = completed_downs sys + tokens sys + (if is_delivery e then 1 else 0)
  ∧ 0 ≤ tokens (step e sys) ≤ tokens sys + (if is_delivery e then 1 else 0).
Proof.
  intros Hset Hpos Hmax.
  destruct e as [t cmd arg | status | t | t].
  - (* a call *)
    simpl in Hset. apply Z.eqb_neq in Hset. cbn [is_delivery] in Hmax |- *.
    destruct (Z.eq_dec cmd (ioctl_code down_sema)) as [-> | N1].
    + destruct (step_down_call t arg sys) as [Hgo Hsleep].
      destruct (Z.lt_ge_cases 0 (tokens sys)) as [Hlt | Hge].
      * destruct (Hgo Hlt) as (Ht & _ & Hc). lia.
      * destruct (Hsleep Hge) as (Ht & _ & Hc). lia.
    + unfold step. rewrite completed_downs_settle, tokens_settle.
      rewrite ioctl_other_keeps_sema by assumption.
      fold (tokens sys).
      assert (Hnd : down_completed
                      {| c_task := t; c_cmd := ioctl_of_cmd cmd;
                         c_signal := false; c_ret := 0 |} = false).
      { unfold down_completed. cbn [c_cmd].
        destruct (ioctl_of_cmd cmd) as [c |] eqn:Hc; [| reflexivity].
        apply ioctl_of_cmd_code in Hc. destruct c; try reflexivity.
        contradiction. }
      rewrite Hnd. destruct (kvm_ivshmem_ioctl t cmd arg (kern sys)); lia.
  - (* an interrupt *)
    unfold is_delivery in Hmax |- *.
    destruct (Z.eqb_spec (u32 status) (ioctl_code sema_irq)) as [E7 | N7].
    + destruct (step_delivery status sys E7) as [Hnone Hsome].
      assert (Hsl : 0 ≤ sleepers sys) by (unfold sleepers; lia).
      destruct (Z.eq_dec (sleepers sys) 0) as [Hz | Hnz].
      * destruct (Hnone Hz) as (Ht & _ & Hc).
        rewrite u32_small in Ht by lia. lia.
      * destruct (Hsome ltac:(lia)) as (Ht & _ & Hc). lia.
    + unfold step. cbv zeta. unfold kvm_ivshmem_interrupt.
      rewrite readl_latched.
      destruct ((u32 status =? 0) || (u32 status =? 0xFFFFFFFF));
        [cbn; unfold tokens, completed_downs in *; cbn; lia |].
      destruct (Z.eqb_spec (u32 status) (ioctl_code sema_irq)) as [? | _];
        [contradiction |].
      destruct (u32 status =? ioctl_code wait_event_irq);
        cbn; unfold tokens, completed_downs in *; cbn; lia.
  - (* a signal *)
    cbn [is_delivery] in Hmax |- *. unfold step.
    destruct (bool_decide (t ∈ wait_list (sema (kern sys)))).
    + rewrite completed_downs_settle, tokens_settle. cbn. fold (tokens sys). lia.
    + destruct (bool_decide (t ∈ wait_queue (kern sys)) || bool_decide (t ∈ woken sys));
        [| lia].
      rewrite completed_downs_settle, tokens_settle, resume_wait_keeps_sema.
      fold (tokens sys).
      destruct (kvm_ivshmem_ioctl_resume t PcWaitEvent true (kern sys)); cbn; lia.
  - (* a woken task runs *)
    cbn [is_delivery] in Hmax |- *. unfold step.
    destruct (bool_decide (t ∈ woken sys)); [| lia].
    rewrite completed_downs_settle, tokens_settle, resume_wait_keeps_sema.
    fold (tokens sys).
    destruct (kvm_ivshmem_ioctl_resume t PcWaitEvent false (kern sys)); cbn; lia.
Qed.

(** X7: no unit of the semaphore is lost or made up.  Along every
    sequence of events without a [set_sema] call (calls of any command by
    any task, interrupts of any status, signals, wake-ups), as long as the
    32-bit count does not overflow, the number of completed downs plus the
    count is its initial value plus the number of [sema_irq] deliveries.
    In particular a [down] that a signal cuts short takes no unit. *)
Theorem sema_units_are_conserved (tr : list event) (sys : system) :
  Forall (λ e, is_set_sema e = false) tr →
  0 ≤ tokens sys →
  tokens sys + deliveries tr < 2 ^ 32 →
  completed_downs (run tr sys) + tokens (run tr sys)
  = completed_downs sys + tokens sys + deliveries tr
  ∧ 0 ≤ tokens (run tr sys).
Proof.
  revert sys. induction tr as [| e tr IH]; intros sys Hno Hpos Hmax.
  - cbn [run]. unfold deliveries. simpl. lia.
  - apply Forall_cons in Hno as [He Hno].
    rewrite deliveries_cons in Hmax |- *.
    pose proof (deliveries_nonneg tr) as Hd.
    destruct (step_keeps_balance e sys He Hpos) as [Hb Hp];
      [destruct (is_delivery e); lia |].
    cbn [run].
    destruct (IH (step e sys) Hno (proj1 Hp)) as [Hb' Hp']; [lia |].
    split; [lia | exact Hp'].
Qed.

Lemma sema_units_are_conserved_witness :
  let tr := [EvIoctl 1%nat (ioctl_code down_sema) 0; EvSignal 1%nat;
             EvIrq (ioctl_code sema_irq);
             EvIoctl 2%nat (ioctl_code wait_event) 0;
             EvIrq (ioctl_code wait_event_irq); EvSched 2%nat;
             EvIoctl 3%nat (ioctl_code down_sema) 0] in
  Forall (λ e, is_set_sema e = false) tr
  ∧ 0 ≤ tokens (boot attached)
  ∧ tokens (boot attached) + deliveries tr < 2 ^ 32
  ∧ completed_downs (run tr (boot attached)) + tokens (run tr (boot attached))
    = 1.
Proof.
  set (tr := [EvIoctl 1%nat (ioctl_code down_sema) 0; EvSignal 1%nat;
              EvIrq (ioctl_code sema_irq);
              EvIoctl 2%nat (ioctl_code wait_event) 0;
              EvIrq (ioctl_code wait_event_irq); EvSched 2%nat;
              EvIoctl 3%nat (ioctl_code down_sema) 0]).
  cbv zeta.
  assert (Hno : Forall (λ e, is_set_sema e = false) tr).
  { unfold tr. repeat (constructor; [reflexivity |]). constructor. }
  assert (Hpos : 0 ≤ tokens (boot attached)) by (vm_compute; discriminate).
  assert (Hmax : tokens (boot attached) + deliveries tr < 2 ^ 32)
    by (vm_compute; reflexivity).
  split; [exact Hno |]. split; [exact Hpos |]. split; [exact Hmax |].
  exact (proj1 (sema_units_are_conserved tr (boot attached) Hno Hpos Hmax)).
Defined.

(** ** Reading, writing and seeking *)

Lemma load_bytes_lookup (m : gmap Z Z) (a : Z) (n i : nat) :
  (i < n)%nat →
  load_bytes m a n !! i = Some (default 0 (m !! (a + Z.of_nat i))).
Proof.
  revert a i. induction n as [| n IH]; intros a i Hi; [lia |].
  destruct i as [| i]; simpl.
  - rewrite Z.add_0_r. reflexivity.
  - rewrite IH by lia. do 3 f_equal. lia.
Qed.

Lemma store_bytes_outside (bs : list Z) (m : gmap Z Z) (a a' : Z) :
  a' < a ∨ a + Z.of_nat (length bs) ≤ a' →
  store_bytes m a bs !! a' = m !! a'.
Proof.
  revert m a. induction bs as [| b bs IH]; intros m a Hout; simpl.
  - reflexivity.
  - rewrite IH by (simpl in Hout; lia).
    apply lookup_insert_ne. simpl in Hout. lia.
Qed.

(** X9: a read inside the window.  For a mapped window of size [S], a
    position [0 <= poffset <= S] and an accessible user buffer, [read]
    returns [n = min len (S - poffset)], advances the position by [n], and
    stores at the buffer the [n] bytes of the window from [poffset] on;
    user memory outside the buffer, the window and the rest of the driver
    state are untouched. *)
Theorem read_copies_window_to_user (buffer len poffset : Z) (s : kstate) :
  let dev := kvm_ivshmem_dev s in
  let n := Z.min len (ioaddr_size dev - poffset) in
  base_addr dev ≠ 0 →
  0 ≤ ioaddr_size dev < 2 ^ 32 →
  0 ≤ poffset ≤ ioaddr_size dev →
  0 ≤ len < 2 ^ 63 →
  user_ok (umem s) buffer (Z.to_nat n) →
  ∃ s', kvm_ivshmem_read buffer len poffset s = (n, poffset + n, s')
        ∧ load_bytes (umem s') buffer (Z.to_nat n)
          = load_bytes (shmem s) (u64 (base_addr dev + poffset)) (Z.to_nat n)
        ∧ (∀ a, a < buffer ∨ buffer + n ≤ a → umem s' !! a = umem s !! a)
        ∧ shmem s' = shmem s ∧ sema s' = sema s ∧ event_num s' = event_num s
        ∧ mmio_writes s' = mmio_writes s
        ∧ kvm_ivshmem_dev s' = kvm_ivshmem_dev s.
Proof.
  intros dev n Hbase HS Hoff Hlen Hok. unfold kvm_ivshmem_read. fold dev.
  destruct (Z.eqb_spec (base_addr dev) 0) as [? | _]; [contradiction |].
  rewrite (u64_small poffset) by lia.
  rewrite (u64_small (ioaddr_size dev - poffset)) by lia.
  assert (Hn : (if len >? ioaddr_size dev - poffset
                then ioaddr_size dev - poffset else len) = n).
  { unfold n. destruct (Z.gtb_spec len (ioaddr_size dev - poffset)); lia. }
  rewrite Hn.
  destruct (Z.eqb_spec n 0) as [E0 | N0].
  - exists s. rewrite E0, Z.add_0_r. repeat split.
  - rewrite copy_to_user_ok by (rewrite length_load_bytes; exact Hok).
    change (s32 0 >? 0) with false. cbv iota.
    rewrite s64_small by lia. rewrite s64_small by lia.
    eexists. split; [reflexivity |]. cbn [umem set_umem shmem sema event_num
      mmio_writes kvm_ivshmem_dev].
    split; [| split; [| repeat split]].
    + set (bs := load_bytes (shmem s) (u64 (base_addr dev + poffset))
                   (Z.to_nat n)).
      replace (Z.to_nat n) with (length bs) by apply length_load_bytes.
      apply load_store_bytes.
    + intros a Ha. apply store_bytes_outside.
      rewrite length_load_bytes. lia.
Qed.

Lemma read_copies_window_to_user_witness :
  let s := attached_with_buffer in
  base_addr (kvm_ivshmem_dev s) ≠ 0
  ∧ 0 ≤ ioaddr_size (kvm_ivshmem_dev s) < 2 ^ 32
  ∧ 0 ≤ 4090 ≤ ioaddr_size (kvm_ivshmem_dev s)
  ∧ 0 ≤ 16 < 2 ^ 63
  ∧ user_ok (umem s) 0x7000 6
  ∧ ∃ s', kvm_ivshmem_read 0x7000 16 4090 s = (6, 4096, s').
Proof.
  cbv zeta.
  assert (H1 : base_addr (kvm_ivshmem_dev attached_with_buffer) ≠ 0) by discriminate.
  assert (H2 : 0 ≤ ioaddr_size (kvm_ivshmem_dev attached_with_buffer) < 2 ^ 32)
    by (change (ioaddr_size (kvm_ivshmem_dev attached_with_buffer)) with 4096; lia).
  assert (H3 : 0 ≤ 4090 ≤ ioaddr_size (kvm_ivshmem_dev attached_with_buffer))
    by (change (ioaddr_size (kvm_ivshmem_dev attached_with_buffer)) with 4096; lia).
  assert (H4 : 0 ≤ 16 < 2 ^ 63) by lia.
  assert (H5 : user_ok (umem attached_with_buffer) 0x7000 6)
    by (apply user_buffer_ok; lia).
  split; [exact H1 |]. split; [exact H2 |]. split; [exact H3 |].
  split; [exact H4 |]. split; [exact H5 |].
  destruct (read_copies_window_to_user 0x7000 16 4090 attached_with_buffer
              H1 H2 H3 H4 H5) as (s' & Hr & _).
  exists s'. exact Hr.
Defined.

Lemma copy_from_user_ok_bytes (n : nat) (from : Z) (um : gmap Z Z) :
  user_ok um from n → copy_from_user from n um = (0, load_bytes um from n).
Proof.
  revert from. induction n as [| n IH]; intros from Hok; simpl.
  - reflexivity.
  - destruct (user_ok_head _ _ _ Hok) as [v Hv]. rewrite Hv.
    rewrite IH; [reflexivity |].
    intros i Hi. replace (from + 1 + i) with (from + (i + 1)) by lia.
    apply Hok. lia.
Qed.

(** X10: a write inside the window.  Under the same conditions [write]
    returns [n = min len (S - poffset)], advances the position by [n] and
    stores the first [n] bytes of the user buffer into the window at
    [poffset]; the bytes of the window outside that range, user memory and
    the rest of the driver state are untouched. *)
Theorem write_copies_user_to_window (buffer len poffset : Z) (s : kstate) :
  let dev := kvm_ivshmem_dev s in
  let n := Z.min len (ioaddr_size dev - poffset) in
  let addr := u64 (base_addr dev + poffset) in
  base_addr dev ≠ 0 →
  0 ≤ ioaddr_size dev < 2 ^ 32 →
  0 ≤ poffset ≤ ioaddr_size dev →
  0 ≤ len < 2 ^ 63 →
  user_ok (umem s) buffer (Z.to_nat n) →
  ∃ s', kvm_ivshmem_write buffer len poffset s = (n, poffset + n, s')
        ∧ load_bytes (shmem s') addr (Z.to_nat n)
          = load_bytes (umem s) buffer (Z.to_nat n)
        ∧ (∀ a, a < addr ∨ addr + n ≤ a → shmem s' !! a = shmem s !! a)
        ∧ umem s' = umem s ∧ sema s' = sema s ∧ event_num s' = event_num s
        ∧ mmio_writes s' = mmio_writes s
        ∧ kvm_ivshmem_dev s' = kvm_ivshmem_dev s.
Proof.
  intros dev n addr Hbase HS Hoff Hlen Hok. unfold kvm_ivshmem_write. fold dev.
  destruct (Z.eqb_spec (base_addr dev) 0) as [? | _]; [contradiction |].
  rewrite (u64_small poffset) by lia.
  rewrite (u64_small (ioaddr_size dev - poffset)) by lia.
  assert (Hn : (if len >? ioaddr_size dev - poffset
                then ioaddr_size dev - poffset else len) = n).
  { unfold n. destruct (Z.gtb_spec len (ioaddr_size dev - poffset)); lia. }
  rewrite Hn. fold addr.
  destruct (Z.eqb_spec n 0) as [E0 | N0].
  - exists s. rewrite E0, Z.add_0_r. repeat split.
  - rewrite copy_from_user_ok_bytes by exact Hok.
    change (s32 0 >? 0) with false. cbv iota.
    rewrite s64_small by lia. rewrite s64_small by lia.
    eexists. split; [reflexivity |].
    cbn [umem set_shmem shmem sema event_num mmio_writes kvm_ivshmem_dev].
    split; [| split; [| repeat split]].
    + set (bs := load_bytes (umem s) buffer (Z.to_nat n)).
      replace (Z.to_nat n) with (length bs) by apply length_load_bytes.
      apply load_store_bytes.
    + intros a Ha. apply store_bytes_outside.
      rewrite length_load_bytes. lia.
Qed.

Lemma write_copies_user_to_window_witness :
  let s := attached_with_buffer in
  base_addr (kvm_ivshmem_dev s) ≠ 0
  ∧ 0 ≤ ioaddr_size (kvm_ivshmem_dev s) < 2 ^ 32
  ∧ 0 ≤ 4090 ≤ ioaddr_size (kvm_ivshmem_dev s)
  ∧ 0 ≤ 16 < 2 ^ 63
  ∧ user_ok (umem s) 0x7000 6
  ∧ ∃ s', kvm_ivshmem_write 0x7000 16 4090 s = (6, 4096, s')
          ∧ load_bytes (shmem s') (0x100000 + 4090) 6 = replicate 6 0x11.
Proof.
  cbv zeta.
  assert (H1 : base_addr (kvm_ivshmem_dev attached_with_buffer) ≠ 0) by discriminate.
  assert (H2 : 0 ≤ ioaddr_size (kvm_ivshmem_dev attached_with_buffer) < 2 ^ 32)
    by (change (ioaddr_size (kvm_ivshmem_dev attached_with_buffer)) with 4096; lia).
  assert (H3 : 0 ≤ 4090 ≤ ioaddr_size (kvm_ivshmem_dev attached_with_buffer))
    by (change (ioaddr_size (kvm_ivshmem_dev attached_with_buffer)) with 4096; lia).
  assert (H4 : 0 ≤ 16 < 2 ^ 63) by lia.
  assert (H5 : user_ok (umem attached_with_buffer) 0x7000 6)
    by (apply user_buffer_ok; lia).
  split; [exact H1 |]. split; [exact H2 |]. split; [exact H3 |].
  split; [exact H4 |]. split; [exact H5 |].
  destruct (write_copies_user_to_window 0x7000 16 4090 attached_with_buffer
              H1 H2 H3 H4 H5) as (s' & Hw & Hb & _).
  exists s'. split; [exact Hw | exact Hb].
Defined.

(** X11: what is written can be read back.  For [pos + len <= S], writing
    [len] bytes from the user buffer [src] at position [pos] and then
    reading [len] bytes at [pos] into the user buffer [dst] both transfer
    [len] bytes, and [dst] then holds the bytes [src] held. *)
Theorem write_then_read_round_trip (src dst len pos : Z) (s : kstate) :
  let dev := kvm_ivshmem_dev s in
  base_addr dev ≠ 0 →
  0 ≤ ioaddr_size dev < 2 ^ 32 →
  0 ≤ pos → 0 ≤ len → pos + len ≤ ioaddr_size dev →
  user_ok (umem s) src (Z.to_nat len) →
  user_ok (umem s) dst (Z.to_nat len) →
  ∃ s1 s2,
    kvm_ivshmem_write src len pos s = (len, pos + len, s1)
    ∧ kvm_ivshmem_read dst len pos s1 = (len, pos + len, s2)
    ∧ load_bytes (umem s2) dst (Z.to_nat len)
      = load_bytes (umem s) src (Z.to_nat len).
Proof.
  intros dev Hbase Hsize Hpos Hlen Hfit Hsrc Hdst. subst dev.
  set (size := ioaddr_size (kvm_ivshmem_dev s)) in *.
  assert (Hn : Z.min len (size - pos) = len) by lia.
  assert (Hif : (if len >? size - pos then size - pos else len) = len).
  { destruct (Z.gtb_spec len (size - pos)); lia. }
  (* the write *)
  assert (Hw : ∃ s1,
    kvm_ivshmem_write src len pos s = (len, pos + len, s1)
    ∧ kvm_ivshmem_dev s1 = kvm_ivshmem_dev s ∧ umem s1 = umem s
    ∧ load_bytes (shmem s1) (u64 (base_addr (kvm_ivshmem_dev s) + pos))
        (Z.to_nat len)
      = load_bytes (umem s) src (Z.to_nat len)).
  { unfold kvm_ivshmem_write. fold size.
    destruct (Z.eqb_spec (base_addr (kvm_ivshmem_dev s)) 0) as [? | _];
      [contradiction |].
    rewrite (u64_small pos) by lia. rewrite (u64_small (size - pos)) by lia.
    rewrite Hif.
    destruct (Z.eqb_spec len 0) as [E0 | N0].
    - exists s. rewrite E0, Z.add_0_r. repeat split.
    - rewrite copy_from_user_ok_bytes by exact Hsrc.
      change (s32 0 >? 0) with false. cbv iota.
      rewrite s64_small by lia. rewrite s64_small by lia.
      eexists. split; [reflexivity |]. split; [reflexivity |].
      split; [reflexivity |]. cbn [shmem set_shmem].
      set (bs := load_bytes (umem s) src (Z.to_nat len)).
      replace (Z.to_nat len) with (length bs) by apply length_load_bytes.
      apply load_store_bytes. }
  destruct Hw as (s1 & Hw & Hdev & Hum & Hbytes).
  destruct (read_within_window dst len pos s1) as (s2 & Hr & Hb & _);
    [rewrite Hdev; exact Hbase | rewrite Hdev; fold size; lia
    | rewrite Hdev; fold size; lia | lia
    | rewrite Hdev, Hum; fold size; rewrite Hn; exact Hdst |].
  rewrite Hdev in Hr, Hb. fold size in Hr, Hb. rewrite Hn in Hr, Hb.
  exists s1, s2. split; [exact Hw |]. split; [exact Hr |].
  rewrite Hb. exact Hbytes.
Qed.

Lemma write_then_read_round_trip_witness :
  let s := attached_with_buffer in
  base_addr (kvm_ivshmem_dev s) ≠ 0
  ∧ 0 ≤ ioaddr_size (kvm_ivshmem_dev s) < 2 ^ 32
  ∧ 0 ≤ 100 ∧ 0 ≤ 8 ∧ 100 + 8 ≤ ioaddr_size (kvm_ivshmem_dev s)
  ∧ user_ok (umem s) 0x7000 8 ∧ user_ok (umem s) 0x7008 8
  ∧ ∃ s1 s2,
      kvm_ivshmem_write 0x7000 8 100 s = (8, 108, s1)
      ∧ kvm_ivshmem_read 0x7008 8 100 s1 = (8, 108, s2)
      ∧ load_bytes (umem s2) 0x7008 8 = replicate 8 0x11.
Proof.
  cbv zeta.
  assert (H1 : base_addr (kvm_ivshmem_dev attached_with_buffer) ≠ 0) by discriminate.
  assert (H2 : 0 ≤ ioaddr_size (kvm_ivshmem_dev attached_with_buffer) < 2 ^ 32)
    by (change (ioaddr_size (kvm_ivshmem_dev attached_with_buffer)) with 4096; lia).
  assert (H3 : 0 ≤ 100) by lia.
  assert (H4 : 0 ≤ 8) by lia.
  assert (H5 : 100 + 8 ≤ ioaddr_size (kvm_ivshmem_dev attached_with_buffer))
    by (change (ioaddr_size (kvm_ivshmem_dev attached_with_buffer)) with 4096; lia).
  assert (H6 : user_ok (umem attached_with_buffer) 0x7000 8)
    by (apply user_buffer_ok; lia).
  assert (H7 : user_ok (umem attached_with_buffer) 0x7008 8).
  { intros i Hi. replace (0x7008 + i) with (0x7000 + (8 + i)) by lia.
    apply (user_buffer_ok 16); lia. }
  split; [exact H1 |]. split; [exact H2 |]. split; [exact H3 |].
  split; [exact H4 |]. split; [exact H5 |]. split; [exact H6 |].
  split; [exact H7 |].
  destruct (write_then_read_round_trip 0x7000 0x7008 8 100 attached_with_buffer
              H1 H2 H3 H4 H5 H6 H7) as (s1 & s2 & Hw & Hr & Hb).
  exists s1, s2. split; [exact Hw |]. split; [exact Hr | exact Hb].
Defined.

Lemma copy_to_user_fault (src : list Z) (to : Z) (um : gmap Z Z) :
  (∃ i, 0 ≤ i < Z.of_nat (length src) ∧ um !! (to + i) = None) →
  0 < (copy_to_user to src um).1 ≤ Z.of_nat (length src).
Proof.
  revert to um. induction src as [| b src IH]; intros to um (i & Hi & Hnone).
  - simpl in Hi. lia.
  - simpl. destruct (um !! to) as [v |] eqn:Hto.
    + destruct (Z.eq_dec i 0) as [-> | Hi0].
      * rewrite Z.add_0_r in Hnone. congruence.
      * assert (Hrec : 0 < (copy_to_user (to + 1) src (<[to := b]> um)).1
                       ≤ Z.of_nat (length src)).
        { apply IH. exists (i - 1). split; [simpl in Hi; lia |].
          rewrite lookup_insert_ne by lia.
          replace (to + 1 + (i - 1)) with (to + i) by lia. exact Hnone. }
        simpl length. lia.
    + simpl. lia.
Qed.

Lemma copy_from_user_fault (n : nat) (from : Z) (um : gmap Z Z) :
  (∃ i, 0 ≤ i < Z.of_nat n ∧ um !! (from + i) = None) →
  0 < (copy_from_user from n um).1 ≤ Z.of_nat n.
Proof.
  revert from. induction n as [| n IH]; intros from (i & Hi & Hnone).
  - lia.
  - simpl. destruct (um !! from) as [v |] eqn:Hfrom.
    + destruct (Z.eq_dec i 0) as [-> | Hi0].
      * rewrite Z.add_0_r in Hnone. congruence.
      * assert (Hrec : 0 < (copy_from_user (from + 1) n um).1 ≤ Z.of_nat n).
        { apply IH. exists (i - 1). split; [lia |].
          replace (from + 1 + (i - 1)) with (from + i) by lia. exact Hnone. }
        destruct (copy_from_user (from + 1) n um) as [r bs]. simpl in *. lia.
    + simpl. lia.
Qed.

(** X12: a buffer that faults.  For a mapped window, a position inside it
    and a request of fewer than 2^31 bytes, if one of the
    [n = min len (S - poffset)] bytes of the user buffer is not accessible,
    [read] and [write] return [-EFAULT] and leave the position where it
    was; [read] leaves the window untouched and [write] leaves user memory
    untouched. *)
Theorem fault_gives_EFAULT (buffer len poffset : Z) (s : kstate) :
  let dev := kvm_ivshmem_dev s in
  let n := Z.min len (ioaddr_size dev - poffset) in
  base_addr dev ≠ 0 →
  0 ≤ ioaddr_size dev < 2 ^ 32 →
  0 ≤ poffset ≤ ioaddr_size dev →
  0 ≤ len < 2 ^ 31 →
  (∃ i, 0 ≤ i < n ∧ umem s !! (buffer + i) = None) →
  (∃ s', kvm_ivshmem_read buffer len poffset s = (- EFAULT, poffset, s')
         ∧ shmem s' = shmem s)
  ∧ (∃ s', kvm_ivshmem_write buffer len poffset s = (- EFAULT, poffset, s')
           ∧ umem s' = umem s).
Proof.
  intros dev n Hbase Hsize Hoff Hlen (i & Hi & Hnone).
  assert (Hn : (if len >? ioaddr_size dev - poffset
                then ioaddr_size dev - poffset else len) = n).
  { unfold n. destruct (Z.gtb_spec len (ioaddr_size dev - poffset)); lia. }
  assert (Hs32 : ∀ r, 0 < r ≤ n → (s32 r >? 0) = true).
  { intros r Hr. unfold s32. rewrite Z.mod_small by lia.
    destruct (Z.ltb_spec r (2 ^ 31)); [| lia].
    destruct (Z.gtb_spec r 0); [reflexivity | lia]. }
  split.
  - unfold kvm_ivshmem_read. fold dev.
    destruct (Z.eqb_spec (base_addr dev) 0) as [? | _]; [contradiction |].
    rewrite (u64_small poffset) by lia.
    rewrite (u64_small (ioaddr_size dev - poffset)) by lia.
    rewrite Hn.
    destruct (Z.eqb_spec n 0) as [E0 | N0]; [lia |].
    pose proof (copy_to_user_fault
                  (load_bytes (shmem s) (u64 (base_addr dev + poffset)) (Z.to_nat n))
                  buffer (umem s)) as Hf.
    rewrite length_load_bytes, Z2Nat.id in Hf by lia.
    specialize (Hf (ex_intro _ i (conj Hi Hnone))).
    destruct (copy_to_user buffer _ (umem s)) as [r um'].
    cbn [fst] in Hf. rewrite (Hs32 r Hf).
    eexists. split; reflexivity.
  - unfold kvm_ivshmem_write. fold dev.
    destruct (Z.eqb_spec (base_addr dev) 0) as [? | _]; [contradiction |].
    rewrite (u64_small poffset) by lia.
    rewrite (u64_small (ioaddr_size dev - poffset)) by lia.
    rewrite Hn.
    destruct (Z.eqb_spec n 0) as [E0 | N0]; [lia |].
    pose proof (copy_from_user_fault (Z.to_nat n) buffer (umem s)) as Hf.
    rewrite Z2Nat.id in Hf by lia.
    specialize (Hf (ex_intro _ i (conj Hi Hnone))).
    destruct (copy_from_user buffer (Z.to_nat n) (umem s)) as [r bs].
    cbn [fst] in Hf. rewrite (Hs32 r Hf).
    eexists. split; reflexivity.
Qed.

Lemma fault_gives_EFAULT_witness :
  let s := attached in
  base_addr (kvm_ivshmem_dev s) ≠ 0
  ∧ 0 ≤ ioaddr_size (kvm_ivshmem_dev s) < 2 ^ 32
  ∧ 0 ≤ 0 ≤ ioaddr_size (kvm_ivshmem_dev s)
  ∧ 0 ≤ 16 < 2 ^ 31
  ∧ (kvm_ivshmem_read 0x7000 16 0 s).1 = (- EFAULT, 0)
  ∧ (kvm_ivshmem_write 0x7000 16 0 s).1 = (- EFAULT, 0).
Proof.
  cbv zeta.
  assert (H1 : base_addr (kvm_ivshmem_dev attached) ≠ 0) by discriminate.
  assert (H2 : 0 ≤ ioaddr_size (kvm_ivshmem_dev attached) < 2 ^ 32)
    by (change (ioaddr_size (kvm_ivshmem_dev attached)) with 4096; lia).
  assert (H3 : 0 ≤ 0 ≤ ioaddr_size (kvm_ivshmem_dev attached))
    by (change (ioaddr_size (kvm_ivshmem_dev attached)) with 4096; lia).
  assert (H4 : 0 ≤ 16 < 2 ^ 31) by lia.
  split; [exact H1 |]. split; [exact H2 |]. split; [exact H3 |].
  split; [exact H4 |].
  destruct (fault_gives_EFAULT 0x7000 16 0 attached H1 H2 H3 H4)
    as [(s1 & Hr & _) (s2 & Hw & _)].
  { exists 0. split; [vm_compute; split; [discriminate | reflexivity] | reflexivity]. }
  rewrite Hr, Hw. split; reflexivity.
Defined.

(** Where [read] and [write] leave the position: never behind where it
    was, never past the end of the window; and the device record is not
    touched. *)
Lemma transfer_position (buffer len poffset : Z) (s : kstate) :
  0 ≤ ioaddr_size (kvm_ivshmem_dev s) < 2 ^ 32 →
  0 ≤ poffset ≤ ioaddr_size (kvm_ivshmem_dev s) →
  0 ≤ len < 2 ^ 63 →
  (poffset ≤ (kvm_ivshmem_read buffer len poffset s).1.2
           ≤ ioaddr_size (kvm_ivshmem_dev s)
   ∧ kvm_ivshmem_dev (kvm_ivshmem_read buffer len poffset s).2
     = kvm_ivshmem_dev s)
  ∧ (poffset ≤ (kvm_ivshmem_write buffer len poffset s).1.2
             ≤ ioaddr_size (kvm_ivshmem_dev s)
     ∧ kvm_ivshmem_dev (kvm_ivshmem_write buffer len poffset s).2
       = kvm_ivshmem_dev s).
Proof.
  intros Hsize Hoff Hlen.
  set (size := ioaddr_size (kvm_ivshmem_dev s)) in *.
  assert (Hn : ∃ n, (if len >? size - poffset then size - poffset else len) = n
                    ∧ 0 ≤ n ≤ size - poffset).
  { eexists. split; [reflexivity |].
    destruct (Z.gtb_spec len (size - poffset)); lia. }
  destruct Hn as (n & Hn & Hrange).
  split.
  - unfold kvm_ivshmem_read. fold size.
    destruct (base_addr (kvm_ivshmem_dev s) =? 0); [simpl; split; [lia | reflexivity] |].
    rewrite (u64_small poffset) by lia. rewrite (u64_small (size - poffset)) by lia.
    rewrite Hn. destruct (n =? 0); [simpl; split; [lia | reflexivity] |].
    destruct (copy_to_user buffer _ (umem s)) as [r um'].
    destruct (s32 r >? 0); cbn [fst snd kvm_ivshmem_dev set_umem];
      [split; [lia | reflexivity] |].
    rewrite s64_small by lia. split; [lia | reflexivity].
  - unfold kvm_ivshmem_write. fold size.
    destruct (base_addr (kvm_ivshmem_dev s) =? 0); [simpl; split; [lia | reflexivity] |].
    rewrite (u64_small poffset) by lia. rewrite (u64_small (size - poffset)) by lia.
    rewrite Hn. destruct (n =? 0); [simpl; split; [lia | reflexivity] |].
    destruct (copy_from_user buffer _ (umem s)) as [r bs].
    destruct (s32 r >? 0); cbn [fst snd kvm_ivshmem_dev set_shmem];
      [split; [lia | reflexivity] |].
    rewrite s64_small by lia. split; [lia | reflexivity].
Qed.

(** One call on the file keeps the position at or below the window size. *)
Lemma do_op_keeps_bound (op : file_op) (filp : file) (s : kstate) :
  small_request op →
  0 ≤ ioaddr_size (kvm_ivshmem_dev s) < 2 ^ 32 →
  f_pos filp ≤ ioaddr_size (kvm_ivshmem_dev s) →
  f_pos (do_op op (filp, s)).2.1 ≤ ioaddr_size (kvm_ivshmem_dev s)
  ∧ kvm_ivshmem_dev (do_op op (filp, s)).2.2 = kvm_ivshmem_dev s.
Proof.
  intros Hop Hsize Hpos. destruct op as [buffer len | buffer len | offset whence].
  - unfold do_op. destruct (Z.ltb_spec (f_pos filp) 0) as [Hneg | Hnn].
    + split; [exact Hpos | reflexivity].
    + destruct (transfer_position buffer len (f_pos filp) s) as [[Hp Hd] _];
        [exact Hsize | lia | simpl in Hop; lia |].
      destruct (kvm_ivshmem_read buffer len (f_pos filp) s) as [[ret pos] s'].
      simpl in *. split; [lia | exact Hd].
  - unfold do_op. destruct (Z.ltb_spec (f_pos filp) 0) as [Hneg | Hnn].
    + split; [exact Hpos | reflexivity].
    + destruct (transfer_position buffer len (f_pos filp) s) as [_ [Hp Hd]];
        [exact Hsize | lia | simpl in Hop; lia |].
      destruct (kvm_ivshmem_write buffer len (f_pos filp) s) as [[ret pos] s'].
      simpl in *. split; [lia | exact Hd].
  - unfold do_op, lseek, kvm_ivshmem_lseek, lseek_set.
    destruct (whence =? SEEK_CUR); [| destruct (whence =? SEEK_SET)];
      cbn [fst snd f_pos]; (split; [| reflexivity]);
      try exact Hpos;
      match goal with
      | |- context [?a >? ?b] => destruct (Z.gtb_spec a b); cbn [f_pos]; lia
      end.
Qed.

(** X13: the file position never passes the end of the window.  From a
    position at or below the window size [S] (it is 0 when the file is
    opened), whatever sequence of [read], [write] and [lseek] calls of
    whatever arguments a process makes, the position stays at or below
    [S]: the driver's [read] and [write] are then never entered with an
    offset beyond the window. *)
Theorem stream_position_stays_in_window
    (ops : list file_op) (filp : file) (s : kstate) :
  Forall small_request ops →
  0 ≤ ioaddr_size (kvm_ivshmem_dev s) < 2 ^ 32 →
  f_pos filp ≤ ioaddr_size (kvm_ivshmem_dev s) →
  f_pos (do_ops ops (filp, s)).1 ≤ ioaddr_size (kvm_ivshmem_dev s)
  ∧ kvm_ivshmem_dev (do_ops ops (filp, s)).2 = kvm_ivshmem_dev s.
Proof.
  revert filp s. induction ops as [| op ops IH]; intros filp s Hops Hsize Hpos.
  - split; [exact Hpos | reflexivity].
  - apply Forall_cons in Hops as [Hop Hops]. cbn [do_ops].
    destruct (do_op_keeps_bound op filp s Hop Hsize Hpos) as [Hp Hd].
    destruct (do_op op (filp, s)) as [ret [filp' s']]. cbn [fst snd] in *.
    destruct (IH filp' s' Hops) as [Hp' Hd']; [rewrite Hd; exact Hsize
                                              | rewrite Hd; exact Hp |].
    rewrite Hd in Hp', Hd'. split; [exact Hp' | exact Hd'].
Qed.

Lemma stream_position_stays_in_window_witness :
  let ops := [OpSeek 4090 SEEK_SET; OpRead 0x7000 16; OpSeek 10 SEEK_CUR;
              OpWrite 0x7000 16; OpSeek (-5000) SEEK_CUR; OpRead 0x7000 4] in
  Forall small_request ops
  ∧ 0 ≤ ioaddr_size (kvm_ivshmem_dev attached_with_buffer) < 2 ^ 32
  ∧ f_pos {| f_pos := 0 |} ≤ ioaddr_size (kvm_ivshmem_dev attached_with_buffer)
  ∧ f_pos (do_ops ops ({| f_pos := 0 |}, attached_with_buffer)).1 ≤ 4096.
Proof.
  set (ops := [OpSeek 4090 SEEK_SET; OpRead 0x7000 16; OpSeek 10 SEEK_CUR;
               OpWrite 0x7000 16; OpSeek (-5000) SEEK_CUR; OpRead 0x7000 4]).
  cbv zeta.
  assert (H1 : Forall small_request ops).
  { unfold ops. repeat (constructor; [simpl; lia || exact I |]). constructor. }
  assert (H2 : 0 ≤ ioaddr_size (kvm_ivshmem_dev attached_with_buffer) < 2 ^ 32)
    by (change (ioaddr_size (kvm_ivshmem_dev attached_with_buffer)) with 4096; lia).
  assert (H3 : f_pos {| f_pos := 0 |}
               ≤ ioaddr_size (kvm_ivshmem_dev attached_with_buffer))
    by (change (ioaddr_size (kvm_ivshmem_dev attached_with_buffer)) with 4096;
        simpl; lia).
  split; [exact H1 |]. split; [exact H2 |]. split; [exact H3 |].
  exact (proj1 (stream_position_stays_in_window ops {| f_pos := 0 |}
                  attached_with_buffer H1 H2 H3)).
Defined.

Lemma s64_id (x : Z) : - 2 ^ 63 ≤ x < 2 ^ 63 → s64 x = x.
Proof.
  intros H. destruct (Z.le_gt_cases 0 x) as [Hnn | Hneg].
  - apply s64_small. lia.
  - unfold s64. rewrite <- (Z.mod_add x 1 (2 ^ 64)) by lia.
    rewrite Z.mod_small by lia.
    destruct (Z.ltb_spec (x + 1 * 2 ^ 64) (2 ^ 63)); lia.
Qed.

(** X14: what [lseek] returns is not where the position is.  A seek to an
    absolute position [offset] returns [offset] itself, while the position
    kept is [min offset S]; asking for the position right afterwards
    ([lseek(fd, 0, SEEK_CUR)]) returns that [min offset S].  So a seek past
    the end of the window reports a position the file is not at, and a
    seek to a negative position is carried out as it is. *)
Theorem lseek_reports_requested_position
    (filp : file) (offset : Z) (s : kstate) :
  - 2 ^ 63 ≤ offset < 2 ^ 63 →
  0 ≤ ioaddr_size (kvm_ivshmem_dev s) < 2 ^ 32 →
  let size := ioaddr_size (kvm_ivshmem_dev s) in
  let '(r1, filp1) := kvm_ivshmem_lseek filp offset SEEK_SET s in
  let '(r2, filp2) := kvm_ivshmem_lseek filp1 0 SEEK_CUR s in
  r1 = offset ∧ f_pos filp1 = Z.min offset size
  ∧ r2 = Z.min offset size ∧ filp2 = filp1
  ∧ (size < offset → r1 ≠ r2)
  ∧ (offset < 0 → f_pos filp1 = offset).
Proof.
  intros Hoff Hsize size. rewrite lseek_set_clamps. fold size.
  unfold kvm_ivshmem_lseek, lseek_set. cbn [f_pos]. change (SEEK_CUR =? SEEK_CUR) with true.
  cbv iota. fold size.
  assert (Hs : s64 (0 + Z.min offset size) = Z.min offset size)
    by (rewrite Z.add_0_l; apply s64_id; lia).
  rewrite Hs.
  assert (Hc : (if Z.min offset size >? size then size else Z.min offset size)
               = Z.min offset size).
  { destruct (Z.gtb_spec (Z.min offset size) size); lia. }
  rewrite Hc. repeat split; lia.
Qed.

Lemma lseek_reports_requested_position_witness :
  - 2 ^ 63 ≤ 10000 < 2 ^ 63
  ∧ 0 ≤ ioaddr_size (kvm_ivshmem_dev attached) < 2 ^ 32
  ∧ kvm_ivshmem_lseek {| f_pos := 0 |} 10000 SEEK_SET attached
    = (10000, {| f_pos := 4096 |})
  ∧ kvm_ivshmem_lseek {| f_pos := 4096 |} 0 SEEK_CUR attached
    = (4096, {| f_pos := 4096 |}).
Proof.
  assert (H1 : - 2 ^ 63 ≤ 10000 < 2 ^ 63) by lia.
  assert (H2 : 0 ≤ ioaddr_size (kvm_ivshmem_dev attached) < 2 ^ 32)
    by (change (ioaddr_size (kvm_ivshmem_dev attached)) with 4096; lia).
  split; [exact H1 |]. split; [exact H2 |].
  pose proof (lseek_reports_requested_position {| f_pos := 0 |} 10000 attached
                H1 H2) as H.
  cbv zeta in H.
  destruct (kvm_ivshmem_lseek {| f_pos := 0 |} 10000 SEEK_SET attached)
    as [r1 filp1] eqn:E1.
  vm_compute in E1. injection E1 as <- <-.
  destruct (kvm_ivshmem_lseek {| f_pos := 4096 |} 0 SEEK_CUR attached)
    as [r2 filp2] eqn:E2.
  destruct H as (_ & _ & Hr2 & Hf & _). subst r2 filp2.
  split; reflexivity.
Defined.

(** ** Mapping the window *)






(** ** Attaching and detaching *)

(** X16: when the device counts as attached, and in what state.
    [probe] returns 0 exactly when the device could be enabled, its
    regions reserved and both BARs mapped; whether any interrupt could be
    set up plays no part.  On return 0 the semaphore count is 0 with
    nobody asleep, the event flag is 0, the wait queue is empty, the
    interrupt mask register holds 0xffffffff, and the device record holds
    the two mappings and the window's address and size cut to 32 bits. *)
Theorem probe_attaches_and_arms (pdev : pci_dev) (s : kstate) :
  let '(ret, s', log) := kvm_ivshmem_probe_device pdev s in
  let d := kvm_ivshmem_dev s' in
  (ret = 0 ↔ enable_device_result pdev = 0 ∧ 0 ≤ request_regions_result pdev
             ∧ iomap_result pdev 2 ≠ 0 ∧ iomap_result pdev 0 ≠ 0)
  ∧ (ret = 0 →
     sema s' = {| count := 0; wait_list := [] |}
     ∧ event_num s' = 0 ∧ wait_queue s' = []
     ∧ readl (regs d + IntrMask) s' = 0xffffffff
     ∧ base_addr d = iomap_result pdev 2 ∧ regs d = iomap_result pdev 0
     ∧ ioaddr d = u32 (resource_start pdev 2)
     ∧ ioaddr_size d = u32 (resource_len pdev 2)
     ∧ (alloc_irq_vectors_result pdev < 0 →
        request_irq_result pdev (pdev_irq pdev) ≠ 0 →
        ∀ n, request_irq n ∉ log)).
Proof.
  unfold kvm_ivshmem_probe_device.
  destruct (Z.eqb_spec (enable_device_result pdev) 0) as [He | He]; cbn [negb].
  2: { cbv zeta. split; [split; [intros; contradiction | intros (? & _); contradiction]
                        | intros; contradiction]. }
  destruct (Z.ltb_spec (request_regions_result pdev) 0) as [Hr | Hr].
  { cbv zeta. split; [split; [discriminate | intros (_ & ? & _); lia] | discriminate]. }
  cbn [base_addr regs].
  destruct (Z.eqb_spec (iomap_result pdev 2) 0) as [Hb | Hb].
  { cbv zeta. split; [split; [discriminate | intros (_ & _ & ? & _); contradiction]
                     | discriminate]. }
  destruct (Z.eqb_spec (iomap_result pdev 0) 0) as [Hg | Hg].
  { cbv zeta. split; [split; [discriminate | intros (_ & _ & _ & ?); contradiction]
                     | discriminate]. }
  unfold request_msix_vectors.
  change (Z.to_nat VECTORS_COUNT) with 1%nat. cbn [msix_loop].
  destruct (Z.ltb_spec (alloc_irq_vectors_result pdev) 0) as [Ha | Ha].
  - destruct (Z.eqb_spec (alloc_irq_vectors_result pdev) 0) as [? | _]; [lia |].
    cbn [negb]. cbv zeta.
    split; [split; [intros _; repeat split; assumption | reflexivity] |].
    intros _. cbn [kvm_ivshmem_dev writel set_dev regs base_addr ioaddr ioaddr_size].
    split; [reflexivity |]. split; [reflexivity |]. split; [reflexivity |].
    split; [unfold readl; cbn [mmio writel]; rewrite lookup_insert_eq; reflexivity |].
    split; [reflexivity |]. split; [reflexivity |]. split; [reflexivity |].
    split; [reflexivity |].
    intros _ Hirq n.
    destruct (Z.eqb_spec (request_irq_result pdev (pdev_irq pdev)) 0) as [? | _];
      [contradiction |].
    cbn. rewrite !elem_of_cons. intros H.
    repeat (destruct H as [H | H]; [discriminate H |]).
    apply elem_of_nil in H. exact H.
  - destruct (Z.eqb_spec (request_irq_result pdev (irq_vector pdev 0)) 0) as [Hq | Hq];
      cbn [negb]; cbv zeta.
    + change (0 =? 0) with true. cbn [negb].
      split; [split; [intros _; repeat split; assumption | reflexivity] |].
      intros _. cbn [kvm_ivshmem_dev writel set_dev regs base_addr ioaddr ioaddr_size].
      split; [reflexivity |]. split; [reflexivity |]. split; [reflexivity |].
      split; [unfold readl; cbn [mmio writel]; rewrite lookup_insert_eq; reflexivity |].
      split; [reflexivity |]. split; [reflexivity |]. split; [reflexivity |].
      split; [reflexivity |]. intros Hneg. lia.
    + change (- ENOSPC =? 0) with false. cbn [negb].
      split; [split; [intros _; repeat split; assumption | reflexivity] |].
      intros _. cbn [kvm_ivshmem_dev writel set_dev regs base_addr ioaddr ioaddr_size].
      split; [reflexivity |]. split; [reflexivity |]. split; [reflexivity |].
      split; [unfold readl; cbn [mmio writel]; rewrite lookup_insert_eq; reflexivity |].
      split; [reflexivity |]. split; [reflexivity |]. split; [reflexivity |].
      split; [reflexivity |]. intros Hneg. lia.
Qed.

(** X17: a failed [probe] holds nothing.  Whenever [probe] returns an
    error, everything it had acquired up to that point (the enabled device,
    the regions, the mapping of the window) has been released again, and
    nothing has been released that was not held. *)
Theorem failed_probe_releases_everything (pdev : pci_dev) (s : kstate) :
  (kvm_ivshmem_probe_device pdev s).1.1 ≠ 0 →
  books_of (kvm_ivshmem_probe_device pdev s).2 = ([], []).
Proof.
  unfold kvm_ivshmem_probe_device.
  destruct (Z.eqb_spec (enable_device_result pdev) 0) as [He | He]; cbn [negb];
    [| reflexivity].
  destruct (Z.ltb_spec (request_regions_result pdev) 0) as [Hr | Hr];
    [reflexivity |].
  cbn [base_addr regs].
  destruct (Z.eqb_spec (iomap_result pdev 2) 0) as [Hb | Hb]; [reflexivity |].
  destruct (Z.eqb_spec (iomap_result pdev 0) 0) as [Hg | Hg].
  - intros _. cbn. rewrite Z.eqb_refl. reflexivity.
  - destruct (request_msix_vectors pdev _ VECTORS_COUNT) as [[err d] mlog].
    cbn [fst snd]. intros H. contradiction.
Qed.

Lemma failed_probe_releases_everything_witness :
  (kvm_ivshmem_probe_device pdev_without_registers unmapped).1.1 ≠ 0
  ∧ (kvm_ivshmem_probe_device pdev_without_registers unmapped).2
    = [pci_enable_device; pci_request_regions; pci_iomap 2 0x100000;
       pci_iounmap 0x100000; pci_release_regions; pci_disable_device]
  ∧ books_of (kvm_ivshmem_probe_device pdev_without_registers unmapped).2
    = ([], []).
Proof.
  assert (H : (kvm_ivshmem_probe_device pdev_without_registers unmapped).1.1 ≠ 0)
    by (vm_compute; discriminate).
  split; [exact H |]. split; [vm_compute; reflexivity |].
  exact (failed_probe_releases_everything pdev_without_registers unmapped H).
Defined.

(** X18: detaching leaves the pointers behind.  [remove] unmaps the
    registers and the window but assigns no variable of the driver: after
    a successful [probe] and the [remove] that follows it, [base_addr] and
    [regs] still hold the addresses that were unmapped, so the NULL guard
    of [read] and [write] does not fire and every entry point behaves as
    on the attached device. *)
Theorem remove_leaves_stale_pointers (pdev : pci_dev) (s : kstate) :
  (kvm_ivshmem_probe_device pdev s).1.1 = 0 →
  let s1 := (kvm_ivshmem_probe_device pdev s).1.2 in
  let '(s2, log) := kvm_ivshmem_remove_device pdev s1 in
  s2 = s1
  ∧ base_addr (kvm_ivshmem_dev s2) ≠ 0 ∧ regs (kvm_ivshmem_dev s2) ≠ 0
  ∧ pci_iounmap (base_addr (kvm_ivshmem_dev s2)) ∈ log
  ∧ pci_iounmap (regs (kvm_ivshmem_dev s2)) ∈ log.
Proof.
  unfold kvm_ivshmem_probe_device.
  destruct (Z.eqb_spec (enable_device_result pdev) 0) as [He | He]; cbn [negb];
    [| intros H; contradiction].
  destruct (Z.ltb_spec (request_regions_result pdev) 0) as [Hr | Hr];
    [discriminate |].
  cbn [base_addr regs].
  destruct (Z.eqb_spec (iomap_result pdev 2) 0) as [Hb | Hb]; [discriminate |].
  destruct (Z.eqb_spec (iomap_result pdev 0) 0) as [Hg | Hg]; [discriminate |].
  destruct (request_msix_vectors pdev _ VECTORS_COUNT) as [[err d] mlog] eqn:Hm.
  assert (Hd : base_addr d = iomap_result pdev 2 ∧ regs d = iomap_result pdev 0).
  { unfold request_msix_vectors in Hm.
    destruct (msix_loop pdev _ 0 _) as [[e |] l];
      injection Hm as _ <- _; split; reflexivity. }
  destruct Hd as [Hdb Hdr].
  cbn [fst snd]. intros _. unfold kvm_ivshmem_remove_device.
  cbn [kvm_ivshmem_dev writel set_dev]. rewrite Hdb, Hdr.
  split; [reflexivity |]. split; [exact Hb |]. split; [exact Hg |].
  rewrite !elem_of_app, !elem_of_cons. split; right; tauto.
Qed.

Lemma remove_leaves_stale_pointers_witness :
  (kvm_ivshmem_probe_device pdev_msix unmapped).1.1 = 0
  ∧ let s1 := (kvm_ivshmem_probe_device pdev_msix unmapped).1.2 in
    (kvm_ivshmem_remove_device pdev_msix s1).1 = s1
    ∧ base_addr (kvm_ivshmem_dev s1) = 0x100000
    ∧ pci_iounmap 0x100000 ∈ (kvm_ivshmem_remove_device pdev_msix s1).2.
Proof.
  assert (H : (kvm_ivshmem_probe_device pdev_msix unmapped).1.1 = 0)
    by reflexivity.
  split; [exact H |]. cbv zeta.
  pose proof (remove_leaves_stale_pointers pdev_msix unmapped H) as Hr.
  cbv zeta in Hr.
  destruct (kvm_ivshmem_remove_device pdev_msix
              (kvm_ivshmem_probe_device pdev_msix unmapped).1.2)
    as [s2 log] eqn:E.
  destruct Hr as (Hs & _ & _ & Hin & _). cbn [fst snd].
  split; [exact Hs |]. split; [reflexivity |].
  rewrite Hs in Hin. exact Hin.
Defined.

(** X19: a [probe] that fails at the registers leaves [base_addr] set.
    When the window is mapped but the mapping of the register BAR fails,
    [probe] unmaps the window and returns [-EBUSY], but [base_addr] keeps
    the address that was unmapped (and [ioaddr_size] the window size): the
    NULL guard of [read] and [write] will not fire on the device file,
    which exists whether or not a device was attached. *)
Theorem failed_register_mapping_leaves_base_addr (pdev : pci_dev) (s : kstate) :
  enable_device_result pdev = 0 → 0 ≤ request_regions_result pdev →
  iomap_result pdev 2 ≠ 0 → iomap_result pdev 0 = 0 →
  ∃ s1 log,
    kvm_ivshmem_probe_device pdev s = (- EBUSY, s1, log)
    ∧ base_addr (kvm_ivshmem_dev s1) = iomap_result pdev 2
    ∧ ioaddr_size (kvm_ivshmem_dev s1) = u32 (resource_len pdev 2)
    ∧ regs (kvm_ivshmem_dev s1) = 0
    ∧ pci_iounmap (iomap_result pdev 2) ∈ log
    ∧ sema s1 = sema s ∧ event_num s1 = event_num s.
Proof.
  intros He Hr Hb Hg. unfold kvm_ivshmem_probe_device.
  rewrite He. cbn [Z.eqb negb].
  destruct (Z.ltb_spec (request_regions_result pdev) 0) as [? | _]; [lia |].
  cbn [base_addr regs].
  destruct (Z.eqb_spec (iomap_result pdev 2) 0) as [? | _]; [contradiction |].
  rewrite Hg. cbn [Z.eqb].
  eexists _, _. split; [reflexivity |].
  cbn [kvm_ivshmem_dev set_dev base_addr ioaddr_size regs sema event_num].
  split; [reflexivity |]. split; [reflexivity |]. split; [reflexivity |].
  split; [| split; reflexivity].
  rewrite !elem_of_app, !elem_of_cons. right. left. reflexivity.
Qed.

Lemma failed_register_mapping_leaves_base_addr_witness :
  enable_device_result pdev_without_registers = 0
  ∧ 0 ≤ request_regions_result pdev_without_registers
  ∧ iomap_result pdev_without_registers 2 ≠ 0
  ∧ iomap_result pdev_without_registers 0 = 0
  ∧ ∃ s1 log,
      kvm_ivshmem_probe_device pdev_without_registers unmapped
      = (- EBUSY, s1, log)
      ∧ base_addr (kvm_ivshmem_dev s1) = 0x100000.
Proof.
  assert (H1 : enable_device_result pdev_without_registers = 0) by reflexivity.
  assert (H2 : 0 ≤ request_regions_result pdev_without_registers)
    by (vm_compute; discriminate).
  assert (H3 : iomap_result pdev_without_registers 2 ≠ 0)
    by (vm_compute; discriminate).
  assert (H4 : iomap_result pdev_without_registers 0 = 0) by reflexivity.
  split; [exact H1 |]. split; [exact H2 |]. split; [exact H3 |].
  split; [exact H4 |].
  destruct (failed_register_mapping_leaves_base_addr pdev_without_registers
              unmapped H1 H2 H3 H4) as (s1 & log & Hp & Hb & _).
  exists s1, log. split; [exact Hp | exact Hb].
Defined.

(** X20: what an attach and detach leave behind.  When the device
    attaches with its MSI-X vector, the calls of [probe] followed by those
    of [remove] release everything that was acquired except the two
    arrays [request_msix_vectors] allocated with [kmalloc], which nothing
    frees; no release goes astray. *)
Theorem attach_detach_leaks_msix_arrays (pdev : pci_dev) (s : kstate) :
  (kvm_ivshmem_probe_device pdev s).1.1 = 0 →
  0 ≤ alloc_irq_vectors_result pdev →
  request_irq_result pdev (irq_vector pdev 0) = 0 →
  let s1 := (kvm_ivshmem_probe_device pdev s).1.2 in
  books_of ((kvm_ivshmem_probe_device pdev s).2
            ++ (kvm_ivshmem_remove_device pdev s1).2)
  = ([kmalloc_msix_entries; kmalloc_msix_names], []).
Proof.
  intros Hret Ha Hq. cbv zeta.
  revert Hret. unfold kvm_ivshmem_probe_device.
  destruct (Z.eqb_spec (enable_device_result pdev) 0) as [He | He]; cbn [negb];
    [| intros H; contradiction].
  destruct (Z.ltb_spec (request_regions_result pdev) 0) as [Hr | Hr];
    [discriminate |].
  cbn [base_addr regs].
  destruct (Z.eqb_spec (iomap_result pdev 2) 0) as [Hb | Hb]; [discriminate |].
  destruct (Z.eqb_spec (iomap_result pdev 0) 0) as [Hg | Hg]; [discriminate |].
  unfold request_msix_vectors.
  change (Z.to_nat VECTORS_COUNT) with 1%nat. cbn [msix_loop].
  destruct (Z.ltb_spec (alloc_irq_vectors_result pdev) 0) as [? | _]; [lia |].
  rewrite Hq. cbn [Z.eqb negb]. cbv zeta. cbn [Z.eqb negb fst snd].
  intros _. unfold kvm_ivshmem_remove_device.
  change (Z.to_nat VECTORS_COUNT) with 1%nat.
  cbn [remove_irqs snd kvm_ivshmem_dev writel set_dev regs base_addr app].
  unfold books_of.
  repeat (cbn -[Z.eqb]; rewrite ?Z.eqb_refl;
          try match goal with
              | |- context [?x =? ?y] => destruct (Z.eqb_spec x y)
              end);
    first [reflexivity | congruence].
Qed.

Lemma attach_detach_leaks_msix_arrays_witness :
  (kvm_ivshmem_probe_device pdev_msix unmapped).1.1 = 0
  ∧ 0 ≤ alloc_irq_vectors_result pdev_msix
  ∧ request_irq_result pdev_msix (irq_vector pdev_msix 0) = 0
  ∧ books_of ((kvm_ivshmem_probe_device pdev_msix unmapped).2
              ++ (kvm_ivshmem_remove_device pdev_msix
                    (kvm_ivshmem_probe_device pdev_msix unmapped).1.2).2)
    = ([kmalloc_msix_entries; kmalloc_msix_names], []).
Proof.
  assert (H1 : (kvm_ivshmem_probe_device pdev_msix unmapped).1.1 = 0)
    by reflexivity.
  assert (H2 : 0 ≤ alloc_irq_vectors_result pdev_msix)
    by (vm_compute; discriminate).
  assert (H3 : request_irq_result pdev_msix (irq_vector pdev_msix 0) = 0)
    by reflexivity.
  split; [exact H1 |]. split; [exact H2 |]. split; [exact H3 |].
  exact (attach_detach_leaks_msix_arrays pdev_msix unmapped H1 H2 H3).
Defined.

(** X21: loading and unloading the module.  [init] returns a negative
    value exactly when [misc_register] or [pci_register_driver] does, and
    then nothing stays registered; otherwise it returns 0 with the device
    file and the PCI driver registered and [enabled] cleared, and
    [cleanup] unregisters both. *)
Theorem module_init_is_balanced
    (misc_register_result pci_register_driver_result : Z) (s : kstate) :
  let '(ret, s', log) :=
    kvm_ivshmem_init_module misc_register_result pci_register_driver_result s in
  (ret < 0 ↔ misc_register_result < 0 ∨ pci_register_driver_result < 0)
  ∧ (ret < 0 → books_of log = ([], []))
  ∧ (0 ≤ ret →
     ret = 0
     ∧ books_of log = ([misc_register; pci_register_driver], [])
     ∧ books_of (log ++ kvm_ivshmem_cleanup_module) = ([], [])
     ∧ enabled (kvm_ivshmem_dev s') = false).
Proof.
  unfold kvm_ivshmem_init_module.
  destruct (Z.ltb_spec misc_register_result 0) as [Hm | Hm].
  - split; [split; [intros _; left; exact Hm | intros _; exact Hm] |].
    split; [reflexivity | lia].
  - cbv zeta. destruct (Z.ltb_spec pci_register_driver_result 0) as [Hp | Hp].
    + split; [split; [intros _; right; exact Hp | intros _; exact Hp] |].
      split; [reflexivity | lia].
    + split; [split; [lia | intros [? | ?]; lia] |].
      split; [lia |]. intros _. repeat split.
Qed.

(** * Further properties of memtest.c *)

(** X22: the test program does not get past its size query on this
    driver.  [get_pmem_size] asks for the window size with
    [lseek(fd, 0, SEEK_END)], which the driver answers with -1; so for
    every window size, file position and argument, [main] leaves through
    "No shared memory detected" as soon as the device file could be
    opened, and runs neither role. *)
Theorem main_stops_at_size_query
    (t : tid) (argc pmem_fd mmap_result vm_id_addr : Z)
    (filp : file) (s : kstate) :
  get_pmem_size filp s = (-1, filp)
  ∧ main t argc pmem_fd mmap_result vm_id_addr filp s
    = if pmem_fd <? 0 then ExitOpenFailed else ExitNoSharedMemory.
Proof.
  split; [reflexivity |]. unfold main.
  destruct (pmem_fd <? 0); reflexivity.
Qed.

(** X23: both roles publish 0 as their identity.  [main] replaces the
    peer identity it read by [vm_id << 16], and [proc_server] and
    [proc_client] store [vm_id << 16] of that; in 32-bit arithmetic the
    two shifts leave 0, whatever the hardware reported. *)
Theorem published_peer_id_is_0 (vm_id : Z) (c : vm_control_t) :
  iv_server (proc_server_init (main_vm_id vm_id) c) = 0
  ∧ iv_client (proc_client_init (main_vm_id vm_id) c) = 0
  ∧ shutdown (proc_server_init (main_vm_id vm_id) c) = 0
  ∧ iv_client (proc_server_init (main_vm_id vm_id) c) = iv_client c
  ∧ iv_server (proc_client_init (main_vm_id vm_id) c) = iv_server c.
Proof.
  assert (H : s32 (u32 (Z.shiftl (main_vm_id vm_id) 16)) = 0).
  { unfold main_vm_id, u32. rewrite !Z.shiftl_mul_pow2 by lia.
    assert (E : (vm_id * 2 ^ 16) mod 2 ^ 32 * 2 ^ 16 mod 2 ^ 32 = 0).
    { rewrite Z.mul_mod_idemp_l by lia.
      replace (vm_id * 2 ^ 16 * 2 ^ 16) with (vm_id * 2 ^ 32) by lia.
      apply Z.mod_mul. lia. }
    rewrite E. reflexivity. }
  unfold proc_server_init, proc_client_init. cbn. rewrite H. repeat split.
Qed.

Lemma lxor_u32 (a b : Z) :
  0 ≤ a < 2 ^ 32 → 0 ≤ b < 2 ^ 32 → 0 ≤ Z.lxor a b < 2 ^ 32.
Proof.
  intros Ha Hb.
  assert (Hnn : 0 ≤ Z.lxor a b) by (apply Z.lxor_nonneg; lia).
  split; [exact Hnn |].
  destruct (Z.eq_dec (Z.lxor a b) 0) as [-> | Hne]; [lia |].
  apply Z.log2_lt_pow2; [lia |].
  pose proof (Z.log2_lxor a b ltac:(lia) ltac:(lia)) as Hl.
  assert (Hla : Z.log2 a < 32).
  { destruct (Z.eq_dec a 0) as [-> | ?]; [simpl; lia | apply Z.log2_lt_pow2; lia]. }
  assert (Hlb : Z.log2 b < 32).
  { destruct (Z.eq_dec b 0) as [-> | ?]; [simpl; lia | apply Z.log2_lt_pow2; lia]. }
  lia.
Qed.

(** One write pass from slot [n] on, in a window of fewer than 2^31
    slots. *)
Lemma write_from_spec (d : Z) (fuel : nat) (n : Z) (m : mstate) :
  test_mem_size m < 2 ^ 31 →
  0 ≤ n →
  (Z.to_nat (test_mem_size m - n) < fuel)%nat →
  ∃ m', write_from fuel n d m = Some m' ∧ pattern_written d n m m'.
Proof.
  revert n m. induction fuel as [| fuel IH]; intros n m Hsize Hn Hfuel; [lia |].
  cbn [write_from].
  destruct (Z.ltb_spec n (test_mem_size m)) as [Hlt | Hge].
  - destruct (Z.ltb_spec (n + 1) (2 ^ 31)) as [_ | ?]; [| lia].
    destruct (IH (n + 1) (write_slot n (Z.lxor (u32 n) d) m))
      as (m' & Hrun & Hin & Hout & Hc & Hs & He & Hr);
      [exact Hsize | lia | cbn [test_mem_size write_slot]; lia |].
    cbn [test_mem_size write_slot] in Hin, Hout, Hs.
    exists m'. split; [exact Hrun |]. split; [| split; [| repeat split; assumption]].
    + intros k Hk. destruct (Z.eq_dec k n) as [-> | Hkn].
      * rewrite Hout by lia. cbn [test_pmem write_slot].
        apply lookup_insert_eq.
      * apply Hin. lia.
    + intros k Hk. rewrite Hout by lia. cbn [test_pmem write_slot].
      apply lookup_insert_ne. lia.
  - exists m. split; [reflexivity |]. split; [intros k Hk; lia |].
    repeat split.
Qed.

Lemma write_loops_spec (d : Z) (loops : nat) (m : mstate) :
  0 ≤ test_mem_size m < 2 ^ 31 →
  ∃ m', write_loops (S loops) d m = Some m' ∧ pattern_written d 0 m m'.
Proof.
  revert m. induction loops as [| loops IH]; intros m Hsize.
  - cbn [write_loops].
    destruct (write_from_spec d (pass_fuel m) 0 m) as (m' & Hrun & Hp);
      [lia | lia | unfold pass_fuel; lia |].
    rewrite Hrun. exists m'. split; [reflexivity | exact Hp].
  - change (write_loops (S (S loops)) d m)
      with (match write_from (pass_fuel m) 0 d m with
            | Some m1 => write_loops (S loops) d m1
            | None => None
            end).
    destruct (write_from_spec d (pass_fuel m) 0 m)
      as (m1 & Hrun & Hin & Hout & Hc & Hs & He & Hr);
      [lia | lia | unfold pass_fuel; lia |].
    rewrite Hrun.
    destruct (IH m1) as (m' & Hrun' & Hin' & Hout' & Hc' & Hs' & He' & Hr');
      [rewrite Hs; exact Hsize |].
    rewrite Hs in Hin', Hout'.
    exists m'. split; [exact Hrun' |]. split; [exact Hin' |].
    split; [intros k Hk; rewrite Hout' by exact Hk; apply Hout; exact Hk |].
    repeat split; congruence.
Qed.

(** X24: the write pass of the server.  Over a window of fewer than 2^31
    slots, [memtest(data, 0)] returns 0 and leaves [index ^ data] in every
    slot of the test area; it touches no slot outside the area and neither
    [vm_control] nor the error output.  The verify pass
    [memtest(data, 1)] run on the result returns 0 and leaves the shutdown
    flag alone. *)
Theorem memtest_write_pass (seed : Z) (m : mstate) :
  0 ≤ test_mem_size m < 2 ^ 31 →
  ∃ m',
    memtest seed 0 m = Some (0, m')
    ∧ (∀ n, 0 ≤ n < test_mem_size m → slot m' n = Z.lxor n (u32 seed))
    ∧ (∀ n, n < 0 ∨ test_mem_size m ≤ n → test_pmem m' !! n = test_pmem m !! n)
    ∧ vm_control m' = vm_control m ∧ errors m' = errors m
    ∧ ∃ m'', memtest seed 1 m' = Some (0, m'')
             ∧ vm_control m'' = vm_control m ∧ errors m'' = errors m.
Proof.
  intros Hsize. unfold memtest at 1. change (0 =? 0) with true. cbv iota.
  change TEST_LOOPS with (S 499).
  destruct (write_loops_spec (u32 seed) 499 m Hsize)
    as (m' & Hrun & Hin & Hout & Hc & Hs & He & _).
  rewrite Hrun. exists m'. split; [reflexivity |].
  assert (Hd : 0 ≤ u32 seed < 2 ^ 32) by (apply Z.mod_pos_bound; lia).
  assert (Hslots : ∀ n, 0 ≤ n < test_mem_size m → slot m' n = Z.lxor n (u32 seed)).
  { intros n Hn. unfold slot. rewrite Hin by exact Hn. cbn [default].
    rewrite (u32_small n) by lia. apply u32_small. apply lxor_u32; lia. }
  split; [exact Hslots |]. split; [exact Hout |]. split; [exact Hc |].
  split; [exact He |].
  unfold memtest. change (1 =? 0) with false. cbv iota.
  destruct (verify_loops_all_ok (u32 seed) TEST_LOOPS m' m'
              (counters_only_refl m')) as (m'' & Hv & Hc'' & _ & _ & He'');
    [rewrite Hs; lia | rewrite Hs; exact Hslots |].
  rewrite Hv. exists m''. split; [reflexivity |].
  split; congruence.
Qed.

Lemma memtest_write_pass_witness :
  0 ≤ test_mem_size four_slots_corrupted < 2 ^ 31
  ∧ ∃ m', memtest 42 0 four_slots_corrupted = Some (0, m')
          ∧ slot m' 2 = 40.
Proof.
  assert (Hsize : 0 ≤ test_mem_size four_slots_corrupted < 2 ^ 31)
    by (change (test_mem_size four_slots_corrupted) with 4; lia).
  split; [exact Hsize |].
  destruct (memtest_write_pass 42 four_slots_corrupted Hsize)
    as (m' & Hrun & Hslots & _).
  exists m'. split; [exact Hrun |].
  rewrite Hslots by (change (test_mem_size four_slots_corrupted) with 4; lia).
  reflexivity.
Defined.

(** X25: the test area fits the window.  For a window size that covers
    the control block (28 bytes) and fits an [int], the [test_mem_size]
    that [main] computes is a multiple of 4 and the control block followed
    by that many 4-byte slots does not reach past the window. *)
Theorem test_area_fits_window (pmem_size : Z) :
  28 ≤ pmem_size < 2 ^ 31 →
  0 ≤ main_test_mem_size pmem_size
  ∧ 28 + 4 * main_test_mem_size pmem_size ≤ pmem_size
  ∧ main_test_mem_size pmem_size mod 4 = 0
  ∧ (pmem_size - 28) / 4 - 3 ≤ main_test_mem_size pmem_size.
Proof.
  intros H. unfold main_test_mem_size.
  rewrite (u64_small (pmem_size - 28)) by lia.
  assert (Hq : 0 ≤ (pmem_size - 28) / 4 < 2 ^ 29).
  { split; [apply Z.div_pos; lia | apply Z.div_lt_upper_bound; lia]. }
  pose proof (Z.mul_div_le (pmem_size - 28) 4 ltac:(lia)) as Hmul.
  set (q := (pmem_size - 28) / 4) in *.
  change (u64 (Z.lnot (4 - 1))) with (2 ^ 64 - 4).
  assert (Hland : Z.land q (2 ^ 64 - 4) = q - q mod 4).
  { replace (2 ^ 64 - 4) with (Z.lor (Z.shiftl (Z.ones 62) 2) 0) by reflexivity.
    rewrite Z.lor_0_r.
    pose proof (Z.div_mod q 4 ltac:(lia)) as Hdm.
    apply Z.bits_inj'. intros i Hi.
    rewrite Z.land_spec.
    replace (q - q mod 4) with (Z.shiftl (Z.shiftr q 2) 2)
      by (rewrite Z.shiftl_mul_pow2, Z.shiftr_div_pow2 by lia;
          change (2 ^ 2) with 4; lia).
    destruct (Z.lt_ge_cases i 2) as [Hlt | Hge].
    - rewrite !Z.shiftl_spec_low by lia. apply andb_false_r.
    - rewrite !Z.shiftl_spec by lia. rewrite Z.shiftr_spec by lia.
      replace (i - 2 + 2) with i by lia.
      destruct (Z.lt_ge_cases (i - 2) 62) as [Hin | Hout].
      + rewrite Z.ones_spec_low by lia. apply andb_true_r.
      + rewrite Z.ones_spec_high by lia. rewrite andb_false_r.
        symmetry. apply Z.bits_above_log2; [lia |].
        destruct (Z.eq_dec q 0) as [-> | Hq0]; [simpl; lia |].
        assert (Z.log2 q < 29) by (apply Z.log2_lt_pow2; lia). lia. }
  rewrite Hland.
  pose proof (Z.mod_pos_bound q 4 ltac:(lia)) as Hm.
  pose proof (Z.mod_le q 4 ltac:(lia) ltac:(lia)) as Hle.
  rewrite s64_small by lia.
  split; [lia |]. split; [lia |]. split; [| lia].
  pose proof (Z.div_mod q 4 ltac:(lia)) as Hdm.
  replace (q - q mod 4) with (q / 4 * 4) by lia. apply Z.mod_mul. lia.
Qed.

Lemma test_area_fits_window_witness :
  28 ≤ 4096 < 2 ^ 31
  ∧ main_test_mem_size 4096 = 1016
  ∧ 28 + 4 * main_test_mem_size 4096 ≤ 4096.
Proof.
  assert (H : 28 ≤ 4096 < 2 ^ 31) by lia.
  split; [exact H |]. split; [reflexivity |].
  exact (proj1 (proj2 (test_area_fits_window 4096 H))).
Defined.
